(** * Dataset preparation core of ai-toolkit: bucketing, point-of-interest
    cropping, augmentation replay, the latent cache, captions and companion
    files.

    Shallow embedding of [toolkit/dataloader_mixins.py].

    Conventions of the embedding.
    - Python [int] is [Z]; Python [float] is idealised as an exact rational
      ([Q]): [a / b] is exact division, [int(x)] truncates toward zero,
      [math.ceil] is [Qceiling].
    - Python [str] is [string]; every character is a code point below 256.
    - A method of an item is a function of the item and of the shared random
      generator; it returns what the method returns (or the exception it
      raises) together with the mutated item and the advanced generator.
    - Images and arrays are terms over the operations of the imaging
      libraries (PIL, numpy, OpenCV, albumentations, torchvision): the term of
      a value records which library calls produced it and in which order. *)

From Stdlib Require Import ZArith QArith Qround Qabs List String Ascii Bool Lia.
From Stdlib.Strings Require Import Byte.
From Stdlib Require Import Permutation Sorted DecimalString DecimalZ.
Import ListNotations.

Local Open Scope string_scope.
Local Open Scope list_scope.
Local Open Scope Z_scope.

(* ------------------------------------------------------------------ *)
(** ** Python numerics *)

Module Py.

(** [int(x)] on a float: truncation toward zero. *)
Definition int_of (x : Q) : Z :=
  if Qle_bool 0 x then Qfloor x else Qceiling x.

(** [math.ceil(x)]. *)
Definition ceil (x : Q) : Z := Qceiling x.

(** [a / b] on two ints (true division); the caller checks [b <> 0]. *)
Definition truediv (a b : Z) : Q := inject_Z a / inject_Z b.

(** [max(a, b)]: the first argument unless the second is strictly larger. *)
Definition max (a b : Q) : Q := if Qlt_le_dec a b then b else a.

(** [min(a, b)] on ints. *)
Definition min (a b : Z) : Z := if b <? a then b else a.

(** [str(n)] for an int. *)
Definition str (n : Z) : string := NilZero.string_of_int (Z.to_int n).

End Py.

(* ------------------------------------------------------------------ *)
(** ** Exceptions and the state-and-exception monad *)

Inductive exn : Type :=
| ZeroDivisionError
| ValueError (msg : string)
| NameError (name : string)
| TypeError (msg : string)
| AssertionError (msg : string)
| IndexError
| Exception (msg : string)
| HelperError (msg : string).

Inductive res (A : Type) : Type :=
| Ok (a : A)
| Raise (e : exn).
Arguments Ok {A} a.
Arguments Raise {A} e.

(** A computation over a mutable store [S].  The store survives an
    exception, as the fields of a Python object do. *)
Definition M (S A : Type) : Type := S -> res A * S.

Definition ret {S A} (a : A) : M S A := fun s => (Ok a, s).
Definition raise {S A} (e : exn) : M S A := fun s => (Raise e, s).
Definition bind {S A B} (m : M S A) (k : A -> M S B) : M S B :=
  fun s => match m s with
           | (Ok a, s') => k a s'
           | (Raise e, s') => (Raise e, s')
           end.
Definition get {S} : M S S := fun s => (Ok s, s).
Definition put {S} (s : S) : M S unit := fun _ => (Ok tt, s).
Definition modify {S} (f : S -> S) : M S unit := fun s => (Ok tt, f s).
Definition lift_res {S A} (r : res A) : M S A := fun s => (r, s).

Declare Scope monad_scope.
Delimit Scope monad_scope with monad.
Notation "x <- m ;; k" := (bind m (fun x => k))
  (at level 61, m at next level, right associativity) : monad_scope.
Notation "m ;;; k" := (bind m (fun _ => k))
  (at level 61, right associativity) : monad_scope.
Local Open Scope monad_scope.

(* ------------------------------------------------------------------ *)
(** ** The shared random generator ([random] module)

    The generator is a stream of raw draws with a cursor.  [randint a b]
    maps the next draw onto [[a, b]]; [random()] maps it onto a dyadic
    rational of [[0, 1)]. *)

Record Rng : Type := mkRng { draws : nat -> N; cursor : nat }.

Definition next_draw (g : Rng) : N * Rng :=
  (draws g (cursor g), mkRng (draws g) (S (cursor g))).

(** [random.randint(a, b)]: raises [ValueError] on an empty range. *)
Definition randint (a b : Z) (g : Rng) : res Z * Rng :=
  if b <? a then (Raise (ValueError "empty range for randrange()"), g)
  else let (r, g') := next_draw g in
       (Ok (a + Z.of_N r mod (b - a + 1)), g').

(** [random.random()]. *)
Definition random (g : Rng) : Q * Rng :=
  let (r, g') := next_draw g in
  (Qmake (Z.of_N r mod 2 ^ 53) (2 ^ 53), g').

(** [l[i] = x], for [i] in range. *)
Definition list_set {A} (i : nat) (x : A) (l : list A) : list A :=
  if (i <? List.length l)%nat then firstn i l ++ x :: skipn (S i) l else l.

(** [l[i], l[j] = l[j], l[i]]. *)
Definition swap_into {A} (l : list A) (i j : nat) : list A :=
  match nth_error l i, nth_error l j with
  | Some x, Some y => list_set j x (list_set i y l)
  | _, _ => l
  end.

(** [random.shuffle(x)]: Fisher-Yates from the last position down. *)

Fixpoint shuffle_from {A} (i : nat) (l : list A) (g : Rng) : list A * Rng :=
  match i with
  | O => (l, g)
  | S i' =>
      let (r, g') := next_draw g in
      let j := N.to_nat (r mod N.of_nat (S i)) in
      shuffle_from i' (swap_into l i j) g'
  end.

Definition shuffle {A} (l : list A) (g : Rng) : list A * Rng :=
  shuffle_from (Nat.pred (List.length l)) l g.

(* ------------------------------------------------------------------ *)
(** ** Strings and paths ([str], [os.path] on a POSIX host) *)

Module PyStr.

Definition dquote : ascii := "034"%char.
Definition backslash : ascii := "092"%char.
Definition slash : ascii := "/"%char.
Definition dot : ascii := "."%char.

Definition is_empty (s : string) : bool :=
  match s with EmptyString => true | _ => false end.

(** Split at the last occurrence of [c]: what is before it, what is after. *)
Fixpoint rsplit_at (c : ascii) (s : string) : option (string * string) :=
  match s with
  | EmptyString => None
  | String a r =>
      match rsplit_at c r with
      | Some (h, t) => Some (String a h, t)
      | None => if Ascii.eqb a c then Some (EmptyString, r) else None
      end
  end.

(** [s.split(c)[-1]]. *)
Definition last_component (c : ascii) (s : string) : string :=
  match rsplit_at c s with
  | Some (_, t) => t
  | None => s
  end.

(** [s.rstrip(c)]. *)
Fixpoint rstrip (c : ascii) (s : string) : string :=
  match s with
  | EmptyString => EmptyString
  | String a r =>
      let r' := rstrip c r in
      if is_empty r' && Ascii.eqb a c then EmptyString else String a r'
  end.

Fixpoint all_chars (p : ascii -> bool) (s : string) : bool :=
  match s with
  | EmptyString => true
  | String a r => p a && all_chars p r
  end.

Fixpoint ends_with (c : ascii) (s : string) : bool :=
  match s with
  | EmptyString => false
  | String a EmptyString => Ascii.eqb a c
  | String _ r => ends_with c r
  end.

Definition starts_with (c : ascii) (s : string) : bool :=
  match s with
  | String a _ => Ascii.eqb a c
  | EmptyString => false
  end.

(** [s.replace(c, '')]. *)
Fixpoint remove_char (c : ascii) (s : string) : string :=
  match s with
  | EmptyString => EmptyString
  | String a r => if Ascii.eqb a c then remove_char c r
                  else String a (remove_char c r)
  end.

(** [os.path.basename]. *)
Definition basename (p : string) : string := last_component slash p.

(** [os.path.dirname]. *)
Definition dirname (p : string) : string :=
  match rsplit_at slash p with
  | None => EmptyString
  | Some (h, _) =>
      let head := String.append h (String slash EmptyString) in
      if all_chars (Ascii.eqb slash) head then head else rstrip slash head
  end.

(** [os.path.splitext]. *)
Definition splitext (p : string) : string * string :=
  let '(dir, base) :=
    match rsplit_at slash p with
    | Some (h, t) => (String.append h (String slash EmptyString), t)
    | None => (EmptyString, p)
    end in
  match rsplit_at dot base with
  | Some (stem, ext) =>
      if all_chars (Ascii.eqb dot) stem then (p, EmptyString)
      else (String.append dir stem, String dot ext)
  | None => (p, EmptyString)
  end.

(** [os.path.join(a, b)]. *)
Definition join (a b : string) : string :=
  if starts_with slash b then b
  else if is_empty a || ends_with slash a then String.append a b
  else String.append a (String slash b).

(** [s.encode('utf-8')] for code points below 256. *)
Definition utf8_char (c : ascii) : list byte :=
  let n := N_of_ascii c in
  if (n <? 128)%N then [byte_of_ascii c]
  else
    match Byte.of_N (192 + N.shiftr n 6), Byte.of_N (128 + N.land n 63) with
    | Some hi, Some lo => [hi; lo]
    | _, _ => []
    end.

Fixpoint encode_utf8 (s : string) : list byte :=
  match s with
  | EmptyString => []
  | String a r => utf8_char a ++ encode_utf8 r
  end.

End PyStr.

(* ------------------------------------------------------------------ *)
(** ** [json.dumps(d, sort_keys=True)] on a flat dict *)

Module Json.

Inductive value : Type :=
| JStr (s : string)
| JInt (n : Z)
| JBool (b : bool).

(** An [OrderedDict]: the items in insertion order. *)
Definition dict : Type := list (string * value).

Definition hex_digit (n : N) : ascii :=
  if (n <? 10)%N then ascii_of_N (48 + n) else ascii_of_N (87 + n).

(** One character of a string under [ensure_ascii=True]. *)
Definition escape_char (c : ascii) : string :=
  let n := N_of_ascii c in
  let bs := PyStr.backslash in
  if Ascii.eqb c PyStr.dquote then String bs (String PyStr.dquote EmptyString)
  else if Ascii.eqb c bs then String bs (String bs EmptyString)
  else if (n =? 10)%N then String bs "n"
  else if (n =? 13)%N then String bs "r"
  else if (n =? 9)%N then String bs "t"
  else if (n =? 12)%N then String bs "f"
  else if (n =? 8)%N then String bs "b"
  else if ((32 <=? n) && (n <=? 126))%N then String c EmptyString
  else String bs (String "u" (String "0" (String "0"
         (String (hex_digit (N.shiftr n 4))
            (String (hex_digit (N.land n 15)) EmptyString))))).

Fixpoint escape (s : string) : string :=
  match s with
  | EmptyString => EmptyString
  | String a r => String.append (escape_char a) (escape r)
  end.

Definition quote (s : string) : string :=
  String PyStr.dquote (String.append (escape s) (String PyStr.dquote EmptyString)).

Definition dumps_value (v : value) : string :=
  match v with
  | JStr s => quote s
  | JInt n => Py.str n
  | JBool true => "true"
  | JBool false => "false"
  end.

Definition dumps_item (kv : string * value) : string :=
  String.append (quote (fst kv)) (String.append ": " (dumps_value (snd kv))).

(** [sorted(d.items())]: insertion into a list ordered by key. *)
Fixpoint insert_item (kv : string * value) (l : dict) : dict :=
  match l with
  | [] => [kv]
  | kv' :: r => if String.leb (fst kv) (fst kv') then kv :: l
                else kv' :: insert_item kv r
  end.

Fixpoint sort_items (l : dict) : dict :=
  match l with
  | [] => []
  | kv :: r => insert_item kv (sort_items r)
  end.

Definition dumps_items (l : dict) : string :=
  String.append "{" (String.append (String.concat ", " (map dumps_item l)) "}").

Definition dumps_sorted (d : dict) : string := dumps_items (sort_items d).

End Json.

(* ------------------------------------------------------------------ *)
(** ** [hashlib.md5] (RFC 1321) and [base64.urlsafe_b64encode] *)

Module MD5.

Definition w32 (x : Z) : Z := x mod 2 ^ 32.
Definition add32 (a b : Z) : Z := w32 (a + b).
Definition not32 (x : Z) : Z := Z.lxor x (2 ^ 32 - 1).
Definition rotl32 (x s : Z) : Z :=
  Z.lor (w32 (Z.shiftl x s)) (Z.shiftr x (32 - s)).

(** [floor(2^32 * abs(sin(i + 1)))]. *)
Definition sines : list Z :=
  [3614090360; 3905402710; 606105819; 3250441966; 4118548399; 1200080426;
   2821735955; 4249261313; 1770035416; 2336552879; 4294925233; 2304563134;
   1804603682; 4254626195; 2792965006; 1236535329; 4129170786; 3225465664;
   643717713; 3921069994; 3593408605; 38016083; 3634488961; 3889429448;
   568446438; 3275163606; 4107603335; 1163531501; 2850285829; 4243563512;
   1735328473; 2368359562; 4294588738; 2272392833; 1839030562; 4259657740;
   2763975236; 1272893353; 4139469664; 3200236656; 681279174; 3936430074;
   3572445317; 76029189; 3654602809; 3873151461; 530742520; 3299628645;
   4096336452; 1126891415; 2878612391; 4237533241; 1700485571; 2399980690;
   4293915773; 2240044497; 1873313359; 4264355552; 2734768916; 1309151649;
   4149444226; 3174756917; 718787259; 3951481745].

Definition shifts : list Z :=
  [7; 12; 17; 22; 7; 12; 17; 22; 7; 12; 17; 22; 7; 12; 17; 22;
   5; 9; 14; 20; 5; 9; 14; 20; 5; 9; 14; 20; 5; 9; 14; 20;
   4; 11; 16; 23; 4; 11; 16; 23; 4; 11; 16; 23; 4; 11; 16; 23;
   6; 10; 15; 21; 6; 10; 15; 21; 6; 10; 15; 21; 6; 10; 15; 21].

Definition mix (i b c d : Z) : Z :=
  if i <? 16 then Z.lor (Z.land b c) (Z.land (not32 b) d)
  else if i <? 32 then Z.lor (Z.land d b) (Z.land (not32 d) c)
  else if i <? 48 then Z.lxor b (Z.lxor c d)
  else Z.lxor c (Z.lor b (not32 d)).

Definition word_index (i : Z) : Z :=
  if i <? 16 then i
  else if i <? 32 then (5 * i + 1) mod 16
  else if i <? 48 then (3 * i + 5) mod 16
  else (7 * i) mod 16.

Definition state : Type := (Z * Z * Z * Z)%type.

Definition step (m : list Z) (st : state) (i : nat) : state :=
  let '(a, b, c, d) := st in
  let iz := Z.of_nat i in
  let f := add32 (add32 (add32 (mix iz b c d) a) (nth i sines 0))
                 (nth (Z.to_nat (word_index iz)) m 0) in
  (d, add32 b (rotl32 f (nth i shifts 0)), b, c).

(** Four bytes, least significant first, as one word. *)
Definition word_of (bs : list Z) : Z :=
  nth 0 bs 0 + 256 * nth 1 bs 0 + 65536 * nth 2 bs 0 + 16777216 * nth 3 bs 0.

Fixpoint words_of (n : nat) (bs : list Z) : list Z :=
  match n with
  | O => []
  | S n' => word_of (firstn 4 bs) :: words_of n' (skipn 4 bs)
  end.

Definition compress (st : state) (chunk : list Z) : state :=
  let m := words_of 16 chunk in
  let '(a, b, c, d) := st in
  let '(a', b', c', d') := fold_left (step m) (seq 0 64) st in
  (add32 a a', add32 b b', add32 c c', add32 d d').

Fixpoint chunks (n : nat) (bs : list Z) (st : state) : state :=
  match n with
  | O => st
  | S n' => chunks n' (skipn 64 bs) (compress st (firstn 64 bs))
  end.

Definition le_bytes (n : nat) (x : Z) : list Z :=
  map (fun k => Z.shiftr x (8 * Z.of_nat k) mod 256) (seq 0 n).

Definition pad (bs : list Z) : list Z :=
  let len := Z.of_nat (List.length bs) in
  let zeros := Z.to_nat ((55 - len) mod 64) in
  bs ++ 128 :: repeat 0 zeros ++ le_bytes 8 ((8 * len) mod 2 ^ 64).

Definition init : state := (1732584193, 4023233417, 2562383102, 271733878).

Definition digest_Z (bs : list Z) : list Z :=
  let p := pad bs in
  let '(a, b, c, d) := chunks (List.length p / 64) p init in
  le_bytes 4 a ++ le_bytes 4 b ++ le_bytes 4 c ++ le_bytes 4 d.

Definition Z_of_byte (b : byte) : Z := Z.of_N (Byte.to_N b).
Definition byte_of_Z (z : Z) : byte :=
  match Byte.of_N (Z.to_N z) with Some b => b | None => x00 end.

(** [hashlib.md5(data).digest()]. *)
Definition digest (data : list byte) : list byte :=
  map byte_of_Z (digest_Z (map Z_of_byte data)).

End MD5.

Module Base64.

Definition alphabet : string :=
  "ABCDEFGHIJKLMNOPQRSTUVWXYZabcdefghijklmnopqrstuvwxyz0123456789-_".

Definition sym (n : Z) : ascii :=
  match String.get (Z.to_nat n) alphabet with
  | Some c => c
  | None => "="%char
  end.

Fixpoint encode_Z (bs : list Z) : string :=
  match bs with
  | [] => EmptyString
  | [a] =>
      String (sym (Z.shiftr a 2))
        (String (sym (Z.shiftl (Z.land a 3) 4)) "==")
  | [a; b] =>
      String (sym (Z.shiftr a 2))
        (String (sym (Z.lor (Z.shiftl (Z.land a 3) 4) (Z.shiftr b 4)))
           (String (sym (Z.shiftl (Z.land b 15) 2)) "="))
  | a :: b :: c :: r =>
      String (sym (Z.shiftr a 2))
        (String (sym (Z.lor (Z.shiftl (Z.land a 3) 4) (Z.shiftr b 4)))
           (String (sym (Z.lor (Z.shiftl (Z.land b 15) 2) (Z.shiftr c 6)))
              (String (sym (Z.land c 63)) (encode_Z r))))
  end.

(** [base64.urlsafe_b64encode(data).decode('ascii')]. *)
Definition urlsafe_b64encode (data : list byte) : string :=
  encode_Z (map MD5.Z_of_byte data).

End Base64.

(* ------------------------------------------------------------------ *)
(** ** Values of the imaging libraries *)

(** A parameter of an albumentations transform. *)
Inductive param : Type :=
| PNum (q : Q)
| PText (s : string)
| PFlag (b : bool).

(** One entry of [replay['transforms']]: the step's class, whether it was
    applied and the parameters it realized. *)
Record saved_transform : Type := mkSaved {
  class_fullname : string;            (* t['__class_fullname__'] *)
  applied : bool;
  params : list (string * param)
}.

(** The dict [transformed['replay']] of [A.ReplayCompose]. *)
Record replay : Type := mkReplay {
  replay_fields : list (string * param);   (* every key but 'transforms' *)
  transforms : list saved_transform
}.

Definition set_transforms (r : replay) (ts : list saved_transform) : replay :=
  mkReplay (replay_fields r) ts.

Inductive flip_method : Type := FLIP_LEFT_RIGHT | FLIP_TOP_BOTTOM.

(** PIL images and numpy arrays, as the terms that built them. *)
Inductive image : Type :=
| Opened (path : string) (w h : Z) (mode : string)
    (* exif_transpose(Image.open(path)) *)
| Convert (mode : string) (i : image)             (* img.convert(mode) *)
| Invert (i : image)                              (* ImageOps.invert *)
| Transpose (m : flip_method) (i : image)         (* img.transpose *)
| GaussianBlur (radius : Z) (i : image)           (* img.filter(...) *)
| Resize (w h : Z) (i : image)                    (* img.resize(.., BICUBIC) *)
| Crop (left top right bottom : Z) (i : image)    (* img.crop *)
| FromArray (a : ndarray)                         (* Image.fromarray *)
with ndarray : Type :=
| NpArray (i : image)                             (* np.array(img) *)
| AlphaToRgb (a : ndarray)        (* alpha copied into the 3 colour planes *)
| ReverseChannels (a : ndarray)                   (* a[:, :, ::-1].copy() *)
| CvtColorBGR2RGB (a : ndarray)                   (* cv2.cvtColor *)
| ReplayApply (r : replay) (a : ndarray)
    (* A.ReplayCompose.replay(r, image=a)["image"] *)
| Composed (label : N) (a : ndarray).
    (* the "image" entry of a ReplayCompose call; [label] names the run *)

Inductive tensor : Type :=
| ToTensor (i : image)                            (* transforms.ToTensor() *)
| Custom (name : string) (i : image)              (* a caller's Compose *)
| ValueMap (t : tensor) (in_lo in_hi out_lo out_hi : Q).   (* value_map *)

(** [img.size], as far as the modelled code reads it: the size of a
    replayed or composed array is never read, it is given as the input's. *)
Fixpoint size (i : image) : Z * Z :=
  match i with
  | Opened _ w h _ => (w, h)
  | Convert _ i' | Invert i' | Transpose _ i' | GaussianBlur _ i' => size i'
  | Resize w h _ => (w, h)
  | Crop l t r b _ => (r - l, b - t)
  | FromArray a => asize a
  end
with asize (a : ndarray) : Z * Z :=
  match a with
  | NpArray i => size i
  | AlphaToRgb a' | ReverseChannels a' | CvtColorBGR2RGB a'
  | ReplayApply _ a' | Composed _ a' => asize a'
  end.

(** [img.mode]; an image built from a 3-plane array is RGB. *)
Fixpoint mode (i : image) : string :=
  match i with
  | Opened _ _ _ m => m
  | Convert m _ => m
  | Invert i' | Transpose _ i' | GaussianBlur _ i' => mode i'
  | Resize _ _ i' | Crop _ _ _ _ i' => mode i'
  | FromArray _ => "RGB"
  end.

(** A [transforms.Compose] handed in by the caller, or [None]. *)
Definition transform : Type := option (image -> tensor).

(* ------------------------------------------------------------------ *)
(** ** Dataset configuration and the item record *)

(** One entry of [dataset_config.augmentations] ([Augments]), its
    [cv2.NAME] strings already resolved. *)
Record Augments : Type := mkAugments {
  method_name : string;
  aug_params : list (string * param)
}.

Record DatasetConfig : Type := mkConfig {
  resolution : Z;
  bucket_tolerance : Z;
  scale : Q;
  random_crop : bool;
  poi : option string;
  buckets_enabled : bool;                 (* dataset_config.buckets *)
  invert_mask : bool;
  shuffle_augmentations : bool;
  augmentations : list Augments
}.

Record FileItemDTO : Type := mkItem {
  path : string;
  width : Z;
  height : Z;
  dataset_config : DatasetConfig;
  scale_to_width : Z;
  scale_to_height : Z;
  crop_x : Z;
  crop_y : Z;
  crop_width : Z;
  crop_height : Z;
  flip_x : bool;
  flip_y : bool;
  has_point_of_interest : bool;
  poi_x : Z;
  poi_y : Z;
  poi_width : Z;
  poi_height : Z;
  latent_space_version : string;
  latent_version : Z;
  _latent_path : option string;
  aug_transform : option (list Augments);     (* the built ReplayCompose *)
  aug_replay_spatial_transforms : option replay;
  unaugmented_tensor : option tensor;
  mask_path : option string;
  use_alpha_as_mask : bool;
  mask_min_value : Q;
  mask_tensor : option tensor
}.

(** Field assignments. *)
Definition set_scale_to (w h : Z) (it : FileItemDTO) : FileItemDTO :=
  mkItem (path it) (width it) (height it) (dataset_config it) w h
    (crop_x it) (crop_y it) (crop_width it) (crop_height it)
    (flip_x it) (flip_y it) (has_point_of_interest it)
    (poi_x it) (poi_y it) (poi_width it) (poi_height it)
    (latent_space_version it) (latent_version it) (_latent_path it)
    (aug_transform it) (aug_replay_spatial_transforms it)
    (unaugmented_tensor it) (mask_path it) (use_alpha_as_mask it)
    (mask_min_value it) (mask_tensor it).

Definition set_crop_size (w h : Z) (it : FileItemDTO) : FileItemDTO :=
  mkItem (path it) (width it) (height it) (dataset_config it)
    (scale_to_width it) (scale_to_height it)
    (crop_x it) (crop_y it) w h
    (flip_x it) (flip_y it) (has_point_of_interest it)
    (poi_x it) (poi_y it) (poi_width it) (poi_height it)
    (latent_space_version it) (latent_version it) (_latent_path it)
    (aug_transform it) (aug_replay_spatial_transforms it)
    (unaugmented_tensor it) (mask_path it) (use_alpha_as_mask it)
    (mask_min_value it) (mask_tensor it).

Definition set_crop_xy (x y : Z) (it : FileItemDTO) : FileItemDTO :=
  mkItem (path it) (width it) (height it) (dataset_config it)
    (scale_to_width it) (scale_to_height it)
    x y (crop_width it) (crop_height it)
    (flip_x it) (flip_y it) (has_point_of_interest it)
    (poi_x it) (poi_y it) (poi_width it) (poi_height it)
    (latent_space_version it) (latent_version it) (_latent_path it)
    (aug_transform it) (aug_replay_spatial_transforms it)
    (unaugmented_tensor it) (mask_path it) (use_alpha_as_mask it)
    (mask_min_value it) (mask_tensor it).

Definition set_latent_path (p : option string) (it : FileItemDTO)
  : FileItemDTO :=
  mkItem (path it) (width it) (height it) (dataset_config it)
    (scale_to_width it) (scale_to_height it)
    (crop_x it) (crop_y it) (crop_width it) (crop_height it)
    (flip_x it) (flip_y it) (has_point_of_interest it)
    (poi_x it) (poi_y it) (poi_width it) (poi_height it)
    (latent_space_version it) (latent_version it) p
    (aug_transform it) (aug_replay_spatial_transforms it)
    (unaugmented_tensor it) (mask_path it) (use_alpha_as_mask it)
    (mask_min_value it) (mask_tensor it).

Definition set_aug_transform (a : option (list Augments)) (it : FileItemDTO)
  : FileItemDTO :=
  mkItem (path it) (width it) (height it) (dataset_config it)
    (scale_to_width it) (scale_to_height it)
    (crop_x it) (crop_y it) (crop_width it) (crop_height it)
    (flip_x it) (flip_y it) (has_point_of_interest it)
    (poi_x it) (poi_y it) (poi_width it) (poi_height it)
    (latent_space_version it) (latent_version it) (_latent_path it)
    a (aug_replay_spatial_transforms it)
    (unaugmented_tensor it) (mask_path it) (use_alpha_as_mask it)
    (mask_min_value it) (mask_tensor it).

Definition set_replay (r : option replay) (it : FileItemDTO) : FileItemDTO :=
  mkItem (path it) (width it) (height it) (dataset_config it)
    (scale_to_width it) (scale_to_height it)
    (crop_x it) (crop_y it) (crop_width it) (crop_height it)
    (flip_x it) (flip_y it) (has_point_of_interest it)
    (poi_x it) (poi_y it) (poi_width it) (poi_height it)
    (latent_space_version it) (latent_version it) (_latent_path it)
    (aug_transform it) r
    (unaugmented_tensor it) (mask_path it) (use_alpha_as_mask it)
    (mask_min_value it) (mask_tensor it).

Definition set_unaugmented_tensor (t : option tensor) (it : FileItemDTO)
  : FileItemDTO :=
  mkItem (path it) (width it) (height it) (dataset_config it)
    (scale_to_width it) (scale_to_height it)
    (crop_x it) (crop_y it) (crop_width it) (crop_height it)
    (flip_x it) (flip_y it) (has_point_of_interest it)
    (poi_x it) (poi_y it) (poi_width it) (poi_height it)
    (latent_space_version it) (latent_version it) (_latent_path it)
    (aug_transform it) (aug_replay_spatial_transforms it)
    t (mask_path it) (use_alpha_as_mask it)
    (mask_min_value it) (mask_tensor it).

Definition set_mask_tensor (t : option tensor) (it : FileItemDTO)
  : FileItemDTO :=
  mkItem (path it) (width it) (height it) (dataset_config it)
    (scale_to_width it) (scale_to_height it)
    (crop_x it) (crop_y it) (crop_width it) (crop_height it)
    (flip_x it) (flip_y it) (has_point_of_interest it)
    (poi_x it) (poi_y it) (poi_width it) (poi_height it)
    (latent_space_version it) (latent_version it) (_latent_path it)
    (aug_transform it) (aug_replay_spatial_transforms it)
    (unaugmented_tensor it) (mask_path it) (use_alpha_as_mask it)
    (mask_min_value it) t.

(** What a method of an item runs over: the item and the shared generator. *)
Record world : Type := mkWorld { item : FileItemDTO; rng : Rng }.

Definition update_item (f : FileItemDTO -> FileItemDTO) : M world unit :=
  modify (fun w => mkWorld (f (item w)) (rng w)).

Definition self : M world FileItemDTO := fun w => (Ok (item w), w).

Definition draw_randint (a b : Z) : M world Z :=
  fun w => let (r, g) := randint a b (rng w) in (r, mkWorld (item w) g).

Definition draw_random : M world Q :=
  fun w => let (q, g) := random (rng w) in (Ok q, mkWorld (item w) g).

(* ------------------------------------------------------------------ *)
(** ** Latent cache keys ([LatentCachingFileItemDTOMixin]) *)

Definition get_latent_info_dict (it : FileItemDTO) : Json.dict :=
  let d :=
    [ ("filename", Json.JStr (PyStr.basename (path it)));
      ("scale_to_width", Json.JInt (scale_to_width it));
      ("scale_to_height", Json.JInt (scale_to_height it));
      ("crop_x", Json.JInt (crop_x it));
      ("crop_y", Json.JInt (crop_y it));
      ("crop_width", Json.JInt (crop_width it));
      ("crop_height", Json.JInt (crop_height it));
      ("latent_space_version", Json.JStr (latent_space_version it));
      ("latent_version", Json.JInt (latent_version it)) ] in
  (* when adding items, do it after so we dont change old latents *)
  let d := if flip_x it then d ++ [("flip_x", Json.JBool true)] else d in
  let d := if flip_y it then d ++ [("flip_y", Json.JBool true)] else d in
  d.

(** [hash_input]: the bytes handed to md5. *)
Definition latent_hash_input (it : FileItemDTO) : list byte :=
  PyStr.encode_utf8 (Json.dumps_sorted (get_latent_info_dict it)).

(** [hash_str]: base64 of the md5 digest, padding removed. *)
Definition latent_hash_str (it : FileItemDTO) : string :=
  PyStr.remove_char "="%char
    (Base64.urlsafe_b64encode (MD5.digest (latent_hash_input it))).

(** The [else] branch of [get_latent_path]: the path worked out afresh. *)
Definition fresh_latent_path (it : FileItemDTO) : string :=
  let img_dir := PyStr.dirname (path it) in
  let latent_dir := PyStr.join img_dir "_latent_cache" in
  let filename_no_ext := fst (PyStr.splitext (PyStr.basename (path it))) in
  PyStr.join latent_dir
    (String.append filename_no_ext
       (String.append "_" (String.append (latent_hash_str it) ".safetensors"))).

Definition get_latent_path (recalculate : bool) : M world string :=
  it <- self ;;
  match _latent_path it with
  | Some p =>
      if negb recalculate then ret p
      else
        let p' := fresh_latent_path it in
        update_item (set_latent_path (Some p')) ;;;
        ret p'
  | None =>
      let p' := fresh_latent_path it in
      update_item (set_latent_path (Some p')) ;;;
      ret p'
  end.

(** The fields the cache key is made of. *)
Definition latent_key_tuple (it : FileItemDTO) :=
  (PyStr.basename (path it), scale_to_width it, scale_to_height it,
   crop_x it, crop_y it, crop_width it, crop_height it,
   latent_space_version it, latent_version it, flip_x it, flip_y it).

(* ------------------------------------------------------------------ *)
(** ** Buckets ([Bucket], [BucketsMixin], [PoiFileItemDTOMixin]) *)

(** The dict [{"width": .., "height": ..}] a bucket lookup returns. *)
Record bucket_resolution : Type := mkRes { res_width : Z; res_height : Z }.

Module Bucket.
Record t : Type := mk {
  width : Z;
  height : Z;
  file_list_idx : list nat
}.
Definition append (idx : nat) (b : t) : t :=
  mk (width b) (height b) (file_list_idx b ++ [idx]).
End Bucket.

(** [f'{w}x{h}']. *)
Definition bucket_key (w h : Z) : string :=
  String.append (Py.str w) (String "x"%char (Py.str h)).

(** [int(v * self.dataset_config.scale)]. *)
Definition scaled (v : Z) (it : FileItemDTO) : Z :=
  Py.int_of (inject_Z v * scale (dataset_config it)).

(** Lines 1001-1021 of [PoiFileItemDTOMixin.__init__]: the region read from
    the caption file (the whole image when it names none), mirrored when the
    item is flipped. *)
Definition init_poi_fields (width height : Z)
    (region : option (Z * Z * Z * Z)) (flip_x flip_y : bool)
  : Z * Z * Z * Z :=
  let '(x, y, w, h) :=
    match region with
    | Some r => r
    | None => (0, 0, width, height)
    end in
  let x := if flip_x then width - x - w else x in
  let y := if flip_y then height - y - h else y in
  (x, y, w, h).

(** The local variables [poi_x, poi_y, poi_width, poi_height] of the search. *)
Record box : Type := mkBox { bx : Z; by_ : Z; bw : Z; bh : Z }.

(** How the [while True] loop of [setup_poi_bucket] is left; [num_loops] is
    the counter of the source at that point. *)
Inductive search_result : Type :=
| Found (b : box) (num_loops : Z)       (* break *)
| GaveUp (num_loops : Z).               (* return False *)

(** The dataset, as far as bucketing reads and writes it.  [buckets] is a
    Python dict: keys in insertion order, each key once. *)
Record AiToolkitDataset : Type := mkDataset {
  file_list : list FileItemDTO;
  ds_config : DatasetConfig;             (* self.dataset_config *)
  epoch_num : Z;
  batch_size : Z;
  buckets : list (string * Bucket.t);
  batch_indices : list (list nat)
}.

Definition set_file_list (l : list FileItemDTO) (d : AiToolkitDataset) :=
  mkDataset l (ds_config d) (epoch_num d) (batch_size d) (buckets d)
    (batch_indices d).
Definition set_buckets (b : list (string * Bucket.t)) (d : AiToolkitDataset) :=
  mkDataset (file_list d) (ds_config d) (epoch_num d) (batch_size d) b
    (batch_indices d).
Definition set_batch_indices (bi : list (list nat)) (d : AiToolkitDataset) :=
  mkDataset (file_list d) (ds_config d) (epoch_num d) (batch_size d)
    (buckets d) bi.

Record ds_world : Type := mkDsWorld { ds : AiToolkitDataset; ds_rng : Rng }.

Definition update_ds (f : AiToolkitDataset -> AiToolkitDataset)
  : M ds_world unit :=
  modify (fun s => mkDsWorld (f (ds s)) (ds_rng s)).

(** [d[key]] and [key in d]. *)
Fixpoint dict_get (key : string) (d : list (string * Bucket.t))
  : option Bucket.t :=
  match d with
  | [] => None
  | (k, b) :: r => if String.eqb k key then Some b else dict_get key r
  end.

(** [d[key].file_list_idx.append(idx)]. *)
Fixpoint dict_append (key : string) (idx : nat) (d : list (string * Bucket.t))
  : list (string * Bucket.t) :=
  match d with
  | [] => []
  | (k, b) :: r => if String.eqb k key then (k, Bucket.append idx b) :: r
                   else (k, b) :: dict_append key idx r
  end.

(** Lines 237-241: create the bucket on first use, then record the index. *)
Definition add_to_bucket (w h : Z) (idx : nat) (d : list (string * Bucket.t))
  : list (string * Bucket.t) :=
  let bucket_key := bucket_key w h in
  let d := match dict_get bucket_key d with
           | None => d ++ [(bucket_key, Bucket.mk w h [])]
           | Some _ => d
           end in
  dict_append bucket_key idx d.

(** Run a method of [file_list[idx]]; the item is mutated in place. *)
Definition with_item {A} (idx : nat) (m : M world A) : M ds_world A :=
  fun s =>
    match nth_error (file_list (ds s)) idx with
    | None => (Raise IndexError, s)
    | Some it =>
        let (r, w') := m (mkWorld it (ds_rng s)) in
        (r, mkDsWorld
              (set_file_list (list_set idx (item w') (file_list (ds s))) (ds s))
              (rng w'))
    end.

Fixpoint for_each {S} (idxs : list nat) (body : nat -> M S unit) : M S unit :=
  match idxs with
  | [] => ret tt
  | i :: r => body i ;;; for_each r body
  end.

(** [shuffle_buckets]. *)
Fixpoint shuffle_all (d : list (string * Bucket.t)) (g : Rng)
  : list (string * Bucket.t) * Rng :=
  match d with
  | [] => ([], g)
  | (k, b) :: r =>
      let (l', g') := shuffle (Bucket.file_list_idx b) g in
      let (r', g'') := shuffle_all r g' in
      ((k, Bucket.mk (Bucket.width b) (Bucket.height b) l') :: r', g'')
  end.

Definition shuffle_buckets : M ds_world unit :=
  fun s =>
    let (d, g) := shuffle_all (buckets (ds s)) (ds_rng s) in
    (Ok tt, mkDsWorld (set_buckets d (ds s)) g).

(** The slices [l[start:start+n]] for [start] in [range(0, len(l), n)]. *)
Fixpoint slices (fuel n : nat) (l : list nat) : list (list nat) :=
  match fuel, l with
  | S fuel', _ :: _ => firstn n l :: slices fuel' n (skipn n l)
  | _, _ => []
  end.

Fixpoint batches_of (size : Z) (d : list (string * Bucket.t))
  : res (list (list nat)) :=
  match d with
  | [] => Ok []
  | (_, b) :: r =>
      if size =? 0 then Raise (ValueError "range() arg 3 must not be zero")
      else
        let here := if size <? 0 then []
                    else slices (List.length (Bucket.file_list_idx b))
                           (Z.to_nat size) (Bucket.file_list_idx b) in
        match batches_of size r with
        | Ok rest => Ok (here ++ rest)
        | Raise e => Raise e
        end
  end.

Definition build_batch_indices : M ds_world unit :=
  update_ds (set_batch_indices []) ;;;
  s <- get ;;
  bi <- lift_res (batches_of (batch_size (ds s)) (buckets (ds s))) ;;
  update_ds (set_batch_indices bi).

Section Bucketing.

(** [toolkit.buckets] is outside the modelled sources: its two functions
    are parameters, free to return or to raise. *)
Variable get_resolution : Z -> Z -> res Z.
Variable get_bucket_for_image_size :
  Z -> Z -> Z -> Z -> res bucket_resolution.
    (* width, height, resolution, divisibility *)

(** One pass of the loop body, up to the call of [get_resolution]. *)
Definition poi_attempt (initial_width initial_height : Z) (b : box)
  : M world box :=
  (* crop left *)
  poi_x <- (if 0 <? bx b then draw_randint 0 (bx b) else ret 0) ;;
  (* crop right *)
  let cr_min := poi_x + bw b in
  crop_right <- (if cr_min <? initial_width
                 then draw_randint (poi_x + bw b) initial_width
                 else ret initial_width) ;;
  let poi_width := crop_right - poi_x in
  poi_y <- (if 0 <? by_ b then draw_randint 0 (by_ b) else ret 0) ;;
  crop_bottom <- (if poi_y + bh b <? initial_height
                  then draw_randint (poi_y + bh b) initial_height
                  else ret initial_height) ;;
  let poi_height := crop_bottom - poi_y in
  ret (mkBox poi_x poi_y poi_width poi_height).

(** The [while True] loop; [None] when [fuel] passes are not enough. *)
Fixpoint poi_search (fuel : nat) (target initial_width initial_height : Z)
    (b : box) (num_loops : Z) : M world (option search_result) :=
  match fuel with
  | O => ret None
  | S fuel' =>
      b' <- poi_attempt initial_width initial_height b ;;
      current_resolution <- lift_res (get_resolution (bw b') (bh b')) ;;
      if target <=? current_resolution then ret (Some (Found b' num_loops))
      else
        let num_loops := num_loops + 1 in
        if 100 <? num_loops then ret (Some (GaveUp num_loops))
        else poi_search fuel' target initial_width initial_height b' num_loops
  end.

(** How far [setup_poi_bucket] unrolls the loop: the counter of the source
    stops it within that many passes (see [poi_search_finishes]). *)
Definition search_fuel : nat := 101.

(** Lines 1086-1111: the geometry derived from the window the search kept. *)
Definition poi_apply_window (initial_width initial_height : Z) (b : box)
  : M world bool :=
  it <- self ;;
  let new_width := bw b in
  let new_height := bh b in
  bucket_resolution <-
    lift_res (get_bucket_for_image_size new_width new_height
                (resolution (dataset_config it))
                (bucket_tolerance (dataset_config it))) ;;
  if new_width =? 0 then raise ZeroDivisionError else
  let width_scale_factor := Py.truediv (res_width bucket_resolution) new_width in
  if new_height =? 0 then raise ZeroDivisionError else
  let height_scale_factor :=
    Py.truediv (res_height bucket_resolution) new_height in
  let max_scale_factor := Py.max width_scale_factor height_scale_factor in
  update_item (set_scale_to
    (Py.ceil (inject_Z initial_width * max_scale_factor))
    (Py.ceil (inject_Z initial_height * max_scale_factor))) ;;;
  update_item (set_crop_size (res_width bucket_resolution)
                             (res_height bucket_resolution)) ;;;
  update_item (set_crop_xy
    (Py.int_of (inject_Z (bx b) * max_scale_factor))
    (Py.int_of (inject_Z (by_ b) * max_scale_factor))) ;;;
  ret true.

Definition setup_poi_bucket : M world bool :=
  it <- self ;;
  let initial_width := scaled (width it) it in
  let initial_height := scaled (height it) it in
  img_resolution <- lift_res (get_resolution initial_width initial_height) ;;
  if img_resolution <=? resolution (dataset_config it) then ret false
  else
    let b := mkBox (scaled (poi_x it) it) (scaled (poi_y it) it)
                   (scaled (poi_width it) it) (scaled (poi_height it) it) in
    r <- poi_search search_fuel (resolution (dataset_config it))
           initial_width initial_height b 0 ;;
    match r with
    | None => raise (Exception "search did not finish")
    | Some (GaveUp _) => ret false
    | Some (Found b' _) => poi_apply_window initial_width initial_height b'
    end.

(** Lines 200-235 of [setup_buckets]: the standard path for one item.
    [config] is the configuration of the dataset. *)
Definition standard_bucket (config : DatasetConfig) (width height : Z)
  : M world unit :=
  bucket_resolution <-
    lift_res (get_bucket_for_image_size width height
                (resolution config) (bucket_tolerance config)) ;;
  if width =? 0 then raise ZeroDivisionError else
  let width_scale_factor := Py.truediv (res_width bucket_resolution) width in
  if height =? 0 then raise ZeroDivisionError else
  let height_scale_factor := Py.truediv (res_height bucket_resolution) height in
  let max_scale_factor := Py.max width_scale_factor height_scale_factor in
  let scale_to_width := Py.ceil (inject_Z width * max_scale_factor) in
  let scale_to_height := Py.ceil (inject_Z height * max_scale_factor) in
  update_item (set_scale_to scale_to_width scale_to_height) ;;;
  update_item (set_crop_size (res_width bucket_resolution)
                             (res_height bucket_resolution)) ;;;
  let new_width := res_width bucket_resolution in
  let new_height := res_height bucket_resolution in
  if random_crop config then
    crop_x <- draw_randint 0 (scale_to_width - new_width) ;;
    crop_y <- draw_randint 0 (scale_to_height - new_height) ;;
    update_item (set_crop_xy crop_x crop_y)
  else
    update_item (set_crop_xy
      (Py.int_of (Py.truediv (scale_to_width - new_width) 2))
      (Py.int_of (Py.truediv (scale_to_height - new_height) 2))).

(** Lines 191-235: the geometry of one item. *)
Definition bucket_item (config : DatasetConfig) : M world unit :=
  it <- self ;;
  let width := scaled (width it) it in
  let height := scaled (height it) it in
  did_process_poi <-
    (if has_point_of_interest it then setup_poi_bucket else ret false) ;;
  if negb did_process_poi then standard_bucket config width height
  else ret tt.

(** Lines 190-241: one turn of the loop over [enumerate(file_list)]. *)
Definition setup_item (idx : nat) : M ds_world unit :=
  s <- get ;;
  with_item idx (bucket_item (ds_config (ds s))) ;;;
  s <- get ;;
  match nth_error (file_list (ds s)) idx with
  | None => raise IndexError
  | Some file_item =>
      (* check if bucket exists, if not, create it *)
      update_ds (fun d =>
        set_buckets (add_to_bucket (crop_width file_item)
                       (crop_height file_item) idx (buckets d)) d)
  end.

Definition setup_buckets : M ds_world unit :=
  s <- get ;;
  if (0 <? epoch_num (ds s))
     && match poi (ds_config (ds s)) with None => true | Some _ => false end
  then ret tt      (* no need to rebuild buckets for now *)
  else
    update_ds (set_buckets []) ;;;
    for_each (seq 0 (List.length (file_list (ds s)))) setup_item ;;;
    shuffle_buckets ;;;
    build_batch_indices.

End Bucketing.

(* ------------------------------------------------------------------ *)
(** ** Augmentation and replay ([AugmentationFileItemDTOMixin]) *)

Definition spatial_transforms : list string :=
  ["Rotate"; "Flip"; "HorizontalFlip"; "VerticalFlip"; "Resize"; "Crop";
   "RandomCrop"; "ElasticTransform"; "GridDistortion"; "OpticalDistortion"].

Definition in_list (s : string) (l : list string) : bool :=
  existsb (String.eqb s) l.

(** [t['__class_fullname__'].split('.')[-1] in spatial_transforms]. *)
Definition is_spatial (t : saved_transform) : bool :=
  in_list (PyStr.last_component PyStr.dot (class_fullname t))
          spatial_transforms.

(** [transforms.ToTensor()(img) if transform is None else transform(img)]. *)
Definition to_tensor_or (tr : transform) (img : image) : tensor :=
  match tr with
  | None => ToTensor img
  | Some f => f img
  end.

Definition shuffle_list {A} (l : list A) : M world (list A) :=
  fun w => let (l', g) := shuffle l (rng w) in (Ok l', mkWorld (item w) g).

Section Augmentation.

(** albumentations is outside the modelled sources.  [has_method] tells
    which names the module [A] defines; [compose_call p img] is a call of
    the pipeline [A.ReplayCompose(p)]: it draws from the shared generator
    and returns the "image" and the "replay" entries of its result. *)
Variable has_method : string -> bool.
Variable compose_call :
  list Augments -> ndarray -> Rng -> (ndarray * replay) * Rng.

Fixpoint check_methods (augs : list Augments) : res unit :=
  match augs with
  | [] => Ok tt
  | a :: r =>
      if has_method (method_name a) then check_methods r
      else Raise (AssertionError "invalid augmentation method")
  end.

Definition build_augmentation_transform : M world unit :=
  it <- self ;;
  match augmentations (dataset_config it) with
  | [] => ret tt
  | augs =>
      augs <- (if shuffle_augmentations (dataset_config it)
               then shuffle_list augs else ret augs) ;;
      lift_res (check_methods augs) ;;;
      update_item (set_aug_transform (Some augs))
  end.

Definition augment_image (img : image) (tr : transform) : M world tensor :=
  it <- self ;;
  (* rebuild each time if shuffle *)
  (if shuffle_augmentations (dataset_config it)
   then build_augmentation_transform else ret tt) ;;;
  (* save the original tensor *)
  update_item (set_unaugmented_tensor (Some (to_tensor_or tr img))) ;;;
  let open_cv_image := ReverseChannels (NpArray img) in
  it <- self ;;
  match aug_transform it with
  | None => raise (TypeError "'NoneType' object is not callable")
  | Some pipeline =>
      transformed <-
        (fun w => let (r, g) := compose_call pipeline open_cv_image (rng w) in
                  (Ok r, mkWorld (item w) g)) ;;
      let augmented := fst transformed in
      (* save just the spatial transforms for controls and masks *)
      let augmented_params := snd transformed in
      let augmented_params :=
        set_transforms augmented_params
          (filter is_spatial (transforms augmented_params)) in
      update_item (set_replay (Some augmented_params)) ;;;
      let augmented := FromArray (CvtColorBGR2RGB augmented) in
      ret (to_tensor_or tr augmented)
  end.

End Augmentation.

(** [augment_spatial_control]: replay onto a companion image. *)
Definition augment_spatial_control (img : image) (tr : transform)
  : M world tensor :=
  it <- self ;;
  match aug_replay_spatial_transforms it with
  | None =>
      (* no transforms *)
      match tr with
      | Some f => ret (f img)
      | None => raise (TypeError "'NoneType' object is not callable")
      end
  | Some record =>
      (* save colorspace to convert back to *)
      let colorspace := mode img in
      let img := Convert "RGB" img in
      let open_cv_image := ReverseChannels (NpArray img) in
      (* Replay transforms *)
      let augmented := ReplayApply record open_cv_image in
      let augmented := FromArray (CvtColorBGR2RGB augmented) in
      (* convert back to original colorspace *)
      let augmented := Convert colorspace augmented in
      ret (to_tensor_or tr augmented)
  end.

(* ------------------------------------------------------------------ *)
(** ** Mask companions ([MaskFileItemDTOMixin.load_mask_image]) *)

(** What [Image.open] finds at a path: size and mode of the image after
    [exif_transpose], or nothing readable. *)
Definition files : Type := string -> option (Z * Z * string).

(** Lines 836-840: swap all the sizes. *)
Definition swap_geometry (it : FileItemDTO) : FileItemDTO :=
  set_crop_xy (crop_y it) (crop_x it)
    (set_crop_size (crop_height it) (crop_width it)
       (set_scale_to (scale_to_height it) (scale_to_width it) it)).

(** The test of lines 827-834. *)
Definition orientation_mismatch (w h : Z) (it : FileItemDTO) : bool :=
  ((h <? w) && (scale_to_width it <? scale_to_height it))
  || ((w <? h) && (scale_to_height it <? scale_to_width it)).

Definition load_mask_image (fs : files) : M world unit :=
  it <- self ;;
  img <- match mask_path it with
         | Some p =>
             match fs p with
             | Some (w, h, m) => ret (Opened p w h m)
             | None => raise (NameError "img")   (* the failure is printed *)
             end
         | None => raise (NameError "img")
         end ;;
  let img := if use_alpha_as_mask it
             then FromArray (AlphaToRgb (NpArray img)) else img in
  let img := Convert "RGB" img in
  let img := if invert_mask (dataset_config it) then Invert img else img in
  let '(w, h) := size img in
  (if orientation_mismatch w h it then update_item swap_geometry
   else ret tt) ;;;
  let img := if flip_x it then Transpose FLIP_LEFT_RIGHT img else img in
  let img := if flip_y it then Transpose FLIP_TOP_BOTTOM img else img in
  (* randomly apply a blur up to 0.5% of the size of the min (width, height) *)
  let min_size := Py.min (fst (size img)) (snd (size img)) in
  r <- draw_random ;;
  let blur_radius := Py.int_of (inject_Z min_size * r * (5 # 1000)) in
  let img := GaussianBlur blur_radius img in
  (* make grayscale *)
  let img := Convert "L" img in
  it <- self ;;
  if negb (buckets_enabled (dataset_config it))
  then raise (Exception "Mask images not supported for non-bucket datasets")
  else
    (* scale and crop based on file item *)
    let img := Resize (scale_to_width it) (scale_to_height it) img in
    let img := Crop (crop_x it) (crop_y it)
                    (crop_x it + crop_width it)
                    (crop_y it + crop_height it) img in
    let tr : transform := Some ToTensor in
    t <- match aug_replay_spatial_transforms it with
         | Some _ => augment_spatial_control img tr
         | None => ret (to_tensor_or tr img)
         end ;;
    update_item (set_mask_tensor
                   (Some (ValueMap t 0 1 (mask_min_value it) 1))).

(** Order of operations inside a value: does a conversion to the mode [m]
    occur among the calls that built the image / array? *)
Fixpoint converts_to (m : string) (i : image) : bool :=
  match i with
  | Opened _ _ _ _ => false
  | Convert m' i' => String.eqb m' m || converts_to m i'
  | Invert i' | Transpose _ i' | GaussianBlur _ i' => converts_to m i'
  | Resize _ _ i' | Crop _ _ _ _ i' => converts_to m i'
  | FromArray a => aconverts_to m a
  end
with aconverts_to (m : string) (a : ndarray) : bool :=
  match a with
  | NpArray i => converts_to m i
  | AlphaToRgb a' | ReverseChannels a' | CvtColorBGR2RGB a'
  | ReplayApply _ a' | Composed _ a' => aconverts_to m a'
  end.

(** Is some replay applied to an input that was already converted to [m]. *)
Fixpoint converted_before_replay (m : string) (i : image) : bool :=
  match i with
  | Opened _ _ _ _ => false
  | Convert _ i' | Invert i' | Transpose _ i' | GaussianBlur _ i' =>
      converted_before_replay m i'
  | Resize _ _ i' | Crop _ _ _ _ i' => converted_before_replay m i'
  | FromArray a => aconverted_before_replay m a
  end
with aconverted_before_replay (m : string) (a : ndarray) : bool :=
  match a with
  | NpArray i => converted_before_replay m i
  | AlphaToRgb a' | ReverseChannels a' | CvtColorBGR2RGB a'
  | Composed _ a' => aconverted_before_replay m a'
  | ReplayApply _ a' => aconverts_to m a' || aconverted_before_replay m a'
  end.

(** Is a conversion to [m] applied to the output of some replay. *)
Fixpoint has_replay (i : image) : bool :=
  match i with
  | Opened _ _ _ _ => false
  | Convert _ i' | Invert i' | Transpose _ i' | GaussianBlur _ i' =>
      has_replay i'
  | Resize _ _ i' | Crop _ _ _ _ i' => has_replay i'
  | FromArray a => ahas_replay a
  end
with ahas_replay (a : ndarray) : bool :=
  match a with
  | NpArray i => has_replay i
  | AlphaToRgb a' | ReverseChannels a' | CvtColorBGR2RGB a'
  | Composed _ a' => ahas_replay a'
  | ReplayApply _ _ => true
  end.

Fixpoint converted_after_replay (m : string) (i : image) : bool :=
  match i with
  | Opened _ _ _ _ => false
  | Convert m' i' =>
      (String.eqb m' m && has_replay i') || converted_after_replay m i'
  | Invert i' | Transpose _ i' | GaussianBlur _ i' =>
      converted_after_replay m i'
  | Resize _ _ i' | Crop _ _ _ _ i' => converted_after_replay m i'
  | FromArray a => aconverted_after_replay m a
  end
with aconverted_after_replay (m : string) (a : ndarray) : bool :=
  match a with
  | NpArray i => converted_after_replay m i
  | AlphaToRgb a' | ReverseChannels a' | CvtColorBGR2RGB a'
  | ReplayApply _ a' | Composed _ a' => aconverted_after_replay m a'
  end.

(** The image a tensor was made from. *)
Fixpoint tensor_source (t : tensor) : option image :=
  match t with
  | ToTensor i => Some i
  | Custom _ i => Some i
  | ValueMap t' _ _ _ _ => tensor_source t'
  end.

(** The crop rectangle of [it'] holds the region [roi] of an image of
    [iw] x [ih] pixels, once that image is resized to
    [scale_to_width] x [scale_to_height]: the region, scaled by
    [scale_to / i] on each axis, lies between the edges of the crop
    (compared after clearing the denominators). *)
Definition crop_holds_region (iw ih : Z) (roi : box) (it' : FileItemDTO)
  : Prop :=
  crop_x it' * iw <= bx roi * scale_to_width it'
  /\ (bx roi + bw roi) * scale_to_width it'
     <= (crop_x it' + crop_width it') * iw
  /\ crop_y it' * ih <= by_ roi * scale_to_height it'
  /\ (by_ roi + bh roi) * scale_to_height it'
     <= (crop_y it' + crop_height it') * ih.

(* ------------------------------------------------------------------ *)
(** ** Predicates the properties are stated with *)

(** [bytes.hex()]. *)
Definition hex_of_bytes (bs : list byte) : string :=
  String.concat "" (map (fun b =>
     let n := Byte.to_N b in
     String (Json.hex_digit (N.shiftr n 4))
       (String (Json.hex_digit (N.land n 15)) EmptyString)) bs).

(** The order of two items of a dict by key. *)
Definition key_le (a b : string * Json.value) : Prop :=
  String.leb (fst a) (fst b) = true.

(** The six geometry fields of an item. *)
Definition geometry (it : FileItemDTO) : Z * Z * Z * Z * Z * Z :=
  (scale_to_width it, scale_to_height it, crop_x it, crop_y it,
   crop_width it, crop_height it).

(** [l1] is [l2] with some elements left out, the others in their order. *)
Inductive subseq {A : Type} : list A -> list A -> Prop :=
| subseq_nil : subseq [] []
| subseq_skip (x : A) (l1 l2 : list A) : subseq l1 l2 -> subseq l1 (x :: l2)
| subseq_keep (x : A) (l1 l2 : list A) :
    subseq l1 l2 -> subseq (x :: l1) (x :: l2).

(** The class name of a step: the last dotted component of its full name. *)
Definition class_name (t : saved_transform) : string :=
  PyStr.last_component PyStr.dot (class_fullname t).

(** The region has a positive size and starts inside the image. *)
Definition box_ok (iw ih : Z) (b : box) : Prop :=
  bx b < iw /\ 0 < bw b /\ by_ b < ih /\ 0 < bh b.

(** The window lies inside the image and is not empty. *)
Definition window_ok (iw ih : Z) (b : box) : Prop :=
  0 <= bx b /\ 0 < bw b /\ bx b + bw b <= iw
  /\ 0 <= by_ b /\ 0 < bh b /\ by_ b + bh b <= ih.

(** The string holds no separator of a bucket key. *)
Definition no_x (s : string) : bool :=
  PyStr.all_chars (fun c => negb (Ascii.eqb c "x"%char)) s.

(** Every bucket is filed under the key of its size and lists items of
    that crop size only. *)
Definition bucket_inv (fl : list FileItemDTO) (d : list (string * Bucket.t))
  : Prop :=
  forall (key : string) (b : Bucket.t),
    In (key, b) d ->
    key = bucket_key (Bucket.width b) (Bucket.height b)
    /\ forall i : nat,
         In i (Bucket.file_list_idx b) ->
         exists it : FileItemDTO,
           nth_error fl i = Some it
           /\ crop_width it = Bucket.width b
           /\ crop_height it = Bucket.height b.

(** The guard of lines 178-181 lets the call rebuild the buckets. *)
Definition rebuilds (d : AiToolkitDataset) : Prop :=
  epoch_num d <= 0 \/ poi (ds_config d) <> None.

(** The geometry of an item is well-defined for positive scaled
    dimensions and, for an item with a point of interest, a region of
    positive size that starts inside the scaled image. *)
Definition measurable (it : FileItemDTO) : Prop :=
  0 < scaled (width it) it
  /\ 0 < scaled (height it) it
  /\ (has_point_of_interest it = true ->
      box_ok (scaled (width it) it) (scaled (height it) it)
        (mkBox (scaled (poi_x it) it) (scaled (poi_y it) it)
               (scaled (poi_width it) it) (scaled (poi_height it) it))).

(** All the indices a dict of buckets lists, bucket after bucket. *)
Definition all_indices (d : list (string * Bucket.t)) : list nat :=
  List.concat (map (fun kb => Bucket.file_list_idx (snd kb)) d).

(** Before the turn of index [k], the buckets list the indices below [k],
    each once, under keys that differ. *)
Definition placed (size : Z) (k : nat) (s : ds_world) : Prop :=
  batch_size (ds s) = size
  /\ NoDup (map fst (buckets (ds s)))
  /\ Permutation (all_indices (buckets (ds s))) (seq 0 k).

Section TurnOfTheLoop.

Variable get_resolution : Z -> Z -> res Z.
Variable get_bucket_for_image_size :
  Z -> Z -> Z -> Z -> res bucket_resolution.

(** What [setup_poi_bucket] told [setup_buckets], and the world it left:
    an item without a point of interest is not handed to it. *)
Definition poi_outcome (w0 : world) : res bool * world :=
  if has_point_of_interest (item w0)
  then setup_poi_bucket get_resolution get_bucket_for_image_size w0
  else (Ok false, w0).

(** [it'] is [it0] after its turn of the loop. *)
Definition bucketed (config : DatasetConfig) (it0 it' : FileItemDTO) : Prop :=
  exists (g : Rng) (w' : world),
    bucket_item get_resolution get_bucket_for_image_size config
      (mkWorld it0 g) = (Ok tt, w')
    /\ it' = item w'.

(** The state of the loop before the turn of index [k]. *)
Definition loop_inv (config : DatasetConfig) (fl0 : list FileItemDTO)
    (k : nat) (s : ds_world) : Prop :=
  ds_config (ds s) = config
  /\ List.length (file_list (ds s)) = List.length fl0
  /\ (forall i : nat,
        (k <= i)%nat -> nth_error (file_list (ds s)) i = nth_error fl0 i)
  /\ (forall i : nat,
        (i < k)%nat ->
        exists it0 it' : FileItemDTO,
          nth_error fl0 i = Some it0
          /\ nth_error (file_list (ds s)) i = Some it'
          /\ bucketed config it0 it')
  /\ bucket_inv (file_list (ds s)) (buckets (ds s))
  /\ (forall (key : string) (b : Bucket.t) (i : nat),
        In (key, b) (buckets (ds s)) ->
        In i (Bucket.file_list_idx b) -> (i < k)%nat).

End TurnOfTheLoop.

(* ------------------------------------------------------------------ *)
(** ** Sample values, used to run the definitions *)

Module Sample.

Definition config : DatasetConfig :=
  mkConfig 512 64 1 false None true false false [].

Definition zero_rng : Rng := mkRng (fun _ => 0%N) 0.

(** "cat.png", scaled to 520x520, cropped to 512x512 at (4, 4). *)
Definition cat_at (p : string) : FileItemDTO :=
  mkItem p 1040 1040 config 520 520 4 4 512 512 false false
    false 0 0 0 0 "sd1" 1 None None None None None false 0 None.

Definition cat : FileItemDTO := cat_at "/data/a/cat.png".

End Sample.

Module SampleMask.

(** A replay record holding one horizontal flip. *)
Definition flip_record : replay :=
  mkReplay [] [mkSaved "albumentations.HorizontalFlip" true []].

(** A landscape item (640x512 after scaling) with a mask companion and a
    captured replay record. *)
Definition masked : FileItemDTO :=
  mkItem "/data/a/cat.png" 1000 800 Sample.config 640 512 0 0 640 512
    false false false 0 0 0 0 "sd1" 1 None None (Some flip_record) None
    (Some "/data/m/cat.png") false 0 None.

(** The mask file, in the orientation of the item and in the other one. *)
Definition landscape_mask : files :=
  fun p => if String.eqb p "/data/m/cat.png"
           then Some (1000, 800, "RGB") else None.
Definition portrait_mask : files :=
  fun p => if String.eqb p "/data/m/cat.png"
           then Some (800, 1000, "RGB") else None.

End SampleMask.

Module SampleAug.

(** A stand-in for albumentations: every method name is known, every step
    of the pipeline is applied and consumes one draw, and the replay lists
    the steps under their full class names. *)
Definition has_method (name : string) : bool := true.

Definition saved_of (a : Augments) : saved_transform :=
  mkSaved (String.append "albumentations." (method_name a)) true (aug_params a).

Definition compose_call (p : list Augments) (img : ndarray) (g : Rng)
  : (ndarray * replay) * Rng :=
  ((Composed (draws g (cursor g)) img, mkReplay [] (map saved_of p)),
   mkRng (draws g) (cursor g + List.length p)).

Definition pipeline : list Augments :=
  [mkAugments "ColorJitter" []; mkAugments "HorizontalFlip" [];
   mkAugments "RandomBrightnessContrast" []; mkAugments "Rotate" []].

Definition config : DatasetConfig :=
  mkConfig 512 64 1 false None true false false pipeline.

Definition augmented : FileItemDTO :=
  mkItem "/data/a/cat.png" 1000 800 config 640 512 0 0 640 512
    false false false 0 0 0 0 "sd1" 1 None (Some pipeline) None None
    None false 0 None.

Definition picture : image := Opened "/data/a/cat.png" 1000 800 "RGB".

End SampleAug.

Module SampleBuckets.

(** Stand-ins for [toolkit.buckets]: the side of the square of the same
    area, and a bucket one step of the divisibility wider than high for a
    landscape image, higher than wide for a portrait one, square otherwise,
    around the target resolution rounded down to the divisibility. *)
Definition get_resolution (w h : Z) : res Z :=
  if w * h <? 0 then Raise (TypeError "int() argument must be a real number")
  else Ok (Z.sqrt (w * h)).

Definition get_bucket_for_image_size (w h resolution divisibility : Z)
  : res bucket_resolution :=
  if divisibility =? 0 then Raise ZeroDivisionError
  else let side := Z.abs (resolution - resolution mod divisibility) in
       let step := Z.abs divisibility in
       if h <? w then Ok (mkRes (side + step) (Z.abs (side - step)))
       else if w <? h then Ok (mkRes (Z.abs (side - step)) (side + step))
       else Ok (mkRes side side).

(** A resolution that is never enough. *)
Definition no_resolution (w h : Z) : res Z := Ok 0.

(** A 1000x1000 item whose region of interest is the right fifth of the
    image, 200 wide and 1000 high at (800, 0). *)
Definition poi_config : DatasetConfig :=
  mkConfig 512 64 1 false (Some "face") true false false [].

Definition with_poi : FileItemDTO :=
  let '(x, y, w, h) :=
    init_poi_fields 1000 1000 (Some (800, 0, 200, 1000)) false false in
  mkItem "/data/a/cat.png" 1000 1000 poi_config 0 0 0 0 0 0 false false
    true x y w h "sd1" 1 None None None None None false 0 None.

(** The generator whose first two draws are 0 and 400. *)
Definition rng_0_400 : Rng :=
  mkRng (fun n => match n with 1%nat => 400%N | _ => 0%N end) 0.

(** A 1600x1200 item without a region of interest. *)
Definition plain : FileItemDTO :=
  mkItem "/data/a/dog.png" 1600 1200 Sample.config 0 0 0 0 0 0 false false
    false 0 0 0 0 "sd1" 1 None None None None None false 0 None.

(** A 1200x1600 item without a region of interest. *)
Definition tall : FileItemDTO :=
  mkItem "/data/a/owl.png" 1200 1600 Sample.config 0 0 0 0 0 0 false false
    false 0 0 0 0 "sd1" 1 None None None None None false 0 None.

(** A dataset of three items at its first epoch, batches of two. *)
Definition dataset : ds_world :=
  mkDsWorld (mkDataset [plain; tall; plain] Sample.config 0 2 [] [])
            Sample.zero_rng.

End SampleBuckets.

(* ------------------------------------------------------------------ *)
(** ** Captions ([clean_caption], [CaptionProcessingDTOMixin.get_caption]) *)

Module PyText.

(** [c.isspace()] for a code point below 256. *)
Definition is_space (c : ascii) : bool :=
  let n := N_of_ascii c in
  (((9 <=? n) && (n <=? 13)) || ((28 <=? n) && (n <=? 32))
   || (n =? 133) || (n =? 160))%N.

Fixpoint lstrip (s : string) : string :=
  match s with
  | String a r => if is_space a then lstrip r else s
  | EmptyString => EmptyString
  end.

Fixpoint rstrip (s : string) : string :=
  match s with
  | EmptyString => EmptyString
  | String a r =>
      let r' := rstrip r in
      if PyStr.is_empty r' && is_space a then EmptyString else String a r'
  end.

(** [s.strip()]. *)
Definition strip (s : string) : string := rstrip (lstrip s).

(** [s.split(c)]: the pieces between the occurrences of [c]. *)
Fixpoint split (c : ascii) (s : string) : list string :=
  match s with
  | EmptyString => [EmptyString]
  | String a r =>
      if Ascii.eqb a c then EmptyString :: split c r
      else match split c r with
           | h :: t => String a h :: t
           | [] => [String a EmptyString]
           end
  end.

(** [s.replace(c, new)]. *)
Fixpoint replace (c : ascii) (new : string) (s : string) : string :=
  match s with
  | EmptyString => EmptyString
  | String a r => if Ascii.eqb a c then String.append new (replace c new r)
                  else String a (replace c new r)
  end.

Definition newline : ascii := "010"%char.
Definition carriage_return : ascii := "013"%char.
Definition comma : ascii := ","%char.

End PyText.

(** Lines 84-94. *)
Definition clean_caption (caption : string) : string :=
  (* remove any newlines *)
  let caption := PyText.replace PyText.newline ", " caption in
  (* remove new lines for all operating systems *)
  let caption := PyText.replace PyText.carriage_return ", " caption in
  let caption_split := PyText.split PyText.comma caption in
  (* remove empty strings *)
  let caption_split :=
    map PyText.strip
      (filter (fun p => negb (PyStr.is_empty (PyText.strip p))) caption_split) in
  (* join back together *)
  String.concat ", " caption_split.

(** The fields of [self.dataset_config] that [get_caption] reads. *)
Record CaptionConfig : Type := mkCaptionConfig {
  caption_dropout_rate : Q;
  shuffle_tokens : bool;
  token_dropout_rate : Q;
  random_triggers : list string;
  random_triggers_max : Z
}.

(** The fields of an item that [get_caption] reads. *)
Record CaptionItem : Type := mkCaptionItem {
  raw_caption : option string;
  raw_caption_short : option string;
  caption_config : CaptionConfig           (* self.dataset_config *)
}.

(** [a < b] on floats. *)
Definition Qltb (a b : Q) : bool := negb (Qle_bool b a).

Definition rand_float : M Rng Q :=
  fun g => let (q, g') := random g in (Ok q, g').

Definition rand_shuffle {A} (l : list A) : M Rng (list A) :=
  fun g => let (l', g') := shuffle l g in (Ok l', g').

(** [random.choice(seq)]. *)
Definition rand_choice (l : list string) : M Rng string :=
  fun g =>
    match l with
    | [] => (Raise IndexError, g)
    | _ :: _ =>
        let (r, g') := next_draw g in
        (Ok (nth (N.to_nat (r mod N.of_nat (List.length l))) l EmptyString), g')
    end.

(** Lines 326-330 and 362-366: the tokens of a caption. *)
Definition token_list_of (caption : string) : list string :=
  let token_list := PyText.split PyText.comma caption in
  (* trim whitespace *)
  let token_list := map PyText.strip token_list in
  (* remove empty strings *)
  filter (fun x => negb (PyStr.is_empty x)) token_list.

(** Lines 337-344: the loop of the token dropout. *)
Fixpoint drop_tokens (rate : Q) (token_list : list string)
  : M Rng (list string) :=
  match token_list with
  | [] => ret []
  | token :: r =>
      rand <- rand_float ;;
      rest <- drop_tokens rate r ;;
      (* keep the token *)
      ret (if Qltb rate rand then token :: rest else rest)
  end.

(** Lines 357-358: add random triggers. *)
Fixpoint add_triggers (n : nat) (triggers : list string) (caption : string)
  : M Rng string :=
  match n with
  | O => ret caption
  | S n' =>
      t <- rand_choice triggers ;;
      add_triggers n' triggers (String.append caption (String.append ", " t))
  end.

Section Captions.

(** [toolkit.prompt_utils] is outside the modelled sources: its function is
    a parameter, and so are the types of the trigger and of the list of
    words to replace. *)
Variables Trigger ToReplace : Type.
Variable inject_trigger_into_prompt :
  string -> Trigger -> ToReplace -> bool -> res string.

Definition get_caption (trigger : Trigger) (to_replace_list : ToReplace)
    (add_if_not_present short_caption : bool) (it : CaptionItem)
  : M Rng string :=
  let config := caption_config it in
  let raw_caption :=
    if short_caption then raw_caption_short it else raw_caption it in
  let raw_caption :=
    match raw_caption with None => EmptyString | Some c => c end in
  (* handle dropout *)
  dropped <-
    (if Qltb 0 (caption_dropout_rate config) && negb short_caption
     then rand <- rand_float ;;
          ret (Qltb rand (caption_dropout_rate config))
     else ret false) ;;
  if dropped then ret EmptyString       (* drop the caption *)
  else
    (* get tokens *)
    let token_list := token_list_of raw_caption in
    token_list <- (if shuffle_tokens config then rand_shuffle token_list
                   else ret token_list) ;;
    (* handle token dropout *)
    token_list <-
      (if Qltb 0 (token_dropout_rate config) && negb short_caption
       then drop_tokens (token_dropout_rate config) token_list
       else ret token_list) ;;
    (* join back together *)
    let caption := String.concat ", " token_list in
    caption <- lift_res (inject_trigger_into_prompt caption trigger
                           to_replace_list add_if_not_present) ;;
    caption <-
      (match random_triggers config with
       | [] => ret caption
       | _ :: _ =>
           let num_triggers := random_triggers_max config in
           num_triggers <- (if 1 <? num_triggers
                            then randint 0 num_triggers
                            else ret num_triggers) ;;
           if 0 <? num_triggers
           then add_triggers (Z.to_nat num_triggers)
                  (random_triggers config) caption
           else ret caption
       end) ;;
    if shuffle_tokens config then
      (* shuffle again *)
      token_list <- rand_shuffle (token_list_of caption) ;;
      ret (String.concat ", " token_list)
    else ret caption.

End Captions.

(** A token of a caption: not empty, no white space at either end, no
    comma. *)
Definition is_token (t : string) : Prop :=
  t <> EmptyString
  /\ PyText.strip t = t
  /\ PyStr.all_chars (fun c => negb (Ascii.eqb c PyText.comma)) t = true.

(** The string holds no line break. *)
Definition one_line (s : string) : bool :=
  PyStr.all_chars (fun c => negb (Ascii.eqb c PyText.newline)
                            && negb (Ascii.eqb c PyText.carriage_return)) s.

(** The generator after [n] more draws. *)
Definition advance (n : nat) (g : Rng) : Rng :=
  mkRng (draws g) (cursor g + n).

Module SampleCaption.

(** A stand-in for [inject_trigger_into_prompt]: the trigger, when there is
    one and it is asked for, is put in front. *)
Definition inject (caption : string) (trigger : option string)
    (to_replace_list : list string) (add_if_not_present : bool)
  : res string :=
  match trigger with
  | Some t => if add_if_not_present
              then Ok (String.append t (String.append ", " caption))
              else Ok caption
  | None => Ok caption
  end.

Definition quiet : CaptionConfig := mkCaptionConfig 0 false 0 [] 1.

(** Every caption and every token is dropped. *)
Definition dropping : CaptionConfig := mkCaptionConfig 1 false 1 [] 1.

(** Half of the tokens are dropped, no caption is. *)
Definition thinning : CaptionConfig :=
  mkCaptionConfig 0 false (1 # 2) [] 1.

Definition with_triggers : CaptionConfig :=
  mkCaptionConfig 0 false 0 ["photo"; "4k"] 3.

Definition shuffling : CaptionConfig := mkCaptionConfig 0 true 0 [] 1.

Definition captioned (config : CaptionConfig) : CaptionItem :=
  mkCaptionItem (Some (clean_caption "a cat ,on a mat,, asleep"))
                (Some "cat") config.

(** The generator whose draws are 3 * 2^51, 0, 3 * 2^51, 0, ...:
    [random()] gives 0.75, 0.0, 0.75, ... *)
Definition alternating : Rng :=
  mkRng (fun n => if Nat.even n then (3 * 2 ^ 51)%N else 0%N) 0.

End SampleCaption.

(* ------------------------------------------------------------------ *)
(** ** Reading a cache key back *)

(** The characters of the URL-safe base64 alphabet. *)
Definition is_b64 (c : ascii) : bool :=
  existsb (Ascii.eqb c) (list_ascii_of_string Base64.alphabet).

(** [bytes.decode('utf-8')] on the encoding of code points below 256. *)
Fixpoint decode_utf8 (bs : list byte) : string :=
  match bs with
  | [] => EmptyString
  | b :: r =>
      if (Byte.to_N b <? 128)%N
      then String (ascii_of_byte b) (decode_utf8 r)
      else match r with
           | [] => EmptyString
           | b2 :: r2 =>
               String (ascii_of_N ((Byte.to_N b - 192) * 64
                                   + (Byte.to_N b2 - 128)))
                      (decode_utf8 r2)
           end
  end.

(** Every character, as a list. *)
Definition all_ascii : list ascii := map ascii_of_nat (seq 0 256).

(** The characters of [str(n)]. *)
Definition is_num_char (c : ascii) : bool :=
  Ascii.eqb c "-"%char
  || ((48 <=? N_of_ascii c) && (N_of_ascii c <=? 57))%N.

(** What follows a value in a serialized dict: a comma or the closing
    brace. *)
Definition ends_value (r : string) : Prop :=
  exists r' : string, r = String ","%char r' \/ r = String "}"%char r'.

(* ------------------------------------------------------------------ *)
(** ** Companion files (the [__init__] of the control, clip image, mask and
    unconditional mixins) *)

Definition img_ext_list : list string := [".jpg"; ".jpeg"; ".png"; ".webp"].

(** The loop over [img_ext_list] (lines 504-508, 588-592, 800-804 and
    904-908): the path kept at the [break], if any.  [exists_] is
    [os.path.exists]. *)
Fixpoint first_existing (exists_ : string -> bool)
    (dir file_name_no_ext : string) (exts : list string) : option string :=
  match exts with
  | [] => None
  | ext :: r =>
      let p := PyStr.join dir (String.append file_name_no_ext ext) in
      if exists_ p then Some p
      else first_existing exists_ dir file_name_no_ext r
  end.

Definition find_companion (exists_ : string -> bool) (dir img_path : string)
  : option string :=
  let file_name_no_ext := fst (PyStr.splitext (PyStr.basename img_path)) in
  first_existing exists_ dir file_name_no_ext img_ext_list.

(** What [MaskFileItemDTOMixin.__init__] (lines 783-804) leaves in
    [has_mask_image], [mask_path] and [use_alpha_as_mask], from the
    [alpha_mask] and [mask_path] of the configuration and the path of the
    image. *)
Definition init_mask_fields (exists_ : string -> bool) (alpha_mask : bool)
    (config_mask_path : option string) (img_path : string)
  : bool * option string * bool :=
  if alpha_mask then (true, Some img_path, true)
  else
    match config_mask_path with
    | Some dir =>
        match find_companion exists_ dir img_path with
        | Some p => (true, Some p, false)
        | None => (false, None, false)
        end
    | None => (false, None, false)
    end.

(** A directory with a name, written without a closing slash. *)
Definition plain_dir (d : string) : Prop :=
  PyStr.ends_with PyStr.slash d = false
  /\ PyStr.is_empty d = false
  /\ PyStr.all_chars (Ascii.eqb PyStr.slash)
       (String.append d (String PyStr.slash EmptyString)) = false.

(** The column [c] of an image of width [n], seen in the mirror. *)
Definition mirrored (flip : bool) (n c : Z) : Z :=
  if flip then n - 1 - c else c.

Module SampleFiles.

(** A mask folder that holds [cat.jpeg] and [cat.png]. *)
Definition exists_ (p : string) : bool :=
  String.eqb p "/data/masks/cat.jpeg" || String.eqb p "/data/masks/cat.png".

End SampleFiles.


(* ------------------------------------------------------------------ *)
(** ** Unconditional companions
    ([UnconditionalFileItemDTOMixin.load_unconditional_image]) *)

(** Lines 910-953.  [unconditional_path] and [unconditional_transforms] are
    the fields of the mixin; the result is the tensor the method stores in
    [self.unconditional_tensor].  The message of the [ValueError] lists the
    sizes; it is cut after its first words. *)
Definition load_unconditional_image (fs : files)
    (unconditional_path : option string) (unconditional_transforms : transform)
  : M world tensor :=
  it <- self ;;
  img <- match unconditional_path with
         | Some p =>
             match fs p with
             | Some (w, h, m) => ret (Opened p w h m)
             | None => raise (NameError "img")   (* the failure is printed *)
             end
         | None => raise (NameError "img")
         end ;;
  let img := Convert "RGB" img in
  let '(w, h) := size img in
  if orientation_mismatch w h it
  then raise (ValueError "unexpected values")
       (* throw error, they should match *)
  else
    let img := if flip_x it then Transpose FLIP_LEFT_RIGHT img else img in
    let img := if flip_y it then Transpose FLIP_TOP_BOTTOM img else img in
    if negb (buckets_enabled (dataset_config it))
    then raise (Exception
           "Unconditional images are not supported for non-bucket datasets")
    else
      (* scale and crop based on file item *)
      let img := Resize (scale_to_width it) (scale_to_height it) img in
      let img := Crop (crop_x it) (crop_y it)
                      (crop_x it + crop_width it)
                      (crop_y it + crop_height it) img in
      match aug_replay_spatial_transforms it with
      | Some _ => augment_spatial_control img unconditional_transforms
      | None =>
          match unconditional_transforms with
          | Some f => ret (f img)
          | None => raise (TypeError "'NoneType' object is not callable")
          end
      end.

(* ------------------------------------------------------------------ *)
(** ** The blur of a mask *)

(** The radii of the blurs among the calls that built an image. *)
Fixpoint blur_radii (i : image) : list Z :=
  match i with
  | Opened _ _ _ _ => []
  | GaussianBlur r i' => r :: blur_radii i'
  | Convert _ i' | Invert i' | Transpose _ i' => blur_radii i'
  | Resize _ _ i' | Crop _ _ _ _ i' => blur_radii i'
  | FromArray a => ablur_radii a
  end
with ablur_radii (a : ndarray) : list Z :=
  match a with
  | NpArray i => blur_radii i
  | AlphaToRgb a' | ReverseChannels a' | CvtColorBGR2RGB a'
  | ReplayApply _ a' | Composed _ a' => ablur_radii a'
  end.

(* ================================================================== *)
(** * Properties *)

(** ** Test vectors for the hashing chain *)

Example md5_empty :
  hex_of_bytes (MD5.digest []) = "d41d8cd98f00b204e9800998ecf8427e".
Proof. vm_compute. reflexivity. Qed.

Example md5_abc :
  hex_of_bytes (MD5.digest (PyStr.encode_utf8 "abc"))
  = "900150983cd24fb0d6963f7d28e17f72".
Proof. vm_compute. reflexivity. Qed.

Example b64_foobar :
  Base64.urlsafe_b64encode (PyStr.encode_utf8 "foobar") = "Zm9vYmFy"
  /\ Base64.urlsafe_b64encode (PyStr.encode_utf8 "fo") = "Zm8=".
Proof. vm_compute. split; reflexivity. Qed.

Example splitext_cases :
  PyStr.splitext "x/a.tar.gz" = ("x/a.tar", ".gz")
  /\ PyStr.splitext "/a.b/.bashrc" = ("/a.b/.bashrc", "")
  /\ PyStr.dirname "a//b" = "a"
  /\ PyStr.basename "a/b/" = "".
Proof. vm_compute. repeat split; reflexivity. Qed.

(** ** Sorting the items of a dict by key *)

Lemma insert_item_perm (kv : string * Json.value) (l : Json.dict) :
  Permutation (kv :: l) (Json.insert_item kv l).
Proof.
  induction l as [|kv' r IH]; simpl.
  - apply Permutation_refl.
  - destruct (String.leb (fst kv) (fst kv')).
    + apply Permutation_refl.
    + eapply perm_trans; [apply perm_swap|].
      apply perm_skip, IH.
Qed.

Lemma sort_items_perm (l : Json.dict) : Permutation l (Json.sort_items l).
Proof.
  induction l as [|kv r IH]; simpl.
  - constructor.
  - eapply perm_trans; [apply perm_skip, IH|apply insert_item_perm].
Qed.

Lemma insert_item_hd (kv : string * Json.value) (l : Json.dict) (x : _) :
  HdRel key_le x l -> key_le x kv -> HdRel key_le x (Json.insert_item kv l).
Proof.
  intros Hl Hx. destruct l as [|kv' r]; simpl.
  - constructor; exact Hx.
  - destruct (String.leb (fst kv) (fst kv')); constructor.
    + exact Hx.
    + inversion Hl; assumption.
Qed.

Lemma insert_item_sorted (kv : string * Json.value) (l : Json.dict) :
  Sorted key_le l -> Sorted key_le (Json.insert_item kv l).
Proof.
  induction 1 as [|kv' r Hs IH Hhd]; simpl.
  - repeat constructor.
  - destruct (String.leb (fst kv) (fst kv')) eqn:E.
    + constructor; [constructor; assumption|constructor; exact E].
    + constructor; [exact IH|].
      apply insert_item_hd; [exact Hhd|].
      unfold key_le. destruct (String.leb_total (fst kv) (fst kv')); congruence.
Qed.

Lemma sort_items_sorted (l : Json.dict) : Sorted key_le (Json.sort_items l).
Proof.
  induction l; simpl; [constructor|apply insert_item_sorted; assumption].
Qed.

(** ** Latent cache keys *)

Lemma get_latent_path_fresh (recalculate : bool) (w : world) :
  recalculate = true \/ _latent_path (item w) = None ->
  get_latent_path recalculate w
  = (Ok (fresh_latent_path (item w)),
     mkWorld (set_latent_path (Some (fresh_latent_path (item w))) (item w))
             (rng w)).
Proof.
  unfold get_latent_path, bind, self, update_item, modify, ret.
  intros [-> | ->]; simpl.
  - destruct (_latent_path (item w)); reflexivity.
  - reflexivity.
Qed.

Lemma get_latent_path_memo (w : world) (p : string) :
  _latent_path (item w) = Some p ->
  get_latent_path false w = (Ok p, w).
Proof.
  unfold get_latent_path, bind, self, ret. intros ->. reflexivity.
Qed.

Lemma info_dict_of_tuple (it1 it2 : FileItemDTO) :
  latent_key_tuple it1 = latent_key_tuple it2 ->
  get_latent_info_dict it1 = get_latent_info_dict it2.
Proof.
  unfold latent_key_tuple, get_latent_info_dict. intros H.
  injection H as -> -> -> -> -> -> -> -> -> -> ->. reflexivity.
Qed.

Lemma flip_x_key (it : FileItemDTO) (v : Json.value) :
  In ("flip_x", v) (get_latent_info_dict it) <->
  flip_x it = true /\ v = Json.JBool true.
Proof.
  unfold get_latent_info_dict.
  destruct (flip_x it), (flip_y it); simpl; split; intros H;
    repeat match goal with
           | H : _ \/ _ |- _ => destruct H
           | H : (_, _) = (_, _) |- _ => inversion H; clear H
           | H : False |- _ => contradiction
           | H : _ /\ _ |- _ => destruct H
           end; subst; try discriminate; auto 20.
Qed.

Lemma flip_y_key (it : FileItemDTO) (v : Json.value) :
  In ("flip_y", v) (get_latent_info_dict it) <->
  flip_y it = true /\ v = Json.JBool true.
Proof.
  unfold get_latent_info_dict.
  destruct (flip_x it), (flip_y it); simpl; split; intros H;
    repeat match goal with
           | H : _ \/ _ |- _ => destruct H
           | H : (_, _) = (_, _) |- _ => inversion H; clear H
           | H : False |- _ => contradiction
           | H : _ /\ _ |- _ => destruct H
           end; subst; try discriminate; auto 20.
Qed.

Example cat_key :
  Json.dumps_sorted (get_latent_info_dict Sample.cat)
  = String.concat (String PyStr.dquote EmptyString)
      ["{"; "crop_height"; ": 512, "; "crop_width"; ": 512, "; "crop_x";
       ": 4, "; "crop_y"; ": 4, "; "filename"; ": "; "cat.png"; ", ";
       "latent_space_version"; ": "; "sd1"; ", "; "latent_version";
       ": 1, "; "scale_to_height"; ": 520, "; "scale_to_width"; ": 520}"]
  /\ fresh_latent_path Sample.cat
     = "/data/a/_latent_cache/cat_PAiSs4YupBnuNK8T5KjbIw.safetensors".
Proof. vm_compute. split; reflexivity. Qed.

(** C1, as stated, fails: the path is not a function of the key tuple
    alone.  Two items with the same file name and the same geometry, in two
    directories, have the same tuple and different cache paths. *)
Lemma latent_path_not_function_of_tuple :
  ~ (forall (it1 it2 : FileItemDTO) (g1 g2 : Rng),
        latent_key_tuple it1 = latent_key_tuple it2 ->
        fst (get_latent_path true (mkWorld it1 g1))
        = fst (get_latent_path true (mkWorld it2 g2))).
Proof.
  intros H.
  specialize (H (Sample.cat_at "/data/a/cat.png")
                (Sample.cat_at "/data/b/cat.png")
                Sample.zero_rng Sample.zero_rng).
  assert (Ht : latent_key_tuple (Sample.cat_at "/data/a/cat.png")
               = latent_key_tuple (Sample.cat_at "/data/b/cat.png"))
    by (vm_compute; reflexivity).
  specialize (H Ht). vm_compute in H. discriminate H.
Qed.

(** C1 (amended): the hash is a function of the key tuple; the path is a
    function of the tuple and of the image's directory whenever it is worked
    out (on request, or when nothing is memoised); the flip keys are in the
    dict exactly when the flag is set, with value true; what is hashed is
    the serialization of the dict's items in sorted key order. *)
Theorem latent_cache_key_purity (it1 it2 : FileItemDTO) (g1 g2 : Rng)
    (r1 r2 : bool) :
  latent_key_tuple it1 = latent_key_tuple it2 ->
  latent_hash_str it1 = latent_hash_str it2
  /\ ((r1 = true \/ _latent_path it1 = None) ->
      (r2 = true \/ _latent_path it2 = None) ->
      PyStr.dirname (path it1) = PyStr.dirname (path it2) ->
      fst (get_latent_path r1 (mkWorld it1 g1))
      = fst (get_latent_path r2 (mkWorld it2 g2)))
  /\ (forall v, In ("flip_x", v) (get_latent_info_dict it1)
                <-> flip_x it1 = true /\ v = Json.JBool true)
  /\ (forall v, In ("flip_y", v) (get_latent_info_dict it1)
                <-> flip_y it1 = true /\ v = Json.JBool true)
  /\ (exists items : Json.dict,
        latent_hash_input it1 = PyStr.encode_utf8 (Json.dumps_items items)
        /\ Sorted key_le items
        /\ Permutation (get_latent_info_dict it1) items).
Proof.
  intros Ht.
  pose proof (info_dict_of_tuple it1 it2 Ht) as Hd.
  assert (Hh : latent_hash_str it1 = latent_hash_str it2).
  { unfold latent_hash_str, latent_hash_input. rewrite Hd. reflexivity. }
  split; [exact Hh|].
  split.
  - intros H1 H2 Hdir.
    rewrite (get_latent_path_fresh r1 (mkWorld it1 g1) H1).
    rewrite (get_latent_path_fresh r2 (mkWorld it2 g2) H2).
    simpl. f_equal. unfold fresh_latent_path.
    rewrite Hdir, Hh.
    assert (Hb : PyStr.basename (path it1) = PyStr.basename (path it2)).
    { unfold latent_key_tuple in Ht. congruence. }
    rewrite Hb. reflexivity.
  - split; [apply flip_x_key|].
    split; [apply flip_y_key|].
    exists (Json.sort_items (get_latent_info_dict it1)).
    split; [reflexivity|].
    split; [apply sort_items_sorted|apply sort_items_perm].
Qed.

Lemma latent_cache_key_purity_witness :
  latent_hash_str Sample.cat
  = latent_hash_str (set_latent_path (Some "old") Sample.cat).
Proof.
  apply (latent_cache_key_purity Sample.cat
           (set_latent_path (Some "old") Sample.cat)
           Sample.zero_rng Sample.zero_rng true true).
  reflexivity.
Defined.

(** ** Running a computation *)

Lemma bind_ok {S A B : Type} (m : M S A) (k : A -> M S B) (s s' : S) (b : B) :
  bind m k s = (Ok b, s') ->
  exists (a : A) (s1 : S), m s = (Ok a, s1) /\ k a s1 = (Ok b, s').
Proof.
  unfold bind. destruct (m s) as [[a|e] s1]; intros H.
  - exists a, s1. split; [reflexivity|exact H].
  - discriminate H.
Qed.

Lemma bind_run {S A B : Type} (m : M S A) (k : A -> M S B) (s s1 : S) (a : A) :
  m s = (Ok a, s1) -> bind m k s = k a s1.
Proof. unfold bind. intros ->. reflexivity. Qed.
Arguments bind_run {S A B m} k {s s1 a} _.

(** ** Mask companions *)

Ltac run_monad :=
  unfold bind, self, ret, raise, update_item, modify, draw_random, lift_res;
  simpl.

Lemma load_mask_geometry (fs : files) (w0 : world) (p : string) (w h : Z)
    (m : string) :
  mask_path (item w0) = Some p ->
  fs p = Some (w, h, m) ->
  geometry (item (snd (load_mask_image fs w0)))
  = geometry (if orientation_mismatch w h (item w0)
              then swap_geometry (item w0) else item w0).
Proof.
  intros Hp Hf. unfold load_mask_image.
  unfold bind at 1. unfold self at 1. simpl. rewrite Hp, Hf.
  unfold bind at 1. unfold ret at 1.
  destruct (use_alpha_as_mask (item w0)), (invert_mask (dataset_config (item w0)));
    simpl;
    destruct (orientation_mismatch w h (item w0)); run_monad;
    destruct (random (rng w0)) as [q g]; simpl;
    destruct (buckets_enabled (dataset_config (item w0))); simpl;
    try reflexivity;
    destruct (aug_replay_spatial_transforms (item w0)); simpl;
    unfold augment_spatial_control; run_monad;
    try reflexivity;
    destruct (aug_replay_spatial_transforms (item w0)); reflexivity.
Qed.




(** What [load_mask_image] does on an item with a replay record. *)
Lemma load_mask_run (fs : files) (w0 : world) (p : string) (w h : Z)
    (m : string) (record : replay) :
  mask_path (item w0) = Some p ->
  fs p = Some (w, h, m) ->
  buckets_enabled (dataset_config (item w0)) = true ->
  aug_replay_spatial_transforms (item w0) = Some record ->
  let it1 := if orientation_mismatch w h (item w0)
             then swap_geometry (item w0) else item w0 in
  exists (pre : image) (g' : Rng),
    converts_to "L" pre = false
    /\ has_replay pre = false
    /\ load_mask_image fs w0
       = (Ok tt,
          mkWorld
            (set_mask_tensor
               (Some (ValueMap
                 (ToTensor
                   (Convert "L"
                     (FromArray (CvtColorBGR2RGB
                       (ReplayApply record
                         (ReverseChannels (NpArray
                           (Convert "RGB"
                             (Crop (crop_x it1) (crop_y it1)
                                   (crop_x it1 + crop_width it1)
                                   (crop_y it1 + crop_height it1)
                               (Resize (scale_to_width it1)
                                       (scale_to_height it1)
                                 (Convert "L" pre)))))))))))
                 0 1 (mask_min_value (item w0)) 1))
               it1)
            g').
Proof.
  intros Hp Hf Hb Hr. unfold load_mask_image.
  unfold bind at 1. unfold self at 1. simpl. rewrite Hp, Hf.
  unfold bind at 1. unfold ret at 1.
  destruct (use_alpha_as_mask (item w0)),
           (invert_mask (dataset_config (item w0))); simpl;
    destruct (orientation_mismatch w h (item w0)); run_monad;
    destruct (random (rng w0)) as [q g]; simpl;
    rewrite Hb; simpl; rewrite Hr; simpl;
    unfold augment_spatial_control; run_monad; rewrite Hr; simpl;
    destruct (flip_x (item w0)), (flip_y (item w0));
    eexists; eexists; (split; [|split; [|reflexivity]]); reflexivity.
Qed.



(** ** Augmentation replay *)

Lemma filter_subseq {A : Type} (f : A -> bool) (l : list A) :
  subseq (filter f l) l.
Proof.
  induction l as [|x r IH]; simpl.
  - constructor.
  - destruct (f x); constructor; exact IH.
Qed.

Lemma in_list_In (s : string) (l : list string) :
  in_list s l = true <-> In s l.
Proof.
  unfold in_list. rewrite existsb_exists. split.
  - intros (x & Hin & Heq). apply String.eqb_eq in Heq. subst. exact Hin.
  - intros Hin. exists s. split; [exact Hin|apply String.eqb_refl].
Qed.

Example class_name_cases :
  class_name (mkSaved "albumentations.augmentations.geometric.rotate.Rotate"
                      true []) = "Rotate"
  /\ class_name (mkSaved "HorizontalFlip" false []) = "HorizontalFlip"
  /\ is_spatial (mkSaved "albumentations.ColorJitter" true []) = false
  /\ is_spatial (mkSaved "albumentations.GridDistortion" true []) = true.
Proof. vm_compute. repeat split; reflexivity. Qed.

Lemma is_spatial_iff (t : saved_transform) :
  is_spatial t = true <-> In (class_name t) spatial_transforms.
Proof. unfold is_spatial, class_name. apply in_list_In. Qed.

(** The tail of [augment_image], from the call of the pipeline on. *)
Lemma augment_image_run
    (has_method : string -> bool)
    (compose_call : list Augments -> ndarray -> Rng -> (ndarray * replay) * Rng)
    (img : image) (tr : transform) (w0 w' : world) (t : tensor) :
  augment_image has_method compose_call img tr w0 = (Ok t, w') ->
  exists (pipeline : list Augments) (g : Rng),
    let call := compose_call pipeline (ReverseChannels (NpArray img)) g in
    aug_transform (item w') = Some pipeline
    /\ rng w' = snd call
    /\ aug_replay_spatial_transforms (item w')
       = Some (set_transforms (snd (fst call))
                 (filter is_spatial (transforms (snd (fst call)))))
    /\ t = to_tensor_or tr (FromArray (CvtColorBGR2RGB (fst (fst call))))
    /\ (shuffle_augmentations (dataset_config (item w0)) = false ->
        g = rng w0 /\ aug_transform (item w0) = Some pipeline).
Proof.
  unfold augment_image. intros H.
  apply bind_ok in H. destruct H as (it & w1 & Hself & H).
  unfold self in Hself. injection Hself as <- <-.
  apply bind_ok in H. destruct H as ([] & w2 & Hbuild & H).
  apply bind_ok in H. destruct H as ([] & w3 & Hupd & H).
  unfold update_item, modify in Hupd. injection Hupd as <-.
  cbn [item rng] in *.
  apply bind_ok in H. destruct H as (it3 & w4 & Hself3 & H).
  unfold self in Hself3. injection Hself3 as <- <-.
  change (aug_transform (set_unaugmented_tensor
                           (Some (to_tensor_or tr img)) (item w2)))
    with (aug_transform (item w2)) in H.
  destruct (aug_transform (item w2)) as [pipeline|] eqn:Ea;
    [|discriminate H].
  apply bind_ok in H. destruct H as ([out captured] & w5 & Hcall & H).
  apply bind_ok in H. destruct H as ([] & w6 & Hset & H).
  unfold ret in H. injection H as <- <-.
  cbn [item rng] in Hcall.
  destruct (compose_call pipeline (ReverseChannels (NpArray img)) (rng w2))
    as [[out' captured'] g'] eqn:Ec.
  injection Hcall as <- <- <-.
  unfold update_item, modify in Hset. injection Hset as <-.
  exists pipeline, (rng w2). rewrite Ec. cbn [item rng fst snd].
  split; [exact Ea|]. split; [reflexivity|]. split; [reflexivity|].
  split; [reflexivity|].
  intros Hsh. rewrite Hsh in Hbuild. unfold ret in Hbuild.
  injection Hbuild as <-. split; [reflexivity|exact Ea].
Qed.



Example augment_image_sample :
  option_map (fun r => map class_name (transforms r))
    (aug_replay_spatial_transforms
       (item (snd (augment_image SampleAug.has_method SampleAug.compose_call
                     SampleAug.picture None
                     (mkWorld SampleAug.augmented Sample.zero_rng)))))
  = Some ["HorizontalFlip"; "Rotate"].
Proof. vm_compute. reflexivity. Qed.


(** ** Python numerics *)

Lemma int_of_nonneg (x : Q) : (0 <= x)%Q -> Py.int_of x = Qfloor x.
Proof.
  intros H. unfold Py.int_of. apply Qle_bool_iff in H. rewrite H. reflexivity.
Qed.

Lemma int_of_le (x : Q) : (0 <= x)%Q -> (inject_Z (Py.int_of x) <= x)%Q.
Proof. intros H. rewrite (int_of_nonneg x H). apply Qfloor_le. Qed.

Lemma int_of_pos (x : Q) : (0 <= x)%Q -> 0 <= Py.int_of x.
Proof.
  intros H. rewrite (int_of_nonneg x H).
  change 0 with (Qfloor 0). apply Qfloor_resp_le, H.
Qed.

Lemma int_of_half (s : Z) : 0 <= s -> Py.int_of (Py.truediv s 2) = s / 2.
Proof.
  intros Hs.
  assert (H : (0 <= Py.truediv s 2)%Q).
  { unfold Py.truediv, Qle. simpl. lia. }
  rewrite (int_of_nonneg _ H). unfold Py.truediv, Qfloor. simpl.
  rewrite Z.mul_1_r. reflexivity.
Qed.

Lemma ceil_ge (z : Z) (x : Q) : (inject_Z z <= x)%Q -> z <= Py.ceil x.
Proof.
  intros H. apply Qceiling_resp_le in H. rewrite Qceiling_Z in H. exact H.
Qed.

Lemma ceil_le (x : Q) : (x <= inject_Z (Py.ceil x))%Q.
Proof. apply Qle_ceiling. Qed.

Lemma max_ge_l (a b : Q) : (a <= Py.max a b)%Q.
Proof.
  unfold Py.max. destruct (Qlt_le_dec a b).
  - apply Qlt_le_weak; assumption.
  - apply Qle_refl.
Qed.

Lemma max_ge_r (a b : Q) : (b <= Py.max a b)%Q.
Proof.
  unfold Py.max. destruct (Qlt_le_dec a b).
  - apply Qle_refl.
  - assumption.
Qed.

Lemma max_cases (a b : Q) : Py.max a b = a \/ Py.max a b = b.
Proof. unfold Py.max. destruct (Qlt_le_dec a b); auto. Qed.

Lemma inject_Z_pos (w : Z) : 0 < w -> (0 < inject_Z w)%Q.
Proof. intros H. unfold Qlt. simpl. lia. Qed.

Lemma inject_Z_nonneg (w : Z) : 0 <= w -> (0 <= inject_Z w)%Q.
Proof. intros H. unfold Qle. simpl. lia. Qed.

Lemma truediv_mul (w b : Z) :
  0 < w -> (inject_Z w * Py.truediv b w == inject_Z b)%Q.
Proof.
  intros H. unfold Py.truediv. field.
  intros E. pose proof (inject_Z_pos w H) as P. rewrite E in P.
  apply Qlt_irrefl in P. exact P.
Qed.

Lemma truediv_nonneg (w b : Z) : 0 < w -> 0 <= b -> (0 <= Py.truediv b w)%Q.
Proof.
  intros Hw Hb. unfold Py.truediv.
  apply Qle_shift_div_l; [apply inject_Z_pos, Hw|].
  rewrite Qmult_0_l. apply inject_Z_nonneg, Hb.
Qed.

(** Scaling an axis of length [w] by a factor of at least [b / w] covers
    [b]: the reason for taking the larger of the two factors. *)
Lemma scale_covers (w b : Z) (m : Q) :
  0 < w -> (Py.truediv b w <= m)%Q -> (inject_Z b <= inject_Z w * m)%Q.
Proof.
  intros Hw Hm. rewrite <- (truediv_mul w b Hw).
  apply Qmult_le_l; [apply inject_Z_pos, Hw|exact Hm].
Qed.

(** ** The random generator *)

Lemma randint_range (a b v : Z) (g g' : Rng) :
  randint a b g = (Ok v, g') ->
  a <= v <= b /\ g' = mkRng (draws g) (S (cursor g)).
Proof.
  unfold randint. destruct (b <? a) eqn:E; [discriminate|].
  apply Z.ltb_ge in E. unfold next_draw. intros H. injection H as <- <-.
  pose proof (Z.mod_pos_bound (Z.of_N (draws g (cursor g))) (b - a + 1)).
  split; [lia|reflexivity].
Qed.

(** Every value of the range is the image of some draw. *)
Lemma randint_onto (a b v : Z) (g : Rng) :
  a <= v <= b ->
  draws g (cursor g) = Z.to_N (v - a) ->
  fst (randint a b g) = Ok v.
Proof.
  intros Hv Hd. unfold randint.
  destruct (b <? a) eqn:E; [apply Z.ltb_lt in E; lia|].
  unfold next_draw. simpl. rewrite Hd, Z2N.id by lia.
  rewrite Z.mod_small by lia. f_equal. lia.
Qed.

Lemma draw_randint_ok (a b v : Z) (w w' : world) :
  draw_randint a b w = (Ok v, w') ->
  a <= v <= b /\ item w' = item w
  /\ randint a b (rng w) = (Ok v, rng w').
Proof.
  unfold draw_randint. destruct (randint a b (rng w)) as [r g] eqn:E.
  intros H. injection H as -> <-. simpl.
  destruct (randint_range a b v (rng w) g E) as [Hr _]. auto.
Qed.

(** ** The standard bucket path *)

Section StandardPath.

Variable get_bucket_for_image_size :
  Z -> Z -> Z -> Z -> res bucket_resolution.

Lemma standard_bucket_run (config : DatasetConfig) (width height : Z)
    (w0 w' : world) :
  0 < width -> 0 < height ->
  standard_bucket get_bucket_for_image_size config width height w0
  = (Ok tt, w') ->
  exists br : bucket_resolution,
    get_bucket_for_image_size width height (resolution config)
      (bucket_tolerance config) = Ok br
    /\ let m := Py.max (Py.truediv (res_width br) width)
                       (Py.truediv (res_height br) height) in
       let stw := Py.ceil (inject_Z width * m) in
       let sth := Py.ceil (inject_Z height * m) in
       exists (cx cy : Z),
         item w'
         = set_crop_xy cx cy
             (set_crop_size (res_width br) (res_height br)
                (set_scale_to stw sth (item w0)))
         /\ if random_crop config
            then exists g1 : Rng,
                   randint 0 (stw - res_width br) (rng w0) = (Ok cx, g1)
                   /\ randint 0 (sth - res_height br) g1 = (Ok cy, rng w')
            else cx = Py.int_of (Py.truediv (stw - res_width br) 2)
                 /\ cy = Py.int_of (Py.truediv (sth - res_height br) 2)
                 /\ rng w' = rng w0.
Proof.
  intros Hw Hh H. unfold standard_bucket in H.
  apply bind_ok in H. destruct H as (br & w1 & Hbr & H).
  unfold lift_res in Hbr. injection Hbr as Hbr <-.
  exists br. split; [exact Hbr|].
  rewrite (proj2 (Z.eqb_neq width 0)) in H by lia.
  rewrite (proj2 (Z.eqb_neq height 0)) in H by lia.
  apply bind_ok in H. destruct H as ([] & w2 & H2 & H).
  unfold update_item, modify in H2. injection H2 as <-.
  apply bind_ok in H. destruct H as ([] & w3 & H3 & H).
  unfold update_item, modify in H3. injection H3 as <-.
  cbv zeta. simpl in H.
  destruct (random_crop config).
  - apply bind_ok in H. destruct H as (cx & w4 & H4 & H).
    apply bind_ok in H. destruct H as (cy & w5 & H5 & H).
    apply draw_randint_ok in H4. destruct H4 as (_ & Hi4 & Hr4).
    apply draw_randint_ok in H5. destruct H5 as (_ & Hi5 & Hr5).
    unfold update_item, modify in H. injection H as <-.
    exists cx, cy. simpl. rewrite Hi5, Hi4. simpl.
    split; [reflexivity|].
    exists (rng w4). simpl in Hr4. split; [exact Hr4|exact Hr5].
  - unfold update_item, modify in H. injection H as <-.
    eexists. eexists. simpl. split; [reflexivity|]. auto.
Qed.

(** On the standard path the crop lies inside the scaled image. *)
Lemma standard_bucket_fits (config : DatasetConfig) (width height : Z)
    (w0 w' : world) :
  0 < width -> 0 < height ->
  standard_bucket get_bucket_for_image_size config width height w0
  = (Ok tt, w') ->
  crop_x (item w') + crop_width (item w') <= scale_to_width (item w')
  /\ crop_y (item w') + crop_height (item w') <= scale_to_height (item w').
Proof.
  intros Hw Hh Hrun.
  apply standard_bucket_run in Hrun; [|exact Hw|exact Hh].
  destruct Hrun as (br & _ & cx & cy & Hit & Hcrop).
  rewrite Hit.
  cbn [crop_x crop_y crop_width crop_height scale_to_width scale_to_height
       set_crop_xy set_crop_size set_scale_to].
  set (m := Py.max (Py.truediv (res_width br) width)
                   (Py.truediv (res_height br) height)) in *.
  assert (Hcw : res_width br <= Py.ceil (inject_Z width * m)).
  { apply ceil_ge, scale_covers; [exact Hw|apply max_ge_l]. }
  assert (Hch : res_height br <= Py.ceil (inject_Z height * m)).
  { apply ceil_ge, scale_covers; [exact Hh|apply max_ge_r]. }
  destruct (random_crop config).
  - destruct Hcrop as (g1 & H1 & H2).
    apply randint_range in H1, H2. lia.
  - destruct Hcrop as (-> & -> & _).
    rewrite !int_of_half by lia.
    pose proof (Z.div_le_upper_bound
                  (Py.ceil (inject_Z width * m) - res_width br) 2
                  (Py.ceil (inject_Z width * m) - res_width br)).
    pose proof (Z.div_le_upper_bound
                  (Py.ceil (inject_Z height * m) - res_height br) 2
                  (Py.ceil (inject_Z height * m) - res_height br)).
    lia.
Qed.

End StandardPath.

(** ** The point-of-interest search *)

Lemma window_box_ok (iw ih : Z) (b : box) : window_ok iw ih b -> box_ok iw ih b.
Proof. unfold window_ok, box_ok. lia. Qed.

Lemma guarded_draw (c : bool) (a b d v : Z) (w w1 : world) :
  (if c then draw_randint a b else ret d) w = (Ok v, w1) ->
  item w1 = item w /\ ((c = true /\ a <= v <= b) \/ (c = false /\ v = d)).
Proof.
  destruct c; intros H.
  - apply draw_randint_ok in H. destruct H as (Hr & Hi & _). auto.
  - unfold ret in H. injection H as <- <-. auto.
Qed.

Lemma guarded_draw_total (c : bool) (a b d : Z) (w : world) :
  (c = true -> a <= b) ->
  exists (v : Z) (w1 : world),
    (if c then draw_randint a b else ret d) w = (Ok v, w1).
Proof.
  intros Hc. destruct c.
  - unfold draw_randint, randint.
    destruct (b <? a) eqn:E.
    + apply Z.ltb_lt in E. specialize (Hc eq_refl). lia.
    + simpl. eexists. eexists. reflexivity.
  - unfold ret. eexists. eexists. reflexivity.
Qed.

(** A pass of the loop body draws its bounds without raising. *)
Lemma poi_attempt_total (iw ih : Z) (b : box) (w : world) :
  exists (b' : box) (w1 : world), poi_attempt iw ih b w = (Ok b', w1).
Proof.
  unfold poi_attempt.
  destruct (guarded_draw_total (0 <? bx b) 0 (bx b) 0 w) as (px & w1 & E1).
  { intros H. apply Z.ltb_lt in H. lia. }
  rewrite (bind_run _ E1). cbv beta zeta.
  destruct (guarded_draw_total (px + bw b <? iw) (px + bw b) iw iw w1)
    as (cr & w2 & E2).
  { intros H. apply Z.ltb_lt in H. lia. }
  rewrite (bind_run _ E2). cbv beta zeta.
  destruct (guarded_draw_total (0 <? by_ b) 0 (by_ b) 0 w2) as (py & w3 & E3).
  { intros H. apply Z.ltb_lt in H. lia. }
  rewrite (bind_run _ E3). cbv beta zeta.
  destruct (guarded_draw_total (py + bh b <? ih) (py + bh b) ih ih w3)
    as (cb & w4 & E4).
  { intros H. apply Z.ltb_lt in H. lia. }
  rewrite (bind_run _ E4). cbv beta zeta.
  unfold ret. eexists. eexists. reflexivity.
Qed.

Lemma poi_attempt_item (iw ih : Z) (b b' : box) (w w1 : world) :
  poi_attempt iw ih b w = (Ok b', w1) -> item w1 = item w.
Proof.
  unfold poi_attempt. intros H.
  apply bind_ok in H. destruct H as (px & wa & Ha & H).
  apply bind_ok in H. destruct H as (cr & wb & Hb & H).
  apply bind_ok in H. destruct H as (py & wc & Hc & H).
  apply bind_ok in H. destruct H as (cb & wd & Hd & H).
  unfold ret in H. injection H as _ <-.
  apply guarded_draw in Ha, Hb, Hc, Hd.
  destruct Ha as [Ha _], Hb as [Hb _], Hc as [Hc _], Hd as [Hd _].
  congruence.
Qed.

(** From a region that starts inside the image, a pass yields a window
    inside the image. *)
Lemma poi_attempt_window (iw ih : Z) (b b' : box) (w w1 : world) :
  0 < iw -> 0 < ih -> box_ok iw ih b ->
  poi_attempt iw ih b w = (Ok b', w1) ->
  window_ok iw ih b'.
Proof.
  unfold poi_attempt, box_ok, window_ok. intros Hiw Hih Hbox H.
  apply bind_ok in H. destruct H as (px & wa & Ha & H).
  apply bind_ok in H. destruct H as (cr & wb & Hb & H).
  apply bind_ok in H. destruct H as (py & wc & Hc & H).
  apply bind_ok in H. destruct H as (cb & wd & Hd & H).
  unfold ret in H. injection H as <- _. simpl.
  apply guarded_draw in Ha, Hb, Hc, Hd.
  destruct Ha as [_ Ha], Hb as [_ Hb], Hc as [_ Hc], Hd as [_ Hd].
  destruct Ha as [[Ea Ha]|[Ea Ha]], Hb as [[Eb Hb]|[Eb Hb]],
           Hc as [[Ec Hc]|[Ec Hc]], Hd as [[Ed Hd]|[Ed Hd]];
    rewrite ?Z.ltb_lt, ?Z.ltb_ge in Ea, Eb, Ec, Ed; lia.
Qed.

Section PoiSearch.

Variable get_resolution : Z -> Z -> res Z.

Lemma poi_search_S (fuel : nat) (target iw ih : Z) (b : box) (n : Z) :
  poi_search get_resolution (S fuel) target iw ih b n
  = bind (poi_attempt iw ih b) (fun b' =>
      bind (lift_res (get_resolution (bw b') (bh b'))) (fun cur =>
        if target <=? cur then ret (Some (Found b' n))
        else if 100 <? n + 1 then ret (Some (GaveUp (n + 1)))
             else poi_search get_resolution fuel target iw ih b' (n + 1))).
Proof. reflexivity. Qed.

(** Within [101 - num_loops] passes the loop is left by [break], by
    [return False] or by an exception of [get_resolution]: the unrolling
    never runs out. *)
Lemma poi_search_finishes (fuel : nat) :
  forall (target iw ih : Z) (b : box) (n : Z) (w : world),
    0 <= n <= 100 -> 101 <= Z.of_nat fuel + n ->
    fst (poi_search get_resolution fuel target iw ih b n w) <> Ok None.
Proof.
  induction fuel as [|fuel IH]; intros target iw ih b n w Hn Hf.
  - simpl in Hf. lia.
  - rewrite poi_search_S.
    destruct (poi_attempt_total iw ih b w) as (b' & w1 & Ea).
    rewrite (bind_run _ Ea).
    unfold bind at 1, lift_res.
    destruct (get_resolution (bw b') (bh b')) as [cur|e]; [|discriminate].
    destruct (target <=? cur); [discriminate|].
    destruct (100 <? n + 1) eqn:E; [discriminate|].
    apply Z.ltb_ge in E. apply IH; lia.
Qed.

(** Unrolling further changes nothing. *)
Lemma poi_search_fuel (f1 : nat) :
  forall (f2 : nat) (target iw ih : Z) (b : box) (n : Z) (w : world),
    0 <= n <= 100 -> 101 <= Z.of_nat f1 + n -> 101 <= Z.of_nat f2 + n ->
    poi_search get_resolution f1 target iw ih b n w
    = poi_search get_resolution f2 target iw ih b n w.
Proof.
  induction f1 as [|f1 IH]; intros f2 target iw ih b n w Hn H1 H2.
  - simpl in H1. lia.
  - destruct f2 as [|f2]; [simpl in H2; lia|].
    rewrite !poi_search_S. unfold bind at 1 3.
    destruct (poi_attempt iw ih b w) as [[b'|e] w1]; [|reflexivity].
    unfold bind at 1 2, lift_res.
    destruct (get_resolution (bw b') (bh b')) as [cur|e]; [|reflexivity].
    destruct (target <=? cur); [reflexivity|].
    destruct (100 <? n + 1) eqn:E; [reflexivity|].
    apply Z.ltb_ge in E. apply IH; lia.
Qed.

(** How the loop is left, and what it leaves behind. *)
Lemma poi_search_result (fuel : nat) :
  forall (target iw ih : Z) (b : box) (n : Z) (w w1 : world)
         (r : search_result),
    0 <= n <= 100 ->
    poi_search get_resolution fuel target iw ih b n w = (Ok (Some r), w1) ->
    item w1 = item w
    /\ match r with
       | Found b' k =>
           n <= k <= 100
           /\ exists cur : Z,
                get_resolution (bw b') (bh b') = Ok cur /\ target <= cur
       | GaveUp k => k = 101
       end.
Proof.
  induction fuel as [|fuel IH]; intros target iw ih b n w w1 r Hn H.
  - simpl in H. unfold ret in H. discriminate H.
  - rewrite poi_search_S in H.
    apply bind_ok in H. destruct H as (b' & wa & Ha & H).
    apply bind_ok in H. destruct H as (cur & wb & Hb & H).
    unfold lift_res in Hb. injection Hb as Hb <-.
    apply poi_attempt_item in Ha.
    destruct (target <=? cur) eqn:Et.
    + unfold ret in H. injection H as <- <-.
      split; [exact Ha|]. split; [lia|].
      exists cur. split; [exact Hb|apply Z.leb_le, Et].
    + destruct (100 <? n + 1) eqn:E.
      * unfold ret in H. injection H as <- <-.
        apply Z.ltb_lt in E. split; [exact Ha|lia].
      * apply Z.ltb_ge in E.
        apply IH in H; [|lia]. destruct H as [Hi Hr].
        split; [congruence|].
        destruct r as [b2 k|k]; [|exact Hr].
        destruct Hr as [Hk Hc]. split; [lia|exact Hc].
Qed.

(** The window the loop keeps lies inside the image. *)
Lemma poi_search_window (fuel : nat) :
  forall (target iw ih : Z) (b b' : box) (n k : Z) (w w1 : world),
    0 < iw -> 0 < ih -> box_ok iw ih b ->
    poi_search get_resolution fuel target iw ih b n w
    = (Ok (Some (Found b' k)), w1) ->
    window_ok iw ih b'.
Proof.
  induction fuel as [|fuel IH]; intros target iw ih b b' n k w w1 Hiw Hih Hbox H.
  - simpl in H. unfold ret in H. discriminate H.
  - rewrite poi_search_S in H.
    apply bind_ok in H. destruct H as (b1 & wa & Ha & H).
    apply bind_ok in H. destruct H as (cur & wb & Hb & H).
    unfold lift_res in Hb. injection Hb as Hb <-.
    pose proof (poi_attempt_window iw ih b b1 w wa Hiw Hih Hbox Ha) as Hwin.
    destruct (target <=? cur).
    + unfold ret in H. injection H as <- _ <-. exact Hwin.
    + destruct (100 <? n + 1); [unfold ret in H; discriminate H|].
      eapply IH; [exact Hiw|exact Hih|apply window_box_ok, Hwin|exact H].
Qed.

End PoiSearch.

Section PoiBucket.

Variable get_resolution : Z -> Z -> res Z.
Variable get_bucket_for_image_size :
  Z -> Z -> Z -> Z -> res bucket_resolution.

Lemma poi_apply_window_true (iw ih : Z) (b : box) (w w' : world) (r : bool) :
  poi_apply_window get_bucket_for_image_size iw ih b w = (Ok r, w') ->
  r = true.
Proof.
  unfold poi_apply_window. intros H.
  apply bind_ok in H. destruct H as (it & w1 & _ & H).
  apply bind_ok in H. destruct H as (br & w2 & _ & H).
  destruct (bw b =? 0); [discriminate H|].
  destruct (bh b =? 0); [discriminate H|].
  apply bind_ok in H. destruct H as ([] & w3 & _ & H).
  apply bind_ok in H. destruct H as ([] & w4 & _ & H).
  apply bind_ok in H. destruct H as ([] & w5 & _ & H).
  unfold ret in H. injection H as <- _. reflexivity.
Qed.

(** The two ways [setup_poi_bucket] returns [False], and what it leaves. *)
Lemma setup_poi_bucket_false (w0 w1 : world) :
  setup_poi_bucket get_resolution get_bucket_for_image_size w0
  = (Ok false, w1) ->
  item w1 = item w0.
Proof.
  unfold setup_poi_bucket. intros H.
  apply bind_ok in H. destruct H as (it & wa & Ha & H).
  unfold self in Ha. injection Ha as <- <-.
  apply bind_ok in H. destruct H as (r & wb & Hb & H).
  unfold lift_res in Hb. injection Hb as Hb <-.
  destruct (r <=? resolution (dataset_config (item w0))).
  - unfold ret in H. injection H as <-. reflexivity.
  - apply bind_ok in H. destruct H as (sr & wc & Hc & H).
    destruct sr as [[b' k|k]|].
    + apply poi_apply_window_true in H. discriminate H.
    + unfold ret in H. injection H as <-.
      apply poi_search_result in Hc; [|lia]. apply Hc.
    + discriminate H.
Qed.

(** C9: the search of [setup_poi_bucket] terminates.  Within 101 passes of
    the loop body (a first attempt and at most 100 retries) the loop is
    always left, and unrolling it further changes nothing; a [break]
    happens after at most 100 failed attempts; once 101 attempts have failed
    the method
    returns [False] without raising and without touching the item, and the
    caller goes on with the standard path; and when the resolution of the
    scaled image is at or below the target, the method returns [False]
    at once, without a draw. *)
Theorem setup_poi_bucket_terminates (config : DatasetConfig) (w0 : world) :
  let it := item w0 in
  let iw := scaled (width it) it in
  let ih := scaled (height it) it in
  let target := resolution (dataset_config it) in
  let b0 := mkBox (scaled (poi_x it) it) (scaled (poi_y it) it)
                  (scaled (poi_width it) it) (scaled (poi_height it) it) in
  let search fuel := poi_search get_resolution fuel target iw ih b0 0 w0 in
  fst (search search_fuel) <> Ok None
  /\ (forall fuel : nat, (101 <= fuel)%nat -> search fuel = search search_fuel)
  /\ (forall (b' : box) (n : Z) (w1 : world),
        search search_fuel = (Ok (Some (Found b' n)), w1) -> 0 <= n <= 100)
  /\ (forall (n : Z) (w1 : world) (r : Z),
        get_resolution iw ih = Ok r -> target < r ->
        search search_fuel = (Ok (Some (GaveUp n)), w1) ->
        n = 101
        /\ setup_poi_bucket get_resolution get_bucket_for_image_size w0
           = (Ok false, w1)
        /\ item w1 = item w0
        /\ (has_point_of_interest it = true ->
            bucket_item get_resolution get_bucket_for_image_size config w0
            = standard_bucket get_bucket_for_image_size config iw ih w1))
  /\ (forall r : Z,
        get_resolution iw ih = Ok r -> r <= target ->
        setup_poi_bucket get_resolution get_bucket_for_image_size w0
        = (Ok false, w0)).
Proof.
  intros it iw ih target b0 search.
  split.
  { unfold search, search_fuel. apply poi_search_finishes; simpl; lia. }
  split.
  { intros fuel Hf. unfold search, search_fuel.
    apply poi_search_fuel; simpl; lia. }
  split.
  { intros b' n w1 H. unfold search in H.
    apply poi_search_result in H; [|lia]. destruct H as [_ [Hn _]]. exact Hn. }
  split.
  - intros n w1 r Hr Hlt H. unfold search in H.
    pose proof H as Hres. apply poi_search_result in Hres; [|lia].
    destruct Hres as [Hi Hn].
    assert (Hs : setup_poi_bucket get_resolution get_bucket_for_image_size w0
                 = (Ok false, w1)).
    { unfold setup_poi_bucket. unfold bind at 1. unfold self at 1.
      unfold bind at 1, lift_res. fold it iw ih. rewrite Hr. fold target.
      rewrite (proj2 (Z.leb_gt r target) Hlt).
      fold b0. rewrite (bind_run _ H). reflexivity. }
    repeat split; try assumption.
    intros Hp. unfold bucket_item. unfold bind at 1. unfold self at 1.
    fold it. rewrite Hp. rewrite (bind_run _ Hs). reflexivity.
  - intros r Hr Hle.
    unfold setup_poi_bucket. unfold bind at 1. unfold self at 1.
    unfold bind at 1, lift_res. fold it iw ih. rewrite Hr. fold target.
    rewrite (proj2 (Z.leb_le r target) Hle). reflexivity.
Qed.

End PoiBucket.

(** The bound is reached: when no window is ever large enough, 100 passes
    do not finish the loop and the 101st leaves it. *)
Example poi_search_exhaustion :
  let w0 := mkWorld SampleBuckets.with_poi Sample.zero_rng in
  let b0 := mkBox 800 0 200 1000 in
  fst (poi_search SampleBuckets.no_resolution 100 512 1000 1000 b0 0 w0)
  = Ok None
  /\ fst (poi_search SampleBuckets.no_resolution 101 512 1000 1000 b0 0 w0)
     = Ok (Some (GaveUp 101)).
Proof. vm_compute. split; reflexivity. Qed.

(** ** Geometry of one item *)

Section ItemGeometry.

Variable get_resolution : Z -> Z -> res Z.
Variable get_bucket_for_image_size :
  Z -> Z -> Z -> Z -> res bucket_resolution.

Lemma bucket_item_unfold (config : DatasetConfig) (w0 : world) :
  bucket_item get_resolution get_bucket_for_image_size config w0
  = match poi_outcome get_resolution get_bucket_for_image_size w0 with
    | (Ok false, w1) =>
        standard_bucket get_bucket_for_image_size config
          (scaled (width (item w0)) (item w0))
          (scaled (height (item w0)) (item w0)) w1
    | (Ok true, w1) => (Ok tt, w1)
    | (Raise e, w1) => (Raise e, w1)
    end.
Proof.
  unfold bucket_item, poi_outcome. unfold bind at 1. unfold self at 1.
  unfold bind at 1.
  destruct (has_point_of_interest (item w0)).
  - destruct (setup_poi_bucket get_resolution get_bucket_for_image_size w0)
      as [[[|]|e] w1]; reflexivity.
  - reflexivity.
Qed.

Lemma poi_outcome_false (w0 w1 : world) :
  poi_outcome get_resolution get_bucket_for_image_size w0 = (Ok false, w1) -> item w1 = item w0.
Proof.
  unfold poi_outcome. destruct (has_point_of_interest (item w0)).
  - apply setup_poi_bucket_false.
  - intros H. injection H as <-. reflexivity.
Qed.


End ItemGeometry.


Example standard_path_sample :
  geometry (item (snd (bucket_item SampleBuckets.get_resolution
                         SampleBuckets.get_bucket_for_image_size Sample.config
                         (mkWorld SampleBuckets.plain Sample.zero_rng))))
  = (598, 448, 11, 0, 576, 448).
Proof. vm_compute. reflexivity. Qed.

(** ** The crop lies inside the scaled image *)

(** The arithmetic of the point-of-interest path on one axis: a window
    [[x, x + n]] inside an axis of length [iw], scaled by a factor [m] of at
    least [c / n], holds a crop of length [c] at [int(x * m)]. *)
Lemma poi_axis_fits (iw x n c : Z) (m : Q) :
  0 <= x -> 0 < n -> x + n <= iw ->
  (0 <= m)%Q -> (Py.truediv c n <= m)%Q ->
  Py.int_of (inject_Z x * m) + c <= Py.ceil (inject_Z iw * m).
Proof.
  intros Hx Hn Hin Hm Hc.
  assert (Hxm : (0 <= inject_Z x * m)%Q).
  { apply Qmult_le_0_compat; [apply inject_Z_nonneg, Hx|exact Hm]. }
  rewrite Zle_Qle, inject_Z_plus.
  eapply Qle_trans; [|apply ceil_le].
  eapply Qle_trans.
  - apply Qplus_le_compat; [apply int_of_le, Hxm|].
    apply (scale_covers n c m Hn Hc).
  - rewrite <- Qmult_plus_distr_l, <- inject_Z_plus.
    apply Qmult_le_compat_r; [|exact Hm].
    rewrite <- Zle_Qle. exact Hin.
Qed.

Section CropFits.

Variable get_resolution : Z -> Z -> res Z.
Variable get_bucket_for_image_size :
  Z -> Z -> Z -> Z -> res bucket_resolution.

(** The bucket lookup returns no negative dimension. *)
Hypothesis bucket_nonneg :
  forall (w h r d : Z) (br : bucket_resolution),
    get_bucket_for_image_size w h r d = Ok br ->
    0 <= res_width br /\ 0 <= res_height br.

Lemma poi_apply_window_fits (iw ih : Z) (b : box) (w w' : world) (r : bool) :
  window_ok iw ih b ->
  poi_apply_window get_bucket_for_image_size iw ih b w = (Ok r, w') ->
  crop_x (item w') + crop_width (item w') <= scale_to_width (item w')
  /\ crop_y (item w') + crop_height (item w') <= scale_to_height (item w').
Proof.
  unfold window_ok, poi_apply_window. intros Hwin H.
  apply bind_ok in H. destruct H as (it & w1 & Hs & H).
  unfold self in Hs. injection Hs as <- <-.
  apply bind_ok in H. destruct H as (br & w2 & Hbr & H).
  unfold lift_res in Hbr. injection Hbr as Hbr <-.
  destruct (bucket_nonneg _ _ _ _ _ Hbr) as [Hbw Hbh].
  rewrite (proj2 (Z.eqb_neq (bw b) 0)) in H by lia.
  rewrite (proj2 (Z.eqb_neq (bh b) 0)) in H by lia.
  apply bind_ok in H. destruct H as ([] & w3 & H3 & H).
  unfold update_item, modify in H3. injection H3 as <-.
  apply bind_ok in H. destruct H as ([] & w4 & H4 & H).
  unfold update_item, modify in H4. injection H4 as <-.
  apply bind_ok in H. destruct H as ([] & w5 & H5 & H).
  unfold update_item, modify in H5. injection H5 as <-.
  unfold ret in H. injection H as _ <-.
  cbn [item crop_x crop_y crop_width crop_height scale_to_width
       scale_to_height set_crop_xy set_crop_size set_scale_to].
  set (m := Py.max (Py.truediv (res_width br) (bw b))
                   (Py.truediv (res_height br) (bh b))).
  assert (Hm : (0 <= m)%Q).
  { eapply Qle_trans; [|apply max_ge_l]. apply truediv_nonneg; lia. }
  split.
  - apply poi_axis_fits with (n := bw b);
      [lia|lia|lia|exact Hm|apply max_ge_l].
  - apply poi_axis_fits with (n := bh b);
      [lia|lia|lia|exact Hm|apply max_ge_r].
Qed.

Lemma setup_poi_bucket_fits (w0 w' : world) :
  let it := item w0 in
  let iw := scaled (width it) it in
  let ih := scaled (height it) it in
  0 < iw -> 0 < ih ->
  box_ok iw ih (mkBox (scaled (poi_x it) it) (scaled (poi_y it) it)
                      (scaled (poi_width it) it) (scaled (poi_height it) it)) ->
  setup_poi_bucket get_resolution get_bucket_for_image_size w0
  = (Ok true, w') ->
  crop_x (item w') + crop_width (item w') <= scale_to_width (item w')
  /\ crop_y (item w') + crop_height (item w') <= scale_to_height (item w').
Proof.
  intros it iw ih Hiw Hih Hbox H. unfold setup_poi_bucket in H.
  apply bind_ok in H. destruct H as (it1 & wa & Ha & H).
  unfold self in Ha. injection Ha as <- <-.
  apply bind_ok in H. destruct H as (r & wb & Hb & H).
  unfold lift_res in Hb. injection Hb as Hb <-.
  destruct (r <=? resolution (dataset_config (item w0)));
    [unfold ret in H; discriminate H|].
  apply bind_ok in H. destruct H as (sr & wc & Hc & H).
  destruct sr as [[b' k|k]|]; [|unfold ret in H; discriminate H
                               |discriminate H].
  apply poi_search_window in Hc; [|exact Hiw|exact Hih|exact Hbox].
  eapply poi_apply_window_fits; [exact Hc|exact H].
Qed.

(** One turn of the loop: once the geometry of an item with positive scaled
    dimensions is set (and, when it has a point of interest, a region of
    positive size that starts inside the image), the crop rectangle lies
    inside the scaled image, on the standard path and on the
    point-of-interest path. *)
Lemma bucket_item_crop_fits (config : DatasetConfig) (w0 w' : world) :
  let it := item w0 in
  let iw := scaled (width it) it in
  let ih := scaled (height it) it in
  0 < iw -> 0 < ih ->
  (has_point_of_interest it = true ->
   box_ok iw ih (mkBox (scaled (poi_x it) it) (scaled (poi_y it) it)
                       (scaled (poi_width it) it) (scaled (poi_height it) it))) ->
  bucket_item get_resolution get_bucket_for_image_size config w0
  = (Ok tt, w') ->
  crop_x (item w') + crop_width (item w') <= scale_to_width (item w')
  /\ crop_y (item w') + crop_height (item w') <= scale_to_height (item w').
Proof.
  intros it iw ih Hiw Hih Hbox Hrun.
  destruct (poi_outcome get_resolution get_bucket_for_image_size w0)
    as [[[|]|e] w1] eqn:Hpoi.
  - (* the point-of-interest path *)
    rewrite bucket_item_unfold, Hpoi in Hrun. injection Hrun as <-.
    unfold poi_outcome in Hpoi.
    destruct (has_point_of_interest (item w0)) eqn:Hp; [|discriminate Hpoi].
    apply (setup_poi_bucket_fits w0 w1 Hiw Hih (Hbox Hp) Hpoi).
  - (* the standard path *)
    rewrite bucket_item_unfold, Hpoi in Hrun.
    apply (standard_bucket_fits get_bucket_for_image_size config
             _ _ w1 w' Hiw Hih Hrun).
  - rewrite bucket_item_unfold, Hpoi in Hrun. discriminate Hrun.
Qed.

End CropFits.

(** ** Bucket keys *)

Lemma uint_no_x (d : Decimal.uint) : no_x (NilEmpty.string_of_uint d) = true.
Proof. induction d; simpl; auto. Qed.

Lemma str_no_x (n : Z) : no_x (Py.str n) = true.
Proof.
  unfold Py.str. destruct (Z.to_int n) as [d|d]; simpl;
    destruct d; simpl; try reflexivity; apply uint_no_x.
Qed.

Lemma str_inj (n m : Z) : Py.str n = Py.str m -> n = m.
Proof.
  assert (Hnz : forall k : Z,
             NilZero.int_of_string (Py.str k) = Some (Z.to_int k)).
  { intros k. unfold Py.str. apply NilZero.isi.
    - destruct k; simpl; try discriminate.
      intros E. injection E as E.
      apply (DecimalPos.Unsigned.to_uint_nonnil _ E).
    - destruct k; simpl; try discriminate.
      intros E. injection E as E.
      apply (DecimalPos.Unsigned.to_uint_nonnil _ E). }
  intros H. apply DecimalZ.to_int_inj.
  pose proof (Hnz n) as Hn. rewrite H, Hnz in Hn. congruence.
Qed.

Lemma append_x_inj (s1 : string) :
  forall (s2 t1 t2 : string),
    no_x s1 = true -> no_x s2 = true ->
    String.append s1 (String "x"%char t1) = String.append s2 (String "x"%char t2) ->
    s1 = s2 /\ t1 = t2.
Proof.
  induction s1 as [|a s1 IH]; intros [|b s2] t1 t2 H1 H2 H; simpl in *.
  - injection H as ->. auto.
  - injection H as <- _. simpl in H2. discriminate H2.
  - injection H as -> _. simpl in H1. discriminate H1.
  - injection H as -> H.
    apply andb_true_iff in H1, H2. destruct H1 as [_ H1], H2 as [_ H2].
    destruct (IH s2 t1 t2 H1 H2 H) as [-> ->]. auto.
Qed.

(** A key names one bucket size. *)
Lemma bucket_key_inj (w h w' h' : Z) :
  bucket_key w h = bucket_key w' h' -> w = w' /\ h = h'.
Proof.
  unfold bucket_key. intros H.
  apply append_x_inj in H; [|apply str_no_x|apply str_no_x].
  destruct H as [Hw Hh]. split; apply str_inj; assumption.
Qed.

Example bucket_key_sample : bucket_key 512 768 = "512x768".
Proof. reflexivity. Qed.

(** ** The dict of buckets *)

Lemma dict_get_In (key : string) (d : list (string * Bucket.t)) (b : Bucket.t) :
  dict_get key d = Some b -> In (key, b) d.
Proof.
  induction d as [|[k b0] r IH]; simpl; [discriminate|].
  destruct (String.eqb_spec k key) as [->|Hne].
  - intros H. injection H as ->. left. reflexivity.
  - intros H. right. apply IH, H.
Qed.

Lemma dict_append_In (key : string) (idx : nat)
    (d : list (string * Bucket.t)) (k : string) (b : Bucket.t) :
  In (k, b) (dict_append key idx d) ->
  In (k, b) d
  \/ (k = key /\ exists b0 : Bucket.t, In (key, b0) d /\ b = Bucket.append idx b0).
Proof.
  induction d as [|[k0 b0] r IH]; simpl; [tauto|].
  destruct (String.eqb_spec k0 key) as [->|Hne]; simpl.
  - intros [H|H].
    + injection H as <- <-. right. split; [reflexivity|].
      exists b0. split; [left; reflexivity|reflexivity].
    + left. right. exact H.
  - intros [H|H].
    + left. left. exact H.
    + destruct (IH H) as [Hin|(-> & b1 & Hin & ->)].
      * left. right. exact Hin.
      * right. split; [reflexivity|]. exists b1. split; [right; exact Hin|reflexivity].
Qed.

Lemma dict_append_new (key : string) (idx : nat)
    (d : list (string * Bucket.t)) (b0 : Bucket.t) :
  dict_get key d = None ->
  dict_append key idx (d ++ [(key, b0)])
  = d ++ [(key, Bucket.append idx b0)].
Proof.
  induction d as [|[k b] r IH]; simpl.
  - intros _. rewrite String.eqb_refl. reflexivity.
  - destruct (String.eqb k key); [discriminate|].
    intros H. rewrite (IH H). reflexivity.
Qed.

(** What a bucket of the dict is after [add_to_bucket]: a bucket that was
    there, or the bucket of the key, old or new, with the index added. *)
Lemma add_to_bucket_In (w h : Z) (idx : nat) (d : list (string * Bucket.t))
    (k : string) (b : Bucket.t) :
  In (k, b) (add_to_bucket w h idx d) ->
  In (k, b) d
  \/ (k = bucket_key w h
      /\ exists b0 : Bucket.t,
           (In (k, b0) d \/ b0 = Bucket.mk w h [])
           /\ b = Bucket.append idx b0).
Proof.
  unfold add_to_bucket. intros H.
  destruct (dict_get (bucket_key w h) d) as [b1|] eqn:Eg.
  - apply dict_append_In in H.
    destruct H as [H|(-> & b0 & Hin & ->)]; [left; exact H|].
    right. split; [reflexivity|]. exists b0. auto.
  - rewrite (dict_append_new _ idx d _ Eg) in H.
    apply in_app_or in H. destruct H as [H|[H|[]]]; [left; exact H|].
    injection H as <- <-. right. split; [reflexivity|].
    exists (Bucket.mk w h []). auto.
Qed.

(** ** Lists updated in place *)

Lemma list_set_length {A : Type} (i : nat) (x : A) (l : list A) :
  List.length (list_set i x l) = List.length l.
Proof.
  unfold list_set. destruct (Nat.ltb_spec i (List.length l)) as [H|H];
    [|reflexivity].
  rewrite length_app, length_firstn.
  change (List.length (x :: skipn (S i) l))
    with (S (List.length (skipn (S i) l))).
  rewrite length_skipn. lia.
Qed.

Lemma list_set_same {A : Type} (i : nat) (x : A) (l : list A) :
  (i < List.length l)%nat -> nth_error (list_set i x l) i = Some x.
Proof.
  intros H. unfold list_set. rewrite (proj2 (Nat.ltb_lt _ _) H).
  rewrite nth_error_app2; rewrite length_firstn, Nat.min_l by lia; [|lia].
  rewrite Nat.sub_diag. reflexivity.
Qed.

Lemma list_set_other {A : Type} (i j : nat) (x : A) (l : list A) :
  i <> j -> nth_error (list_set i x l) j = nth_error l j.
Proof.
  intros Hne. unfold list_set.
  destruct (Nat.ltb_spec i (List.length l)) as [H|H]; [|reflexivity].
  destruct (Nat.lt_ge_cases j i) as [Hlt|Hge].
  - rewrite nth_error_app1 by (rewrite length_firstn; lia).
    rewrite nth_error_firstn, (proj2 (Nat.ltb_lt _ _) Hlt). reflexivity.
  - rewrite nth_error_app2; rewrite length_firstn, Nat.min_l by lia; [|lia].
    destruct (j - i)%nat as [|d] eqn:Ed; [lia|].
    change (nth_error (x :: skipn (S i) l) (S d))
      with (nth_error (skipn (S i) l) d).
    rewrite nth_error_skipn. f_equal. lia.
Qed.

Lemma nth_error_split {A : Type} (l : list A) :
  forall (i : nat) (y : A),
    nth_error l i = Some y -> l = firstn i l ++ y :: skipn (S i) l.
Proof.
  induction l as [|a r IH]; intros [|i] y H; simpl in *; try discriminate.
  - injection H as ->. reflexivity.
  - f_equal. apply IH, H.
Qed.

(** Writing [x] over [y] trades one for the other. *)
Lemma list_set_perm {A : Type} (i : nat) (x y : A) (l : list A) :
  nth_error l i = Some y -> Permutation (x :: l) (y :: list_set i x l).
Proof.
  intros H.
  assert (Hlt : (i < List.length l)%nat).
  { apply nth_error_Some. rewrite H. discriminate. }
  unfold list_set. rewrite (proj2 (Nat.ltb_lt _ _) Hlt).
  rewrite (nth_error_split l i y H) at 1.
  eapply perm_trans; [apply perm_skip; symmetry; apply Permutation_middle|].
  eapply perm_trans; [apply perm_swap|].
  apply perm_skip. apply Permutation_middle.
Qed.

Lemma swap_into_perm {A : Type} (l : list A) (i j : nat) :
  Permutation l (swap_into l i j).
Proof.
  unfold swap_into.
  destruct (nth_error l i) as [x|] eqn:Ei; [|apply Permutation_refl].
  destruct (nth_error l j) as [y|] eqn:Ej; [|apply Permutation_refl].
  assert (Hi : (i < List.length l)%nat).
  { apply nth_error_Some. rewrite Ei. discriminate. }
  pose proof (list_set_perm i y x l Ei) as P1.
  destruct (Nat.eq_dec i j) as [<-|Hne].
  - rewrite Ei in Ej. injection Ej as <-.
    pose proof (list_set_same i x l Hi) as Hs.
    pose proof (list_set_perm i x x (list_set i x l) Hs) as P2.
    apply Permutation_cons_inv with (a := x).
    eapply perm_trans; [exact P1|exact P2].
  - assert (Hj : nth_error (list_set i y l) j = Some y)
      by (rewrite list_set_other by exact Hne; exact Ej).
    pose proof (list_set_perm j x y (list_set i y l) Hj) as P2.
    apply Permutation_cons_inv with (a := y).
    eapply perm_trans; [exact P1|exact P2].
Qed.

Lemma shuffle_from_perm {A : Type} (i : nat) :
  forall (l : list A) (g : Rng), Permutation l (fst (shuffle_from i l g)).
Proof.
  induction i as [|i IH]; intros l g; simpl.
  - apply Permutation_refl.
  - eapply perm_trans; [apply swap_into_perm|apply IH].
Qed.

(** [random.shuffle] rearranges the list. *)
Lemma shuffle_perm {A : Type} (l : list A) (g : Rng) :
  Permutation l (fst (shuffle l g)).
Proof. apply shuffle_from_perm. Qed.

(** ** The loop of [setup_buckets] *)

Lemma for_each_seq_inv {St : Type} (body : nat -> M St unit)
    (I : nat -> St -> Prop) (len : nat) :
  forall (start : nat) (s s' : St),
    I start s ->
    (forall (k : nat) (s1 s2 : St),
        (start <= k < start + len)%nat ->
        I k s1 -> body k s1 = (Ok tt, s2) -> I (S k) s2) ->
    for_each (seq start len) body s = (Ok tt, s') ->
    I (start + len)%nat s'.
Proof.
  induction len as [|len IH]; intros start s s' H0 Hstep Hrun; simpl in Hrun.
  - unfold ret in Hrun. injection Hrun as <-.
    rewrite Nat.add_0_r. exact H0.
  - apply bind_ok in Hrun. destruct Hrun as ([] & s1 & Hb & Hrun).
    replace (start + S len)%nat with (S start + len)%nat by lia.
    apply (IH (S start) s1 s').
    + apply (Hstep start s s1); [lia|exact H0|exact Hb].
    + intros k sa sb Hk. apply Hstep. lia.
    + exact Hrun.
Qed.

Section DatasetBuckets.

Variable get_resolution : Z -> Z -> res Z.
Variable get_bucket_for_image_size :
  Z -> Z -> Z -> Z -> res bucket_resolution.

Lemma setup_item_ok (k : nat) (s1 s2 : ds_world) :
  setup_item get_resolution get_bucket_for_image_size k s1 = (Ok tt, s2) ->
  exists (itk : FileItemDTO) (w' : world),
    nth_error (file_list (ds s1)) k = Some itk
    /\ bucket_item get_resolution get_bucket_for_image_size
         (ds_config (ds s1)) (mkWorld itk (ds_rng s1)) = (Ok tt, w')
    /\ s2 = mkDsWorld
              (set_buckets
                 (add_to_bucket (crop_width (item w')) (crop_height (item w'))
                    k (buckets (ds s1)))
                 (set_file_list (list_set k (item w') (file_list (ds s1)))
                    (ds s1)))
              (rng w').
Proof.
  unfold setup_item. intros H.
  apply bind_ok in H. destruct H as (s & sa & Hg & H).
  unfold get in Hg. injection Hg as <- <-.
  apply bind_ok in H. destruct H as ([] & sb & Hw & H).
  unfold with_item in Hw.
  destruct (nth_error (file_list (ds s1)) k) as [itk|] eqn:Ek;
    [|discriminate Hw].
  destruct (bucket_item get_resolution get_bucket_for_image_size
              (ds_config (ds s1)) (mkWorld itk (ds_rng s1)))
    as [r w'] eqn:Eb.
  injection Hw as -> <-.
  apply bind_ok in H. destruct H as (s & sc & Hg & H).
  unfold get in Hg. injection Hg as <- <-.
  assert (Hk : (k < List.length (file_list (ds s1)))%nat).
  { apply nth_error_Some. rewrite Ek. discriminate. }
  simpl in H. rewrite (list_set_same k (item w') _ Hk) in H.
  unfold update_ds, modify in H. injection H as <-.
  exists itk, w'. split; [reflexivity|]. split; [exact Eb|reflexivity].
Qed.

Lemma setup_item_step (config : DatasetConfig) (fl0 : list FileItemDTO)
    (k : nat) (s1 s2 : ds_world) :
  loop_inv get_resolution get_bucket_for_image_size config fl0 k s1 ->
  setup_item get_resolution get_bucket_for_image_size k s1 = (Ok tt, s2) ->
  loop_inv get_resolution get_bucket_for_image_size config fl0 (S k) s2.
Proof.
  intros (Hc & Hlen & Hrest & Hdone & Hinv & Hidx) H.
  apply setup_item_ok in H. destruct H as (itk & w' & Ek & Eb & ->).
  assert (Hk : (k < List.length (file_list (ds s1)))%nat).
  { apply nth_error_Some. rewrite Ek. discriminate. }
  unfold loop_inv. simpl.
  split; [exact Hc|].
  split; [rewrite list_set_length; exact Hlen|].
  split.
  { intros i Hi. rewrite list_set_other by lia. apply Hrest. lia. }
  split.
  { intros i Hi. destruct (Nat.eq_dec i k) as [->|Hne].
    - exists itk, (item w'). rewrite <- Hrest by lia.
      split; [exact Ek|]. split; [apply list_set_same, Hk|].
      exists (ds_rng s1), w'. rewrite <- Hc. split; [exact Eb|reflexivity].
    - rewrite list_set_other by lia. apply Hdone. lia. }
  split.
  - intros key b Hin. apply add_to_bucket_In in Hin.
    destruct Hin as [Hin|(Hkey & b0 & Hb0 & ->)].
    + destruct (Hinv key b Hin) as [Hk1 Hmem]. split; [exact Hk1|].
      intros i Hi. pose proof (Hidx key b i Hin Hi) as Hlt.
      rewrite list_set_other by lia. apply Hmem, Hi.
    + assert (Hsize : Bucket.width b0 = crop_width (item w')
                      /\ Bucket.height b0 = crop_height (item w')
                      /\ forall i : nat,
                           In i (Bucket.file_list_idx b0) ->
                           (i < k)%nat
                           /\ exists it : FileItemDTO,
                                nth_error (file_list (ds s1)) i = Some it
                                /\ crop_width it = Bucket.width b0
                                /\ crop_height it = Bucket.height b0).
      { destruct Hb0 as [Hin| ->].
        - destruct (Hinv key b0 Hin) as [Hk1 Hmem].
          rewrite Hkey in Hk1. apply bucket_key_inj in Hk1.
          destruct Hk1 as [Hw Hh].
          split; [symmetry; exact Hw|]. split; [symmetry; exact Hh|].
          intros i Hi. split; [apply (Hidx key b0 i Hin Hi)|apply Hmem, Hi].
        - simpl. split; [reflexivity|]. split; [reflexivity|].
          intros i []. }
      destruct Hsize as (Hw & Hh & Hmem). simpl.
      split; [rewrite Hw, Hh; exact Hkey|].
      intros i Hi. apply in_app_or in Hi. destruct Hi as [Hi|[<-|[]]].
      * destruct (Hmem i Hi) as [Hlt Hit].
        rewrite list_set_other by lia. exact Hit.
      * exists (item w'). rewrite list_set_same by exact Hk. auto.
  - intros key b i Hin Hi. apply add_to_bucket_In in Hin.
    destruct Hin as [Hin|(Hkey & b0 & Hb0 & ->)].
    + pose proof (Hidx key b i Hin Hi). lia.
    + simpl in Hi. apply in_app_or in Hi. destruct Hi as [Hi|[<-|[]]]; [|lia].
      destruct Hb0 as [Hin| ->]; [|destruct Hi].
      pose proof (Hidx key b0 i Hin Hi). lia.
Qed.

End DatasetBuckets.

(** ** [setup_buckets] on a dataset *)

Lemma shuffle_all_In (d : list (string * Bucket.t)) :
  forall (g : Rng) (k : string) (b' : Bucket.t),
    In (k, b') (fst (shuffle_all d g)) ->
    exists b : Bucket.t,
      In (k, b) d
      /\ Bucket.width b' = Bucket.width b
      /\ Bucket.height b' = Bucket.height b
      /\ Permutation (Bucket.file_list_idx b) (Bucket.file_list_idx b').
Proof.
  induction d as [|[k0 b0] r IH]; intros g k b' H; simpl in H.
  - destruct H.
  - pose proof (shuffle_perm (Bucket.file_list_idx b0) g) as Hp.
    destruct (shuffle (Bucket.file_list_idx b0) g) as [l' g'].
    specialize (IH g' k b').
    destruct (shuffle_all r g') as [r' g''].
    simpl in H, Hp, IH. destruct H as [H|H].
    + injection H as <- <-. exists b0. simpl.
      split; [left; reflexivity|]. split; [reflexivity|].
      split; [reflexivity|exact Hp].
    + destruct (IH H) as (b & Hin & Hrest). exists b.
      split; [right; exact Hin|exact Hrest].
Qed.

Section SetupBuckets.

Variable get_resolution : Z -> Z -> res Z.
Variable get_bucket_for_image_size :
  Z -> Z -> Z -> Z -> res bucket_resolution.

Lemma bucket_inv_shuffle (fl : list FileItemDTO)
    (d : list (string * Bucket.t)) (g : Rng) :
  bucket_inv fl d -> bucket_inv fl (fst (shuffle_all d g)).
Proof.
  intros Hinv key b' Hin.
  apply shuffle_all_In in Hin.
  destruct Hin as (b & Hin & Hw & Hh & Hp).
  destruct (Hinv key b Hin) as [Hk Hmem].
  rewrite Hw, Hh. split; [exact Hk|].
  intros i Hi. apply Hmem.
  apply Permutation_in with (l := Bucket.file_list_idx b');
    [symmetry; exact Hp|exact Hi].
Qed.

(** The two ways [setup_buckets] completes. *)
Lemma setup_buckets_ok (s s' : ds_world) :
  setup_buckets get_resolution get_bucket_for_image_size s = (Ok tt, s') ->
  (~ rebuilds (ds s) /\ s' = s)
  \/ (rebuilds (ds s)
      /\ exists s1 : ds_world,
           for_each (seq 0 (List.length (file_list (ds s))))
             (setup_item get_resolution get_bucket_for_image_size)
             (mkDsWorld (set_buckets [] (ds s)) (ds_rng s)) = (Ok tt, s1)
           /\ file_list (ds s') = file_list (ds s1)
           /\ buckets (ds s')
              = fst (shuffle_all (buckets (ds s1)) (ds_rng s1))).
Proof.
  unfold setup_buckets. intros H.
  apply bind_ok in H. destruct H as (s0 & sa & Hg & H).
  unfold get in Hg. injection Hg as <- <-.
  destruct (0 <? epoch_num (ds s)) eqn:Ee;
    [destruct (poi (ds_config (ds s))) eqn:Ep|]; cbn [andb] in H.
  - right. split; [right; rewrite Ep; discriminate|].
    apply bind_ok in H. destruct H as ([] & sb & Hb & H).
    unfold update_ds, modify in Hb. injection Hb as <-.
    apply bind_ok in H. destruct H as ([] & s1 & Hloop & H).
    apply bind_ok in H. destruct H as ([] & s2 & Hsh & H).
    unfold shuffle_buckets in Hsh.
    destruct (shuffle_all (buckets (ds s1)) (ds_rng s1)) as [d g] eqn:Es.
    injection Hsh as <-.
    unfold build_batch_indices in H.
    apply bind_ok in H. destruct H as ([] & s3 & H3 & H).
    unfold update_ds, modify in H3. injection H3 as <-.
    apply bind_ok in H. destruct H as (s4 & s5 & Hg & H).
    unfold get in Hg. injection Hg as <- <-.
    apply bind_ok in H. destruct H as (bi & s6 & Hbi & H).
    unfold lift_res in Hbi. injection Hbi as _ <-.
    unfold update_ds, modify in H. injection H as <-.
    exists s1. cbn [ds file_list buckets set_batch_indices set_buckets fst].
    split; [exact Hloop|]. split; [reflexivity|rewrite Es; reflexivity].
  - left. apply Z.ltb_lt in Ee. unfold ret in H. injection H as <-.
    split; [|reflexivity]. unfold rebuilds. rewrite Ep.
    intros [Hc|Hc]; [lia|apply Hc; reflexivity].
  - right. apply Z.ltb_ge in Ee. split; [left; exact Ee|].
    apply bind_ok in H. destruct H as ([] & sb & Hb & H).
    unfold update_ds, modify in Hb. injection Hb as <-.
    apply bind_ok in H. destruct H as ([] & s1 & Hloop & H).
    apply bind_ok in H. destruct H as ([] & s2 & Hsh & H).
    unfold shuffle_buckets in Hsh.
    destruct (shuffle_all (buckets (ds s1)) (ds_rng s1)) as [d g] eqn:Es.
    injection Hsh as <-.
    unfold build_batch_indices in H.
    apply bind_ok in H. destruct H as ([] & s3 & H3 & H).
    unfold update_ds, modify in H3. injection H3 as <-.
    apply bind_ok in H. destruct H as (s4 & s5 & Hg & H).
    unfold get in Hg. injection Hg as <- <-.
    apply bind_ok in H. destruct H as (bi & s6 & Hbi & H).
    unfold lift_res in Hbi. injection Hbi as _ <-.
    unfold update_ds, modify in H. injection H as <-.
    exists s1. cbn [ds file_list buckets set_batch_indices set_buckets fst].
    split; [exact Hloop|]. split; [reflexivity|rewrite Es; reflexivity].
Qed.

(** The loop, run from the emptied dict, ends in [loop_inv] at the length
    of the list. *)
Lemma setup_loop_inv (s s1 : ds_world) :
  for_each (seq 0 (List.length (file_list (ds s))))
    (setup_item get_resolution get_bucket_for_image_size)
    (mkDsWorld (set_buckets [] (ds s)) (ds_rng s)) = (Ok tt, s1) ->
  loop_inv get_resolution get_bucket_for_image_size
    (ds_config (ds s)) (file_list (ds s))
    (List.length (file_list (ds s))) s1.
Proof.
  intros H.
  apply (for_each_seq_inv
           (setup_item get_resolution get_bucket_for_image_size)
           (loop_inv get_resolution get_bucket_for_image_size
              (ds_config (ds s)) (file_list (ds s)))
           (List.length (file_list (ds s))) 0
           (mkDsWorld (set_buckets [] (ds s)) (ds_rng s)) s1).
  - unfold loop_inv. simpl.
    split; [reflexivity|]. split; [reflexivity|].
    split; [reflexivity|].
    split; [intros i Hi; lia|].
    split; [intros key b []|intros key b i []].
  - intros k sa sb _. apply setup_item_step.
  - exact H.
Qed.

End SetupBuckets.




Lemma sample_bucket_nonneg (w h r d : Z) (br : bucket_resolution) :
  SampleBuckets.get_bucket_for_image_size w h r d = Ok br ->
  0 <= res_width br /\ 0 <= res_height br.
Proof.
  unfold SampleBuckets.get_bucket_for_image_size.
  destruct (d =? 0); [discriminate|].
  destruct (h <? w); [|destruct (w <? h)]; intros H; injection H as <-;
    simpl; lia.
Qed.

Lemma sample_dataset_measurable (it : FileItemDTO) :
  In it (file_list (ds SampleBuckets.dataset)) -> measurable it.
Proof.
  intros [<-|[<-|[<-|[]]]]; unfold measurable;
    (split; [reflexivity|]); (split; [reflexivity|]); discriminate.
Qed.


(** ** The region of interest and the final crop *)

Lemma Qmult_le_l_nonneg (x y z : Q) :
  (0 <= z)%Q -> (x <= y)%Q -> (z * x <= z * y)%Q.
Proof.
  intros Hz Hxy. rewrite (Qmult_comm z x), (Qmult_comm z y).
  apply Qmult_le_compat_r; assumption.
Qed.

Lemma scaled_axis_ge (iw n c : Z) (m : Q) :
  0 < n -> 0 <= iw -> (Py.truediv c n <= m)%Q ->
  iw * c <= n * Py.ceil (inject_Z iw * m).
Proof.
  intros Hn Hiw Hc.
  rewrite Zle_Qle, !inject_Z_mult.
  apply Qle_trans with (inject_Z iw * (inject_Z n * m))%Q.
  - apply Qmult_le_l_nonneg; [apply inject_Z_nonneg, Hiw|].
    apply scale_covers; assumption.
  - apply Qle_trans with (inject_Z n * (inject_Z iw * m))%Q.
    + assert (E : (inject_Z iw * (inject_Z n * m)
                   == inject_Z n * (inject_Z iw * m))%Q) by ring.
      rewrite E. apply Qle_refl.
    + apply Qmult_le_l_nonneg; [apply inject_Z_nonneg; lia|apply ceil_le].
Qed.

Lemma poi_attempt_sample :
  poi_attempt 1000 1000 (mkBox 800 0 200 1000)
    (mkWorld SampleBuckets.with_poi SampleBuckets.rng_0_400)
  = (Ok (mkBox 0 0 600 1000),
     mkWorld SampleBuckets.with_poi
       (mkRng (draws SampleBuckets.rng_0_400) 2)).
Proof. vm_compute. reflexivity. Qed.

(** C2 at a failing input.  The item is 1000x1000 with scale 1 and target
    resolution 512; its region of interest is the right fifth of the image
    (x = 800, y = 0, 200 wide, 1000 high); the generator returns 0 for the
    left edge and 600 for the right edge of the window.  Whatever bucket
    of positive size the lookup returns for the 600x1000 window, the
    search succeeds and the crop it sets ends left of the scaled region:
    the crop does not hold the region. *)
Theorem poi_crop_misses_region
    (get_resolution : Z -> Z -> res Z)
    (get_bucket_for_image_size : Z -> Z -> Z -> Z -> res bucket_resolution)
    (r0 r1 : Z) (br : bucket_resolution) :
  get_resolution 1000 1000 = Ok r0 -> 512 < r0 ->
  get_resolution 600 1000 = Ok r1 -> 512 <= r1 ->
  get_bucket_for_image_size 600 1000 512 64 = Ok br ->
  0 < res_width br -> 0 < res_height br ->
  let out := setup_poi_bucket get_resolution get_bucket_for_image_size
               (mkWorld SampleBuckets.with_poi SampleBuckets.rng_0_400) in
  let it' := item (snd out) in
  fst out = Ok true
  /\ crop_x it' = 0
  /\ crop_width it' = res_width br
  /\ (crop_x it' + crop_width it') * 1000 < 800 * scale_to_width it'
  /\ ~ crop_holds_region 1000 1000 (mkBox 800 0 200 1000) it'.
Proof.
  intros H0 Hr0 H1 Hr1 Hb Hbw Hbh out it'.
  assert (Hrun : out
    = poi_apply_window get_bucket_for_image_size 1000 1000
        (mkBox 0 0 600 1000)
        (mkWorld SampleBuckets.with_poi
           (mkRng (draws SampleBuckets.rng_0_400) 2))).
  { unfold out, setup_poi_bucket. unfold bind at 1. unfold self at 1.
    cbn [item].
    change (scaled (width SampleBuckets.with_poi) SampleBuckets.with_poi)
      with 1000.
    change (scaled (height SampleBuckets.with_poi) SampleBuckets.with_poi)
      with 1000.
    unfold bind at 1, lift_res. rewrite H0.
    change (resolution (dataset_config SampleBuckets.with_poi)) with 512.
    rewrite (proj2 (Z.leb_gt r0 512) Hr0).
    change (mkBox (scaled (poi_x SampleBuckets.with_poi) SampleBuckets.with_poi)
                  (scaled (poi_y SampleBuckets.with_poi) SampleBuckets.with_poi)
                  (scaled (poi_width SampleBuckets.with_poi) SampleBuckets.with_poi)
                  (scaled (poi_height SampleBuckets.with_poi) SampleBuckets.with_poi))
      with (mkBox 800 0 200 1000).
    unfold search_fuel. rewrite poi_search_S.
    unfold bind at 1. unfold bind at 1.
    rewrite poi_attempt_sample.
    unfold bind at 1, lift_res. cbn [bw bh]. rewrite H1.
    rewrite (proj2 (Z.leb_le 512 r1) Hr1). unfold ret. reflexivity. }
  assert (Hgeom : out
    = (Ok true,
       mkWorld
         (set_crop_xy 0 0
            (set_crop_size (res_width br) (res_height br)
               (set_scale_to
                  (Py.ceil (inject_Z 1000
                            * Py.max (Py.truediv (res_width br) 600)
                                     (Py.truediv (res_height br) 1000)))
                  (Py.ceil (inject_Z 1000
                            * Py.max (Py.truediv (res_width br) 600)
                                     (Py.truediv (res_height br) 1000)))
                  SampleBuckets.with_poi)))
         (mkRng (draws SampleBuckets.rng_0_400) 2))).
  { rewrite Hrun. unfold poi_apply_window.
    unfold bind at 1. unfold self at 1. cbn [item].
    change (resolution (dataset_config SampleBuckets.with_poi)) with 512.
    change (bucket_tolerance (dataset_config SampleBuckets.with_poi)) with 64.
    cbn [bw bh bx by_]. unfold bind at 1, lift_res. rewrite Hb.
    change (600 =? 0) with false. change (1000 =? 0) with false.
    cbv iota. run_monad.
    assert (Ez : forall m : Q, Py.int_of (inject_Z 0 * m) = 0).
    { intros [n d]. reflexivity. }
    rewrite !Ez. reflexivity. }
  subst it'. rewrite Hgeom. cbn [fst snd item].
  cbn [crop_x crop_width scale_to_width set_crop_xy set_crop_size set_scale_to].
  pose proof (scaled_axis_ge 1000 600 (res_width br)
                (Py.max (Py.truediv (res_width br) 600)
                        (Py.truediv (res_height br) 1000))
                ltac:(lia) ltac:(lia) (max_ge_l _ _)) as Hge.
  split; [reflexivity|]. split; [reflexivity|]. split; [reflexivity|].
  split; [lia|].
  unfold crop_holds_region.
  cbn [crop_x crop_width scale_to_width set_crop_xy set_crop_size set_scale_to
       bx bw].
  intros (_ & Hright & _). lia.
Qed.

Lemma poi_crop_misses_region_witness :
  let out := setup_poi_bucket SampleBuckets.get_resolution
               SampleBuckets.get_bucket_for_image_size
               (mkWorld SampleBuckets.with_poi SampleBuckets.rng_0_400) in
  let it' := item (snd out) in
  fst out = Ok true
  /\ crop_x it' = 0
  /\ crop_width it' = 448
  /\ (crop_x it' + crop_width it') * 1000 < 800 * scale_to_width it'
  /\ ~ crop_holds_region 1000 1000 (mkBox 800 0 200 1000) it'.
Proof.
  apply (poi_crop_misses_region SampleBuckets.get_resolution
           SampleBuckets.get_bucket_for_image_size 1000 774 (mkRes 448 576)).
  - reflexivity.
  - lia.
  - reflexivity.
  - lia.
  - reflexivity.
  - simpl. lia.
  - simpl. lia.
Defined.

Example poi_sample_geometry :
  let out := setup_poi_bucket SampleBuckets.get_resolution
               SampleBuckets.get_bucket_for_image_size
               (mkWorld SampleBuckets.with_poi SampleBuckets.rng_0_400) in
  fst out = Ok true
  /\ geometry (item (snd out)) = (747, 747, 0, 0, 448, 576).
Proof. vm_compute. split; reflexivity. Qed.

(* ================================================================== *)
(** * Further properties *)

(** ** Batches ([build_batch_indices], [shuffle_buckets]) *)

Lemma slices_concat (fuel : nat) :
  forall (n : nat) (l : list nat),
    (0 < n)%nat -> (List.length l <= fuel)%nat ->
    List.concat (slices fuel n l) = l.
Proof.
  induction fuel as [|fuel IH]; intros n l Hn Hl.
  - destruct l; [reflexivity|simpl in Hl; lia].
  - destruct l as [|a r]; [reflexivity|].
    change (slices (S fuel) n (a :: r))
      with (firstn n (a :: r) :: slices fuel n (skipn n (a :: r))).
    change (List.concat (firstn n (a :: r) :: slices fuel n (skipn n (a :: r))))
      with (firstn n (a :: r) ++ List.concat (slices fuel n (skipn n (a :: r)))).
    rewrite IH; [apply firstn_skipn|exact Hn|].
    rewrite length_skipn. simpl List.length in *. lia.
Qed.

Lemma slices_shape (fuel : nat) :
  forall (n : nat) (l : list nat),
    (0 < n)%nat ->
    Forall (fun batch => batch <> [] /\ (List.length batch <= n)%nat
                         /\ incl batch l)
           (slices fuel n l).
Proof.
  induction fuel as [|fuel IH]; intros n l Hn.
  - destruct l; constructor.
  - destruct l as [|a r]; [constructor|].
    change (slices (S fuel) n (a :: r))
      with (firstn n (a :: r) :: slices fuel n (skipn n (a :: r))).
    constructor.
    + split; [destruct n; [lia|discriminate]|].
      split; [rewrite length_firstn; lia|].
      intros x Hx. rewrite <- (firstn_skipn n (a :: r)).
      apply in_or_app. left. exact Hx.
    + eapply Forall_impl; [|apply IH, Hn].
      intros batch (Hne & Hlen & Hincl). split; [exact Hne|].
      split; [exact Hlen|].
      intros x Hx. rewrite <- (firstn_skipn n (a :: r)).
      apply in_or_app. right. apply Hincl, Hx.
Qed.

(** Every slice but the last one is full. *)
Lemma slices_full (fuel : nat) :
  forall (n : nat) (l : list nat),
    (0 < n)%nat ->
    Forall (fun batch => List.length batch = n)
           (removelast (slices fuel n l)).
Proof.
  induction fuel as [|fuel IH]; intros n l Hn.
  - destruct l; constructor.
  - destruct l as [|a r]; [constructor|].
    change (slices (S fuel) n (a :: r))
      with (firstn n (a :: r) :: slices fuel n (skipn n (a :: r))).
    destruct (slices fuel n (skipn n (a :: r))) as [|b bs] eqn:E.
    + constructor.
    + change (removelast (firstn n (a :: r) :: b :: bs))
        with (firstn n (a :: r) :: removelast (b :: bs)).
      constructor.
      * rewrite length_firstn. apply Nat.min_l.
        destruct (Nat.le_gt_cases n (List.length (a :: r))) as [H|H];
          [exact H|].
        rewrite skipn_all2 in E by lia.
        destruct fuel; discriminate E.
      * rewrite <- E. apply IH, Hn.
Qed.

Lemma batches_of_pos (size : Z) (d : list (string * Bucket.t)) :
  0 < size ->
  batches_of size d
  = Ok (flat_map (fun kb =>
                    slices (List.length (Bucket.file_list_idx (snd kb)))
                      (Z.to_nat size) (Bucket.file_list_idx (snd kb))) d).
Proof.
  intros Hs. induction d as [|[k b] r IH]; [reflexivity|].
  simpl. rewrite (proj2 (Z.eqb_neq size 0)) by lia.
  rewrite (proj2 (Z.ltb_ge size 0)) by lia.
  rewrite IH. reflexivity.
Qed.

Lemma slices_all_indices (n : nat) (d : list (string * Bucket.t)) :
  (0 < n)%nat ->
  List.concat
    (flat_map (fun kb =>
                 slices (List.length (Bucket.file_list_idx (snd kb))) n
                   (Bucket.file_list_idx (snd kb))) d)
  = all_indices d.
Proof.
  intros Hn. unfold all_indices.
  induction d as [|[k b] r IH]; [reflexivity|].
  simpl. rewrite concat_app, IH.
  rewrite slices_concat; [reflexivity|exact Hn|lia].
Qed.

Lemma build_batch_indices_run (s : ds_world) :
  build_batch_indices s
  = match batches_of (batch_size (ds s)) (buckets (ds s)) with
    | Ok bi => (Ok tt, mkDsWorld (set_batch_indices bi (ds s)) (ds_rng s))
    | Raise e => (Raise e, mkDsWorld (set_batch_indices [] (ds s)) (ds_rng s))
    end.
Proof.
  unfold build_batch_indices, bind, update_ds, modify, get, lift_res. simpl.
  destruct (batches_of (batch_size (ds s)) (buckets (ds s))); reflexivity.
Qed.

(** X1: for a positive batch size, [build_batch_indices] cuts every bucket into
    batches and loses nothing: the batches, put end to end, are the index
    lists of the buckets put end to end; no batch is empty and none is
    longer than the batch size.  Buckets, items and generator are left as
    they were. *)
Theorem build_batch_indices_partition (s : ds_world) :
  0 < batch_size (ds s) ->
  exists bi : list (list nat),
    build_batch_indices s
    = (Ok tt, mkDsWorld (set_batch_indices bi (ds s)) (ds_rng s))
    /\ List.concat bi = all_indices (buckets (ds s))
    /\ Forall (fun batch =>
                 batch <> []
                 /\ Z.of_nat (List.length batch) <= batch_size (ds s))
              bi.
Proof.
  intros Hs. rewrite build_batch_indices_run, (batches_of_pos _ _ Hs).
  eexists. split; [reflexivity|].
  assert (Hn : (0 < Z.to_nat (batch_size (ds s)))%nat) by lia.
  split.
  - apply slices_all_indices, Hn.
  - apply Forall_forall. intros batch Hin.
    apply in_flat_map in Hin. destruct Hin as ([k b] & _ & Hin).
    pose proof (slices_shape (List.length (Bucket.file_list_idx b))
                  (Z.to_nat (batch_size (ds s)))
                  (Bucket.file_list_idx b) Hn) as Hsh.
    rewrite Forall_forall in Hsh.
    destruct (Hsh batch Hin) as (Hne & Hlen & _).
    split; [exact Hne|lia].
Qed.

Lemma build_batch_indices_partition_witness :
  exists bi : list (list nat),
    build_batch_indices
      (mkDsWorld (mkDataset [] Sample.config 0 2
                    [("576x448", Bucket.mk 576 448 [4; 0; 2]%nat);
                     ("448x576", Bucket.mk 448 576 [1; 3]%nat)] [])
         Sample.zero_rng)
    = (Ok tt,
       mkDsWorld (set_batch_indices bi
                    (mkDataset [] Sample.config 0 2
                       [("576x448", Bucket.mk 576 448 [4; 0; 2]%nat);
                        ("448x576", Bucket.mk 448 576 [1; 3]%nat)] []))
         Sample.zero_rng)
    /\ List.concat bi = [4; 0; 2; 1; 3]%nat
    /\ Forall (fun batch =>
                 batch <> [] /\ Z.of_nat (List.length batch) <= 2) bi.
Proof.
  apply (build_batch_indices_partition
           (mkDsWorld (mkDataset [] Sample.config 0 2
                         [("576x448", Bucket.mk 576 448 [4; 0; 2]%nat);
                          ("448x576", Bucket.mk 448 576 [1; 3]%nat)] [])
              Sample.zero_rng)).
  simpl. lia.
Defined.

(** X2: the edge cases of the batch size.  With a batch size of 0 and at least
    one bucket, [build_batch_indices] raises [ValueError] and leaves the list
    of batches empty; with a negative batch size it builds no batch at all,
    silently; with no bucket it builds none whatever the size. *)
Theorem build_batch_indices_edges (s : ds_world) :
  (batch_size (ds s) = 0 -> buckets (ds s) <> [] ->
   build_batch_indices s
   = (Raise (ValueError "range() arg 3 must not be zero"),
      mkDsWorld (set_batch_indices [] (ds s)) (ds_rng s)))
  /\ (batch_size (ds s) < 0 ->
      build_batch_indices s
      = (Ok tt, mkDsWorld (set_batch_indices [] (ds s)) (ds_rng s)))
  /\ (buckets (ds s) = [] ->
      build_batch_indices s
      = (Ok tt, mkDsWorld (set_batch_indices [] (ds s)) (ds_rng s))).
Proof.
  split; [|split].
  - intros H0 Hne. rewrite build_batch_indices_run, H0.
    destruct (buckets (ds s)) as [|[k b] r]; [contradiction|reflexivity].
  - intros Hneg. rewrite build_batch_indices_run.
    assert (E : batches_of (batch_size (ds s)) (buckets (ds s)) = Ok []).
    { induction (buckets (ds s)) as [|[k b] r IH]; [reflexivity|].
      simpl. rewrite (proj2 (Z.eqb_neq (batch_size (ds s)) 0)) by lia.
      rewrite (proj2 (Z.ltb_lt (batch_size (ds s)) 0)) by lia.
      rewrite IH. reflexivity. }
    rewrite E. reflexivity.
  - intros He. rewrite build_batch_indices_run, He. reflexivity.
Qed.

Lemma shuffle_all_shape (d : list (string * Bucket.t)) :
  forall g : Rng,
    Forall2 (fun kb kb' : string * Bucket.t =>
               fst kb = fst kb'
               /\ Bucket.width (snd kb) = Bucket.width (snd kb')
               /\ Bucket.height (snd kb) = Bucket.height (snd kb')
               /\ Permutation (Bucket.file_list_idx (snd kb))
                              (Bucket.file_list_idx (snd kb')))
            d (fst (shuffle_all d g)).
Proof.
  induction d as [|[k b] r IH]; intros g; simpl.
  - constructor.
  - pose proof (shuffle_perm (Bucket.file_list_idx b) g) as Hp.
    destruct (shuffle (Bucket.file_list_idx b) g) as [l' g'].
    specialize (IH g'). destruct (shuffle_all r g') as [r' g''].
    simpl in *. constructor; [|exact IH]. simpl. auto.
Qed.

(** X3: [shuffle_buckets] keeps the buckets, their keys, their sizes and their
    order, and rearranges the indices inside each bucket: no index moves
    from one bucket to another, none is lost or repeated.  Items and batches
    are left as they were. *)
Theorem shuffle_buckets_permutes (s : ds_world) :
  exists (d' : list (string * Bucket.t)) (g' : Rng),
    shuffle_buckets s = (Ok tt, mkDsWorld (set_buckets d' (ds s)) g')
    /\ Forall2 (fun kb kb' : string * Bucket.t =>
                  fst kb = fst kb'
                  /\ Bucket.width (snd kb) = Bucket.width (snd kb')
                  /\ Bucket.height (snd kb) = Bucket.height (snd kb')
                  /\ Permutation (Bucket.file_list_idx (snd kb))
                                 (Bucket.file_list_idx (snd kb')))
               (buckets (ds s)) d'.
Proof.
  unfold shuffle_buckets.
  pose proof (shuffle_all_shape (buckets (ds s)) (ds_rng s)) as H.
  destruct (shuffle_all (buckets (ds s)) (ds_rng s)) as [d' g'].
  exists d', g'. split; [reflexivity|exact H].
Qed.

Lemma shuffle_all_keys (d : list (string * Bucket.t)) (g : Rng) :
  map fst (fst (shuffle_all d g)) = map fst d.
Proof.
  pose proof (shuffle_all_shape d g) as H.
  induction H as [|kb kb' l l' (Hk & _) _ IH]; [reflexivity|].
  simpl. rewrite IH, Hk. reflexivity.
Qed.

Lemma shuffle_all_indices (d : list (string * Bucket.t)) (g : Rng) :
  Permutation (all_indices d) (all_indices (fst (shuffle_all d g))).
Proof.
  pose proof (shuffle_all_shape d g) as H. unfold all_indices.
  induction H as [|kb kb' l l' (_ & _ & _ & Hp) _ IH]; [constructor|].
  simpl. apply Permutation_app; assumption.
Qed.

(** ** Every item lands in one bucket *)

Lemma dict_get_None (key : string) (d : list (string * Bucket.t)) :
  dict_get key d = None -> ~ In key (map fst d).
Proof.
  induction d as [|[k b] r IH]; simpl; [tauto|].
  destruct (String.eqb_spec k key) as [->|Hne]; [discriminate|].
  intros H [Hk|Hin]; [contradiction|exact (IH H Hin)].
Qed.

Lemma dict_append_keys (key : string) (idx : nat)
    (d : list (string * Bucket.t)) :
  map fst (dict_append key idx d) = map fst d.
Proof.
  induction d as [|[k b] r IH]; simpl; [reflexivity|].
  destruct (String.eqb k key); simpl; [reflexivity|].
  rewrite IH. reflexivity.
Qed.

Lemma dict_append_indices (key : string) (idx : nat)
    (d : list (string * Bucket.t)) (b : Bucket.t) :
  dict_get key d = Some b ->
  Permutation (all_indices (dict_append key idx d)) (idx :: all_indices d).
Proof.
  unfold all_indices. induction d as [|[k b0] r IH]; simpl; [discriminate|].
  destruct (String.eqb k key); simpl.
  - intros _. rewrite <- app_assoc. simpl.
    symmetry. apply Permutation_middle.
  - intros H. eapply perm_trans; [apply Permutation_app_head, (IH H)|].
    symmetry. apply Permutation_middle.
Qed.

Lemma NoDup_snoc {A : Type} (l : list A) (x : A) :
  NoDup l -> ~ In x l -> NoDup (l ++ [x]).
Proof.
  intros Hnd Hx. induction Hnd as [|a r Ha Hr IH]; simpl.
  - constructor; [intros []|constructor].
  - constructor.
    + intros Hin. apply in_app_or in Hin. destruct Hin as [Hin|[->|[]]].
      * exact (Ha Hin).
      * apply Hx. left. reflexivity.
    + apply IH. intros Hin. apply Hx. right. exact Hin.
Qed.

Lemma add_to_bucket_keys (w h : Z) (idx : nat)
    (d : list (string * Bucket.t)) :
  NoDup (map fst d) -> NoDup (map fst (add_to_bucket w h idx d)).
Proof.
  intros Hnd. unfold add_to_bucket.
  destruct (dict_get (bucket_key w h) d) as [b|] eqn:Eg.
  - rewrite dict_append_keys. exact Hnd.
  - rewrite (dict_append_new _ idx d _ Eg), map_app. simpl.
    apply NoDup_snoc; [exact Hnd|apply dict_get_None, Eg].
Qed.

Lemma add_to_bucket_indices (w h : Z) (idx : nat)
    (d : list (string * Bucket.t)) :
  Permutation (all_indices (add_to_bucket w h idx d)) (idx :: all_indices d).
Proof.
  unfold add_to_bucket.
  destruct (dict_get (bucket_key w h) d) as [b|] eqn:Eg.
  - apply (dict_append_indices _ idx d b Eg).
  - rewrite (dict_append_new _ idx d _ Eg). unfold all_indices.
    rewrite map_app, concat_app. simpl.
    symmetry. apply Permutation_cons_append.
Qed.

Section Placement.

Variable get_resolution : Z -> Z -> res Z.
Variable get_bucket_for_image_size :
  Z -> Z -> Z -> Z -> res bucket_resolution.

Lemma setup_item_placed (size : Z) (k : nat) (s1 s2 : ds_world) :
  placed size k s1 ->
  setup_item get_resolution get_bucket_for_image_size k s1 = (Ok tt, s2) ->
  placed size (S k) s2.
Proof.
  intros (Hb & Hnd & Hp) H.
  apply setup_item_ok in H. destruct H as (itk & w' & _ & _ & ->).
  unfold placed.
  cbn [ds buckets batch_size set_buckets set_file_list].
  split; [exact Hb|]. split; [apply add_to_bucket_keys, Hnd|].
  eapply perm_trans; [apply add_to_bucket_indices|].
  rewrite seq_S. cbn [Nat.add].
  eapply perm_trans; [apply perm_skip, Hp|apply Permutation_cons_append].
Qed.

Lemma setup_loop_placed (s s1 : ds_world) :
  for_each (seq 0 (List.length (file_list (ds s))))
    (setup_item get_resolution get_bucket_for_image_size)
    (mkDsWorld (set_buckets [] (ds s)) (ds_rng s)) = (Ok tt, s1) ->
  placed (batch_size (ds s)) (List.length (file_list (ds s))) s1.
Proof.
  intros H.
  apply (for_each_seq_inv
           (setup_item get_resolution get_bucket_for_image_size)
           (placed (batch_size (ds s)))
           (List.length (file_list (ds s))) 0
           (mkDsWorld (set_buckets [] (ds s)) (ds_rng s)) s1).
  - unfold placed. simpl. split; [reflexivity|]. split; constructor.
  - intros k sa sb _. apply setup_item_placed.
  - exact H.
Qed.

(** What a rebuilding [setup_buckets] leaves: the loop's state [s1], its
    buckets shuffled, and the batches cut from them. *)
Lemma setup_buckets_rebuilt (s s' : ds_world) :
  rebuilds (ds s) ->
  setup_buckets get_resolution get_bucket_for_image_size s = (Ok tt, s') ->
  exists s1 : ds_world,
    for_each (seq 0 (List.length (file_list (ds s))))
      (setup_item get_resolution get_bucket_for_image_size)
      (mkDsWorld (set_buckets [] (ds s)) (ds_rng s)) = (Ok tt, s1)
    /\ file_list (ds s') = file_list (ds s1)
    /\ buckets (ds s') = fst (shuffle_all (buckets (ds s1)) (ds_rng s1))
    /\ batches_of (batch_size (ds s1)) (buckets (ds s'))
       = Ok (batch_indices (ds s')).
Proof.
  intros Hre H. unfold setup_buckets in H.
  apply bind_ok in H. destruct H as (s0 & sa & Hg & H).
  unfold get in Hg. injection Hg as <- <-.
  assert (Hguard : (0 <? epoch_num (ds s))
                   && match poi (ds_config (ds s)) with
                      | None => true
                      | Some _ => false
                      end = false).
  { destruct Hre as [He|Hp].
    - rewrite (proj2 (Z.ltb_ge 0 (epoch_num (ds s))) He). reflexivity.
    - destruct (poi (ds_config (ds s))); [apply andb_false_r|].
      exfalso. apply Hp. reflexivity. }
  rewrite Hguard in H.
  apply bind_ok in H. destruct H as ([] & sb & Hb & H).
  unfold update_ds, modify in Hb. injection Hb as <-.
  apply bind_ok in H. destruct H as ([] & s1 & Hloop & H).
  apply bind_ok in H. destruct H as ([] & s2 & Hsh & H).
  unfold shuffle_buckets in Hsh.
  destruct (shuffle_all (buckets (ds s1)) (ds_rng s1)) as [d g] eqn:Es.
  injection Hsh as <-.
  rewrite build_batch_indices_run in H.
  cbn [ds buckets batch_size set_buckets] in H.
  destruct (batches_of (batch_size (ds s1)) d) as [bi|e] eqn:Eb;
    [|discriminate H].
  injection H as <-. exists s1.
  cbn [ds file_list buckets batch_indices set_batch_indices set_buckets fst].
  split; [exact Hloop|]. split; [reflexivity|].
  split; [rewrite Es; reflexivity|exact Eb].
Qed.

End Placement.

(** X4: after [setup_buckets] has rebuilt the buckets, every index of the file
    list is listed by one bucket, once: the index lists of the buckets, put
    end to end, are a rearrangement of [0 .. n-1]; the keys of the dict
    differ; the file list has kept its length.  For a positive batch size
    the batches, put end to end, are such a rearrangement too: an epoch
    visits every item once. *)
Theorem setup_buckets_places_every_item
    (get_resolution : Z -> Z -> res Z)
    (get_bucket_for_image_size : Z -> Z -> Z -> Z -> res bucket_resolution)
    (s s' : ds_world) :
  rebuilds (ds s) ->
  setup_buckets get_resolution get_bucket_for_image_size s = (Ok tt, s') ->
  let n := List.length (file_list (ds s)) in
  List.length (file_list (ds s')) = n
  /\ NoDup (map fst (buckets (ds s')))
  /\ Permutation (all_indices (buckets (ds s'))) (seq 0 n)
  /\ (0 < batch_size (ds s) ->
      Permutation (List.concat (batch_indices (ds s'))) (seq 0 n)).
Proof.
  intros Hre Hrun n.
  destruct (setup_buckets_rebuilt get_resolution get_bucket_for_image_size
              s s' Hre Hrun) as (s1 & Hloop & Hfl & Hb & Hbatches).
  pose proof (setup_loop_placed get_resolution get_bucket_for_image_size
                s s1 Hloop) as (Hsize & Hnd & Hp).
  pose proof (setup_loop_inv get_resolution get_bucket_for_image_size
                s s1 Hloop) as (_ & Hlen & _).
  assert (Hperm : Permutation (all_indices (buckets (ds s'))) (seq 0 n)).
  { rewrite Hb. eapply perm_trans; [|exact Hp].
    symmetry. apply shuffle_all_indices. }
  split; [rewrite Hfl; exact Hlen|].
  split; [rewrite Hb, shuffle_all_keys; exact Hnd|].
  split; [exact Hperm|].
  intros Hpos. rewrite Hsize in Hbatches.
  rewrite (batches_of_pos _ _ Hpos) in Hbatches. injection Hbatches as <-.
  rewrite slices_all_indices by lia. exact Hperm.
Qed.

Lemma setup_buckets_places_every_item_witness :
  let s' := snd (setup_buckets SampleBuckets.get_resolution
                   SampleBuckets.get_bucket_for_image_size
                   SampleBuckets.dataset) in
  List.length (file_list (ds s')) = 3%nat
  /\ NoDup (map fst (buckets (ds s')))
  /\ Permutation (all_indices (buckets (ds s'))) (seq 0 3)
  /\ (0 < 2 -> Permutation (List.concat (batch_indices (ds s'))) (seq 0 3)).
Proof.
  intros s'.
  assert (Hrun : setup_buckets SampleBuckets.get_resolution
                   SampleBuckets.get_bucket_for_image_size
                   SampleBuckets.dataset = (Ok tt, s')).
  { vm_compute. reflexivity. }
  apply (setup_buckets_places_every_item SampleBuckets.get_resolution
           SampleBuckets.get_bucket_for_image_size SampleBuckets.dataset s'
           (or_introl (Z.le_refl 0)) Hrun).
Defined.

(** ** Batches are cut inside one bucket *)

Lemma batches_of_In (size : Z) (d : list (string * Bucket.t)) :
  forall (bi : list (list nat)) (batch : list nat),
    batches_of size d = Ok bi ->
    In batch bi ->
    batch <> []
    /\ exists (key : string) (b : Bucket.t),
         In (key, b) d /\ incl batch (Bucket.file_list_idx b).
Proof.
  induction d as [|[k b] r IH]; intros bi batch Hb Hin.
  - injection Hb as <-. destruct Hin.
  - cbn [batches_of] in Hb.
    destruct (size =? 0) eqn:E0; [discriminate Hb|].
    destruct (batches_of size r) as [rest|e]; [|discriminate Hb].
    injection Hb as <-. apply in_app_or in Hin. destruct Hin as [Hin|Hin].
    + destruct (size <? 0) eqn:En; [destruct Hin|].
      apply Z.ltb_ge in En. apply Z.eqb_neq in E0.
      assert (Hn : (0 < Z.to_nat size)%nat) by lia.
      pose proof (slices_shape (List.length (Bucket.file_list_idx b))
                    (Z.to_nat size) (Bucket.file_list_idx b) Hn) as Hsh.
      rewrite Forall_forall in Hsh.
      destruct (Hsh batch Hin) as (Hne & _ & Hincl).
      split; [exact Hne|]. exists k, b. split; [left; reflexivity|exact Hincl].
    + destruct (IH rest batch eq_refl Hin) as (Hne & key & b' & Hin' & Hincl).
      split; [exact Hne|].
      exists key, b'. split; [right; exact Hin'|exact Hincl].
Qed.

(** X5: after [setup_buckets] has rebuilt the buckets, every batch can be
    stacked: it is not empty, its indices name items of the file list, and
    all these items have the same crop width and the same crop height (those
    of the bucket the batch was cut from). *)
Theorem setup_buckets_batches_stack
    (get_resolution : Z -> Z -> res Z)
    (get_bucket_for_image_size : Z -> Z -> Z -> Z -> res bucket_resolution)
    (s s' : ds_world) :
  rebuilds (ds s) ->
  setup_buckets get_resolution get_bucket_for_image_size s = (Ok tt, s') ->
  forall batch : list nat,
    In batch (batch_indices (ds s')) ->
    batch <> []
    /\ exists w h : Z,
         forall i : nat,
           In i batch ->
           exists it : FileItemDTO,
             nth_error (file_list (ds s')) i = Some it
             /\ crop_width it = w /\ crop_height it = h.
Proof.
  intros Hre Hrun batch Hin.
  destruct (setup_buckets_rebuilt get_resolution get_bucket_for_image_size
              s s' Hre Hrun) as (s1 & Hloop & Hfl & Hb & Hbatches).
  pose proof (setup_loop_inv get_resolution get_bucket_for_image_size
                s s1 Hloop) as (_ & _ & _ & _ & Hinv & _).
  apply (bucket_inv_shuffle _ _ (ds_rng s1)) in Hinv.
  rewrite <- Hb, <- Hfl in Hinv.
  destruct (batches_of_In _ _ _ batch Hbatches Hin)
    as (Hne & key & b & Hkb & Hincl).
  split; [exact Hne|].
  exists (Bucket.width b), (Bucket.height b). intros i Hi.
  destruct (Hinv key b Hkb) as [_ Hmem].
  apply Hmem, Hincl, Hi.
Qed.

Lemma setup_buckets_batches_stack_witness :
  let s' := snd (setup_buckets SampleBuckets.get_resolution
                   SampleBuckets.get_bucket_for_image_size
                   SampleBuckets.dataset) in
  batch_indices (ds s') = [[2; 0]; [1]]%nat
  /\ ([2; 0]%nat <> []
      /\ exists w h : Z,
           forall i : nat,
             In i [2; 0]%nat ->
             exists it : FileItemDTO,
               nth_error (file_list (ds s')) i = Some it
               /\ crop_width it = w /\ crop_height it = h).
Proof.
  intros s'.
  assert (Hrun : setup_buckets SampleBuckets.get_resolution
                   SampleBuckets.get_bucket_for_image_size
                   SampleBuckets.dataset = (Ok tt, s')).
  { vm_compute. reflexivity. }
  assert (Hbi : batch_indices (ds s') = [[2; 0]; [1]]%nat).
  { vm_compute. reflexivity. }
  split; [exact Hbi|].
  apply (setup_buckets_batches_stack SampleBuckets.get_resolution
           SampleBuckets.get_bucket_for_image_size SampleBuckets.dataset s'
           (or_introl (Z.le_refl 0)) Hrun).
  rewrite Hbi. left. reflexivity.
Defined.

(** ** Captions ([clean_caption], [get_caption]) *)

Lemma all_chars_append (p : ascii -> bool) (a b : string) :
  PyStr.all_chars p (String.append a b)
  = PyStr.all_chars p a && PyStr.all_chars p b.
Proof.
  induction a as [|x a IH]; simpl; [reflexivity|].
  rewrite IH. apply andb_assoc.
Qed.

Lemma lstrip_all_chars (p : ascii -> bool) (s : string) :
  PyStr.all_chars p s = true -> PyStr.all_chars p (PyText.lstrip s) = true.
Proof.
  induction s as [|a r IH]; simpl; [reflexivity|].
  intros H. apply andb_prop in H. destruct H as [Ha Hr].
  destruct (PyText.is_space a); [apply IH, Hr|].
  simpl. rewrite Ha, Hr. reflexivity.
Qed.

Lemma rstrip_all_chars (p : ascii -> bool) (s : string) :
  PyStr.all_chars p s = true -> PyStr.all_chars p (PyText.rstrip s) = true.
Proof.
  induction s as [|a r IH]; simpl; [reflexivity|].
  intros H. apply andb_prop in H. destruct H as [Ha Hr].
  destruct (PyStr.is_empty (PyText.rstrip r) && PyText.is_space a);
    [reflexivity|].
  simpl. rewrite Ha, (IH Hr). reflexivity.
Qed.

Lemma strip_all_chars (p : ascii -> bool) (s : string) :
  PyStr.all_chars p s = true -> PyStr.all_chars p (PyText.strip s) = true.
Proof. intros H. apply rstrip_all_chars, lstrip_all_chars, H. Qed.

Lemma lstrip_head (s : string) :
  PyText.lstrip s = EmptyString
  \/ exists (a : ascii) (r : string),
       PyText.lstrip s = String a r /\ PyText.is_space a = false.
Proof.
  induction s as [|a r IH]; simpl; [left; reflexivity|].
  destruct (PyText.is_space a) eqn:E; [exact IH|].
  right. exists a, r. split; [reflexivity|exact E].
Qed.

Lemma rstrip_idem (s : string) :
  PyText.rstrip (PyText.rstrip s) = PyText.rstrip s.
Proof.
  induction s as [|a r IH]; simpl; [reflexivity|].
  destruct (PyStr.is_empty (PyText.rstrip r) && PyText.is_space a) eqn:E;
    [reflexivity|].
  simpl. rewrite IH, E. reflexivity.
Qed.

Lemma strip_idem (s : string) :
  PyText.strip (PyText.strip s) = PyText.strip s.
Proof.
  unfold PyText.strip.
  destruct (lstrip_head s) as [->|(a & r & -> & Ha)]; [reflexivity|].
  simpl. rewrite Ha, andb_false_r. simpl. rewrite Ha.
  simpl. rewrite rstrip_idem, Ha, andb_false_r. reflexivity.
Qed.

Lemma split_not_nil (c : ascii) (s : string) : PyText.split c s <> [].
Proof.
  destruct s as [|a r]; simpl; [discriminate|].
  destruct (Ascii.eqb a c); [discriminate|].
  destruct (PyText.split c r); discriminate.
Qed.

Lemma split_no_sep (c : ascii) (t : string) :
  PyStr.all_chars (fun a => negb (Ascii.eqb a c)) t = true ->
  PyText.split c t = [t].
Proof.
  induction t as [|a r IH]; simpl; [reflexivity|].
  intros H. apply andb_prop in H. destruct H as [Ha Hr].
  apply negb_true_iff in Ha. rewrite Ha, (IH Hr). reflexivity.
Qed.

Lemma split_app_sep (c : ascii) (t r : string) :
  PyStr.all_chars (fun a => negb (Ascii.eqb a c)) t = true ->
  PyText.split c (String.append t (String c r)) = t :: PyText.split c r.
Proof.
  induction t as [|a t IH]; simpl.
  - intros _. rewrite Ascii.eqb_refl. reflexivity.
  - intros H. apply andb_prop in H. destruct H as [Ha Ht].
    apply negb_true_iff in Ha. rewrite Ha, (IH Ht). reflexivity.
Qed.

(** The pieces of [s.split(c)] hold no [c], and hold what [s] holds. *)
Lemma split_pieces (p : ascii -> bool) (c : ascii) (s : string) :
  PyStr.all_chars p s = true ->
  Forall (fun t => PyStr.all_chars p t = true
                   /\ PyStr.all_chars (fun a => negb (Ascii.eqb a c)) t = true)
         (PyText.split c s).
Proof.
  induction s as [|a r IH]; simpl.
  - intros _. constructor; [split; reflexivity|constructor].
  - intros H. apply andb_prop in H. destruct H as [Ha Hr].
    specialize (IH Hr).
    destruct (Ascii.eqb a c) eqn:E.
    + constructor; [split; reflexivity|exact IH].
    + destruct (PyText.split c r) as [|h t]; simpl.
      * constructor; [|constructor]. simpl. rewrite Ha, E. split; reflexivity.
      * inversion IH as [|? ? [Hh1 Hh2] Ht]; subst.
        constructor; [|exact Ht]. simpl. rewrite Ha, E, Hh1, Hh2.
        split; reflexivity.
Qed.

Lemma concat_all_chars (p : ascii -> bool) (sep : string) (l : list string) :
  PyStr.all_chars p sep = true ->
  Forall (fun t => PyStr.all_chars p t = true) l ->
  PyStr.all_chars p (String.concat sep l) = true.
Proof.
  intros Hsep Hl. induction Hl as [|x l Hx Hl IH]; [reflexivity|].
  destruct l as [|y l]; [exact Hx|].
  change (String.concat sep (x :: y :: l))
    with (String.append x (String.append sep (String.concat sep (y :: l)))).
  rewrite !all_chars_append, Hx, Hsep, IH. reflexivity.
Qed.

Lemma replace_removes (c : ascii) (new s : string) :
  PyStr.all_chars (fun a => negb (Ascii.eqb a c)) new = true ->
  PyStr.all_chars (fun a => negb (Ascii.eqb a c)) (PyText.replace c new s)
  = true.
Proof.
  intros Hn. induction s as [|a r IH]; simpl; [reflexivity|].
  destruct (Ascii.eqb a c) eqn:E.
  - rewrite all_chars_append, Hn, IH. reflexivity.
  - simpl. rewrite E, IH. reflexivity.
Qed.

Lemma replace_keeps (p : ascii -> bool) (c : ascii) (new s : string) :
  PyStr.all_chars p new = true ->
  PyStr.all_chars p s = true ->
  PyStr.all_chars p (PyText.replace c new s) = true.
Proof.
  intros Hn. induction s as [|a r IH]; simpl; [reflexivity|].
  intros H. apply andb_prop in H. destruct H as [Ha Hr].
  destruct (Ascii.eqb a c).
  - rewrite all_chars_append, Hn, (IH Hr). reflexivity.
  - simpl. rewrite Ha, (IH Hr). reflexivity.
Qed.

Lemma replace_absent (c : ascii) (new s : string) :
  PyStr.all_chars (fun a => negb (Ascii.eqb a c)) s = true ->
  PyText.replace c new s = s.
Proof.
  induction s as [|a r IH]; simpl; [reflexivity|].
  intros H. apply andb_prop in H. destruct H as [Ha Hr].
  apply negb_true_iff in Ha. rewrite Ha, (IH Hr). reflexivity.
Qed.

Lemma all_chars_impl (p q : ascii -> bool) (s : string) :
  (forall a : ascii, p a = true -> q a = true) ->
  PyStr.all_chars p s = true -> PyStr.all_chars q s = true.
Proof.
  intros Hpq. induction s as [|a r IH]; simpl; [reflexivity|].
  intros H. apply andb_prop in H. destruct H as [Ha Hr].
  rewrite (Hpq a Ha), (IH Hr). reflexivity.
Qed.

Lemma all_chars_and (p q : ascii -> bool) (s : string) :
  PyStr.all_chars p s = true -> PyStr.all_chars q s = true ->
  PyStr.all_chars (fun a => p a && q a) s = true.
Proof.
  induction s as [|a r IH]; simpl; [reflexivity|].
  intros H1 H2. apply andb_prop in H1, H2.
  destruct H1 as [Ha1 Hr1], H2 as [Ha2 Hr2].
  rewrite Ha1, Ha2, (IH Hr1 Hr2). reflexivity.
Qed.

(** The two ways the source drops the empty tokens agree. *)
Lemma tokens_two_ways (l : list string) :
  filter (fun x => negb (PyStr.is_empty x)) (map PyText.strip l)
  = map PyText.strip
      (filter (fun p => negb (PyStr.is_empty (PyText.strip p))) l).
Proof.
  induction l as [|x l IH]; simpl; [reflexivity|].
  destruct (PyStr.is_empty (PyText.strip x)); simpl; rewrite IH; reflexivity.
Qed.

Lemma is_empty_false (s : string) :
  PyStr.is_empty s = false <-> s <> EmptyString.
Proof. destruct s; simpl; split; congruence. Qed.

Lemma token_list_of_tokens (p : ascii -> bool) (caption : string) :
  PyStr.all_chars p caption = true ->
  Forall (fun t => is_token t /\ PyStr.all_chars p t = true)
         (token_list_of caption).
Proof.
  intros Hp. unfold token_list_of.
  pose proof (split_pieces p PyText.comma caption Hp) as H.
  induction H as [|x l [Hx1 Hx2] _ IH]; simpl; [constructor|].
  destruct (PyStr.is_empty (PyText.strip x)) eqn:E; simpl; [exact IH|].
  constructor; [|exact IH].
  split; [|apply strip_all_chars, Hx1].
  split; [apply is_empty_false, E|].
  split; [apply strip_idem|apply strip_all_chars, Hx2].
Qed.

Lemma split_join (ts : list string) :
  Forall is_token ts ->
  ts <> [] ->
  PyText.split PyText.comma (String.concat ", " ts)
  = hd EmptyString ts :: map (String " "%char) (tl ts).
Proof.
  intros H. induction H as [|x l Hx Hl IH]; intros Hne; [contradiction|].
  destruct Hx as (_ & _ & Hx).
  destruct l as [|y l].
  - simpl. apply split_no_sep, Hx.
  - change (String.concat ", " (x :: y :: l))
      with (String.append x
              (String PyText.comma
                 (String " "%char (String.concat ", " (y :: l))))).
    rewrite (split_app_sep _ _ _ Hx).
    cbn [hd tl map]. f_equal.
    cbn [PyText.split]. change (Ascii.eqb " " PyText.comma) with false.
    cbv iota. rewrite IH by discriminate. reflexivity.
Qed.

Lemma strip_space (s : string) :
  PyText.strip (String " "%char s) = PyText.strip s.
Proof. reflexivity. Qed.

(** The tokens of a caption joined from tokens are these tokens. *)
Lemma token_list_of_join (ts : list string) :
  Forall is_token ts -> token_list_of (String.concat ", " ts) = ts.
Proof.
  intros H. unfold token_list_of.
  destruct ts as [|x l]; [reflexivity|].
  rewrite (split_join _ H) by discriminate.
  cbn [hd tl]. inversion H as [|? ? Hx Hl]; subst.
  assert (Hall : forall l0 : list string,
             Forall is_token l0 ->
             filter (fun x => negb (PyStr.is_empty x))
               (map PyText.strip (map (String " "%char) l0)) = l0).
  { intros l0 H0. induction H0 as [|y l0 (Hy1 & Hy2 & _) _ IH];
      [reflexivity|].
    cbn [map filter]. rewrite strip_space, Hy2.
    rewrite (proj2 (is_empty_false y) Hy1). cbn [negb]. rewrite IH.
    reflexivity. }
  destruct Hx as (Hx1 & Hx2 & _).
  cbn [map filter]. rewrite Hx2, (proj2 (is_empty_false x) Hx1).
  cbn [negb]. rewrite (Hall l Hl). reflexivity.
Qed.

Lemma clean_caption_tokens (caption : string) :
  clean_caption caption
  = String.concat ", "
      (token_list_of
         (PyText.replace PyText.carriage_return ", "
            (PyText.replace PyText.newline ", " caption))).
Proof.
  unfold clean_caption, token_list_of. rewrite tokens_two_ways. reflexivity.
Qed.

Lemma replaced_one_line (caption : string) :
  one_line (PyText.replace PyText.carriage_return ", "
              (PyText.replace PyText.newline ", " caption)) = true.
Proof.
  unfold one_line. apply all_chars_and.
  - apply replace_keeps; [reflexivity|]. apply replace_removes. reflexivity.
  - apply replace_removes. reflexivity.
Qed.

Lemma Forall_and_l {A : Type} (P Q : A -> Prop) (l : list A) :
  Forall (fun x => P x /\ Q x) l -> Forall P l.
Proof. intros H. eapply Forall_impl; [|exact H]. intros x [Hx _]. exact Hx. Qed.

Lemma Forall_and_r {A : Type} (P Q : A -> Prop) (l : list A) :
  Forall (fun x => P x /\ Q x) l -> Forall Q l.
Proof. intros H. eapply Forall_impl; [|exact H]. intros x [_ Hx]. exact Hx. Qed.

(** What [clean_caption] returns: tokens joined by a comma and a space, on
    one line. *)
Lemma clean_caption_form (caption : string) :
  exists ts : list string,
    clean_caption caption = String.concat ", " ts
    /\ Forall is_token ts
    /\ one_line (clean_caption caption) = true.
Proof.
  rewrite clean_caption_tokens.
  pose proof (token_list_of_tokens _ _ (replaced_one_line caption)) as H.
  eexists. split; [reflexivity|]. split; [exact (Forall_and_l _ _ _ H)|].
  apply concat_all_chars; [reflexivity|exact (Forall_and_r _ _ _ H)].
Qed.

(** X6: [clean_caption] returns the tokens of the caption: non-empty strings
    without a comma and without white space at either end, joined by a
    comma and a space; the result holds no line break, and splitting it
    again gives these tokens back. *)
Theorem clean_caption_shape (caption : string) :
  exists ts : list string,
    clean_caption caption = String.concat ", " ts
    /\ Forall is_token ts
    /\ one_line (clean_caption caption) = true
    /\ token_list_of (clean_caption caption) = ts.
Proof.
  destruct (clean_caption_form caption) as (ts & E & Ht & H1).
  exists ts. split; [exact E|]. split; [exact Ht|]. split; [exact H1|].
  rewrite E. apply token_list_of_join, Ht.
Qed.

(** X7: [clean_caption] is idempotent: cleaning a cleaned caption changes
    nothing. *)
Theorem clean_caption_idempotent (caption : string) :
  clean_caption (clean_caption caption) = clean_caption caption.
Proof.
  destruct (clean_caption_form caption) as (ts & E & Ht & H1).
  rewrite (clean_caption_tokens (clean_caption caption)).
  unfold one_line in H1.
  rewrite (replace_absent PyText.newline).
  - rewrite (replace_absent PyText.carriage_return).
    + rewrite E. rewrite (token_list_of_join _ Ht). reflexivity.
    + revert H1. apply all_chars_impl. intros a Ha.
      apply andb_prop in Ha. apply Ha.
  - revert H1. apply all_chars_impl. intros a Ha.
    apply andb_prop in Ha. apply Ha.
Qed.

(** ** Dropout, shuffling and triggers of [get_caption] *)

Lemma Qltb_lt (a b : Q) : Qltb a b = true <-> (a < b)%Q.
Proof.
  unfold Qltb. rewrite negb_true_iff. split.
  - intros H. apply Qnot_le_lt. intros Hle.
    apply Qle_bool_iff in Hle. congruence.
  - intros H. destruct (Qle_bool b a) eqn:E; [|reflexivity].
    apply Qle_bool_iff in E. exfalso. exact (Qlt_not_le _ _ H E).
Qed.

Lemma Qltb_ge (a b : Q) : Qltb a b = false <-> (b <= a)%Q.
Proof.
  unfold Qltb. rewrite negb_false_iff. apply Qle_bool_iff.
Qed.

(** [random.random()] is in [[0, 1)]. *)
Lemma random_unit (g : Rng) :
  (0 <= fst (random g))%Q /\ (fst (random g) < 1)%Q
  /\ snd (random g) = advance 1 g.
Proof.
  unfold random, next_draw, advance. cbn [fst snd].
  pose proof (Z.mod_pos_bound (Z.of_N (draws g (cursor g))) (2 ^ 53) eq_refl)
    as [H0 H1].
  split; [|split].
  - unfold Qle. simpl. lia.
  - unfold Qlt. cbn [Qnum Qden]. rewrite Z.mul_1_r, Z.mul_1_l. exact H1.
  - rewrite Nat.add_1_r. reflexivity.
Qed.

Lemma rand_float_run (g : Rng) :
  rand_float g = (Ok (fst (random g)), advance 1 g).
Proof.
  unfold rand_float. pose proof (random_unit g) as (_ & _ & H).
  destruct (random g) as [q g']. simpl in *. rewrite H. reflexivity.
Qed.

Lemma advance_advance (n m : nat) (g : Rng) :
  advance n (advance m g) = advance (m + n) g.
Proof. unfold advance. simpl. rewrite Nat.add_assoc. reflexivity. Qed.

Lemma advance_0 (g : Rng) : advance 0 g = g.
Proof. unfold advance. rewrite Nat.add_0_r. destruct g. reflexivity. Qed.

(** The token dropout keeps a part of the tokens, in their order, and
    draws once per token. *)
Lemma drop_tokens_ok (rate : Q) (l : list string) :
  forall g : Rng,
    exists kept : list string,
      drop_tokens rate l g = (Ok kept, advance (List.length l) g)
      /\ subseq kept l
      /\ ((1 <= rate)%Q -> kept = []).
Proof.
  induction l as [|t l IH]; intros g.
  - exists []. simpl. unfold ret. rewrite advance_0.
    split; [reflexivity|]. split; [constructor|reflexivity].
  - cbn [drop_tokens].
    rewrite (bind_run _ (rand_float_run g)).
    destruct (IH (advance 1 g)) as (kept & Hrun & Hsub & Hall).
    rewrite (bind_run _ Hrun). unfold ret.
    rewrite advance_advance. cbn [List.length Nat.add].
    destruct (Qltb rate (fst (random g))) eqn:E.
    + exists (t :: kept). split; [reflexivity|].
      split; [constructor; exact Hsub|].
      intros H1. apply Qltb_lt in E.
      pose proof (random_unit g) as (_ & Hlt & _).
      exfalso. apply (Qlt_irrefl 1).
      eapply Qle_lt_trans; [exact H1|]. eapply Qlt_trans; eassumption.
    + exists kept. split; [reflexivity|].
      split; [constructor; exact Hsub|exact Hall].
Qed.

Lemma rand_choice_ok (l : list string) (g : Rng) :
  l <> [] ->
  exists t : string, rand_choice l g = (Ok t, advance 1 g) /\ In t l.
Proof.
  intros Hne. unfold rand_choice. destruct l as [|x l]; [contradiction|].
  unfold next_draw, advance. rewrite Nat.add_1_r.
  eexists. split; [reflexivity|].
  apply nth_In.
  assert (Hpos : (N.of_nat (List.length (x :: l)) <> 0)%N)
    by (simpl List.length; lia).
  pose proof (N.mod_upper_bound (draws g (cursor g)) _ Hpos). lia.
Qed.

Lemma str_app_nil_r (s : string) : String.append s EmptyString = s.
Proof. induction s as [|a s IH]; simpl; congruence. Qed.

Lemma str_app_assoc (a b c : string) :
  String.append (String.append a b) c = String.append a (String.append b c).
Proof. induction a as [|x a IH]; simpl; congruence. Qed.

(** [n] triggers, each one of the list, are put after the caption. *)
Lemma add_triggers_ok (n : nat) (triggers : list string) :
  forall (caption : string) (g : Rng),
    triggers <> [] ->
    exists ts : list string,
      add_triggers n triggers caption g
      = (Ok (String.append caption
               (String.concat "" (map (String.append ", ") ts))),
         advance n g)
      /\ List.length ts = n
      /\ Forall (fun t => In t triggers) ts.
Proof.
  induction n as [|n IH]; intros caption g Hne.
  - exists []. simpl. unfold ret. rewrite advance_0, str_app_nil_r.
    split; [reflexivity|]. split; [reflexivity|constructor].
  - cbn [add_triggers].
    destruct (rand_choice_ok triggers g Hne) as (t & Ht & Hin).
    rewrite (bind_run _ Ht).
    destruct (IH (String.append caption (String.append ", " t))
                 (advance 1 g) Hne) as (ts & Hrun & Hlen & Hall).
    exists (t :: ts). rewrite Hrun, advance_advance.
    split; [|split; [simpl; congruence|constructor; assumption]].
    f_equal. f_equal. rewrite str_app_assoc. f_equal.
    destruct ts as [|t' ts]; [apply str_app_nil_r|reflexivity].
Qed.

Section CaptionProperties.

Variables Trigger ToReplace : Type.
Variable inject_trigger_into_prompt :
  string -> Trigger -> ToReplace -> bool -> res string.
Variable trigger : Trigger.
Variable to_replace_list : ToReplace.
Variable add_if_not_present : bool.

(** The caption [get_caption] starts from. *)
Lemma get_caption_quiet (short_caption : bool) (it : CaptionItem) (g : Rng)
    (raw : string) :
  raw = match (if short_caption then raw_caption_short it
               else raw_caption it) with
        | None => EmptyString
        | Some c => c
        end ->
  shuffle_tokens (caption_config it) = false ->
  random_triggers (caption_config it) = [] ->
  short_caption = true
  \/ ((caption_dropout_rate (caption_config it) <= 0)%Q
      /\ (token_dropout_rate (caption_config it) <= 0)%Q) ->
  get_caption Trigger ToReplace inject_trigger_into_prompt trigger
    to_replace_list add_if_not_present short_caption it g
  = (inject_trigger_into_prompt (String.concat ", " (token_list_of raw))
       trigger to_replace_list add_if_not_present, g).
Proof.
  intros -> Hsh Htr Hq. unfold get_caption. rewrite Hsh, Htr.
  assert (E1 : Qltb 0 (caption_dropout_rate (caption_config it))
               && negb short_caption = false).
  { destruct Hq as [->|[H _]]; [apply andb_false_r|].
    rewrite (proj2 (Qltb_ge _ _) H). reflexivity. }
  assert (E2 : Qltb 0 (token_dropout_rate (caption_config it))
               && negb short_caption = false).
  { destruct Hq as [->|[_ H]]; [apply andb_false_r|].
    rewrite (proj2 (Qltb_ge _ _) H). reflexivity. }
  rewrite E1, E2. unfold bind, ret, lift_res.
  destruct (inject_trigger_into_prompt _ trigger to_replace_list
              add_if_not_present); reflexivity.
Qed.

End CaptionProperties.

(** X8: without shuffling, random triggers and dropout (short captions are
    never dropped from), [get_caption] hands the tokens of the raw caption,
    joined by a comma and a space, to [inject_trigger_into_prompt], returns
    what it returns and draws nothing.  For a raw caption that
    [clean_caption] produced, as [load_caption] stores it, what is handed
    over is the raw caption itself. *)
Theorem get_caption_plain (Trigger ToReplace : Type)
    (inject_trigger_into_prompt :
       string -> Trigger -> ToReplace -> bool -> res string)
    (trigger : Trigger) (to_replace_list : ToReplace)
    (add_if_not_present short_caption : bool) (it : CaptionItem) (g : Rng) :
  shuffle_tokens (caption_config it) = false ->
  random_triggers (caption_config it) = [] ->
  short_caption = true
  \/ ((caption_dropout_rate (caption_config it) <= 0)%Q
      /\ (token_dropout_rate (caption_config it) <= 0)%Q) ->
  let raw := match (if short_caption then raw_caption_short it
                    else raw_caption it) with
             | None => EmptyString
             | Some c => c
             end in
  get_caption Trigger ToReplace inject_trigger_into_prompt trigger
    to_replace_list add_if_not_present short_caption it g
  = (inject_trigger_into_prompt (String.concat ", " (token_list_of raw))
       trigger to_replace_list add_if_not_present, g)
  /\ (forall text : string,
        raw = clean_caption text ->
        get_caption Trigger ToReplace inject_trigger_into_prompt trigger
          to_replace_list add_if_not_present short_caption it g
        = (inject_trigger_into_prompt raw trigger to_replace_list
             add_if_not_present, g)).
Proof.
  intros Hsh Htr Hq raw.
  pose proof (get_caption_quiet Trigger ToReplace inject_trigger_into_prompt
                trigger to_replace_list add_if_not_present short_caption it g
                raw eq_refl Hsh Htr Hq) as Hrun.
  split; [exact Hrun|].
  intros text Hc. rewrite Hrun.
  destruct (clean_caption_form text) as (ts & E & Ht & _).
  rewrite Hc, E, (token_list_of_join _ Ht). reflexivity.
Qed.

(** X9: a long caption is dropped as a whole when the draw is below
    [caption_dropout_rate], which is always the case for a rate of 1 or
    more: [get_caption] then returns the empty string after one draw and
    does not call [inject_trigger_into_prompt]. *)
Theorem get_caption_drops_caption (Trigger ToReplace : Type)
    (inject_trigger_into_prompt :
       string -> Trigger -> ToReplace -> bool -> res string)
    (trigger : Trigger) (to_replace_list : ToReplace)
    (add_if_not_present : bool) (it : CaptionItem) (g : Rng) :
  (1 <= caption_dropout_rate (caption_config it))%Q
  \/ (fst (random g) < caption_dropout_rate (caption_config it))%Q ->
  get_caption Trigger ToReplace inject_trigger_into_prompt trigger
    to_replace_list add_if_not_present false it g
  = (Ok EmptyString, advance 1 g).
Proof.
  intros H.
  pose proof (random_unit g) as (H0 & H1 & _).
  assert (Hlt : (fst (random g) < caption_dropout_rate (caption_config it))%Q).
  { destruct H as [H|H]; [|exact H]. eapply Qlt_le_trans; eassumption. }
  assert (Hpos : (0 < caption_dropout_rate (caption_config it))%Q)
    by (eapply Qle_lt_trans; eassumption).
  unfold get_caption.
  rewrite (proj2 (Qltb_lt _ _) Hpos). cbn [negb andb].
  unfold bind at 1. unfold bind at 1. rewrite rand_float_run.
  unfold ret at 1. rewrite (proj2 (Qltb_lt _ _) Hlt). reflexivity.
Qed.

Lemma get_caption_drops_caption_witness :
  get_caption (option string) (list string) SampleCaption.inject
    (Some "sks") [] true false
    (SampleCaption.captioned SampleCaption.dropping) Sample.zero_rng
  = (Ok EmptyString, advance 1 Sample.zero_rng).
Proof.
  apply (get_caption_drops_caption (option string) (list string)
           SampleCaption.inject (Some "sks") [] true
           (SampleCaption.captioned SampleCaption.dropping) Sample.zero_rng).
  left. simpl. apply Qle_refl.
Defined.

(** X10: the token dropout: for a long caption that is not dropped as a whole,
    without shuffling and random triggers, [get_caption] hands
    [inject_trigger_into_prompt] a part of the tokens of the raw caption, in
    their order, after one draw per token; with a rate of 1 or more it hands
    over the empty caption. *)
Theorem get_caption_token_dropout (Trigger ToReplace : Type)
    (inject_trigger_into_prompt :
       string -> Trigger -> ToReplace -> bool -> res string)
    (trigger : Trigger) (to_replace_list : ToReplace)
    (add_if_not_present : bool) (it : CaptionItem) (g : Rng) :
  shuffle_tokens (caption_config it) = false ->
  random_triggers (caption_config it) = [] ->
  (caption_dropout_rate (caption_config it) <= 0)%Q ->
  (0 < token_dropout_rate (caption_config it))%Q ->
  let tokens := token_list_of (match raw_caption it with
                               | None => EmptyString
                               | Some c => c
                               end) in
  exists kept : list string,
    subseq kept tokens
    /\ get_caption Trigger ToReplace inject_trigger_into_prompt trigger
         to_replace_list add_if_not_present false it g
       = (inject_trigger_into_prompt (String.concat ", " kept) trigger
            to_replace_list add_if_not_present,
          advance (List.length tokens) g)
    /\ ((1 <= token_dropout_rate (caption_config it))%Q -> kept = []).
Proof.
  intros Hsh Htr Hc Ht tokens.
  destruct (drop_tokens_ok (token_dropout_rate (caption_config it)) tokens g)
    as (kept & Hrun & Hsub & Hall).
  exists kept. split; [exact Hsub|]. split; [|exact Hall].
  unfold get_caption. rewrite Hsh, Htr.
  rewrite (proj2 (Qltb_ge _ _) Hc), (proj2 (Qltb_lt _ _) Ht).
  cbn [negb andb]. fold tokens.
  unfold bind at 1. unfold ret at 1. cbv iota beta.
  unfold bind at 1. unfold ret at 1. cbv iota beta.
  rewrite (bind_run _ Hrun).
  unfold bind, ret, lift_res.
  destruct (inject_trigger_into_prompt _ trigger to_replace_list
              add_if_not_present); reflexivity.
Qed.

Lemma get_caption_token_dropout_witness :
  exists kept : list string,
    subseq kept ["a cat"; "on a mat"; "asleep"]
    /\ get_caption (option string) (list string) SampleCaption.inject
         None [] false false
         (SampleCaption.captioned SampleCaption.thinning)
         SampleCaption.alternating
       = (SampleCaption.inject (String.concat ", " kept) None [] false,
          advance 3 SampleCaption.alternating)
    /\ ((1 <= 1 # 2)%Q -> kept = []).
Proof.
  apply (get_caption_token_dropout (option string) (list string)
           SampleCaption.inject None [] false
           (SampleCaption.captioned SampleCaption.thinning)
           SampleCaption.alternating);
    [reflexivity|reflexivity|simpl; apply Qle_refl|reflexivity].
Defined.

Lemma get_caption_plain_witness :
  get_caption (option string) (list string) SampleCaption.inject
    (Some "sks") [] true false
    (SampleCaption.captioned SampleCaption.quiet) Sample.zero_rng
  = (Ok "sks, a cat, on a mat, asleep", Sample.zero_rng)
  /\ (forall text : string,
        "a cat, on a mat, asleep" = clean_caption text ->
        get_caption (option string) (list string) SampleCaption.inject
          (Some "sks") [] true false
          (SampleCaption.captioned SampleCaption.quiet) Sample.zero_rng
        = (Ok "sks, a cat, on a mat, asleep", Sample.zero_rng)).
Proof.
  apply (get_caption_plain (option string) (list string)
           SampleCaption.inject (Some "sks") [] true false
           (SampleCaption.captioned SampleCaption.quiet) Sample.zero_rng);
    [reflexivity|reflexivity|].
  right. split; simpl; apply Qle_refl.
Defined.

(** X11: the random triggers: without shuffling and dropout, when
    [inject_trigger_into_prompt] returns a caption, [get_caption] returns it
    followed by triggers of the list [random_triggers], each after a comma
    and a space.  Their number is none for a [random_triggers_max] of 0 or
    less, exactly one for 1, and, for a larger one, a number drawn between 0
    and [random_triggers_max]; each trigger costs a draw. *)
Theorem get_caption_random_triggers (Trigger ToReplace : Type)
    (inject_trigger_into_prompt :
       string -> Trigger -> ToReplace -> bool -> res string)
    (trigger : Trigger) (to_replace_list : ToReplace)
    (add_if_not_present short_caption : bool) (it : CaptionItem) (g : Rng)
    (injected : string) :
  shuffle_tokens (caption_config it) = false ->
  random_triggers (caption_config it) <> [] ->
  short_caption = true
  \/ ((caption_dropout_rate (caption_config it) <= 0)%Q
      /\ (token_dropout_rate (caption_config it) <= 0)%Q) ->
  inject_trigger_into_prompt
    (String.concat ", "
       (token_list_of (match (if short_caption then raw_caption_short it
                              else raw_caption it) with
                       | None => EmptyString
                       | Some c => c
                       end)))
    trigger to_replace_list add_if_not_present = Ok injected ->
  let most := random_triggers_max (caption_config it) in
  exists (ts : list string) (g' : Rng),
    get_caption Trigger ToReplace inject_trigger_into_prompt trigger
      to_replace_list add_if_not_present short_caption it g
    = (Ok (String.append injected
             (String.concat "" (map (String.append ", ") ts))), g')
    /\ Forall (fun t => In t (random_triggers (caption_config it))) ts
    /\ (most <= 0 -> ts = [] /\ g' = g)
    /\ (most = 1 -> List.length ts = 1%nat /\ g' = advance 1 g)
    /\ (1 < most ->
        Z.of_nat (List.length ts) <= most
        /\ g' = advance (1 + List.length ts) g).
Proof.
  intros Hsh Htr Hq Hinj most.
  assert (E1 : Qltb 0 (caption_dropout_rate (caption_config it))
               && negb short_caption = false).
  { destruct Hq as [->|[H _]]; [apply andb_false_r|].
    rewrite (proj2 (Qltb_ge _ _) H). reflexivity. }
  assert (E2 : Qltb 0 (token_dropout_rate (caption_config it))
               && negb short_caption = false).
  { destruct Hq as [->|[_ H]]; [apply andb_false_r|].
    rewrite (proj2 (Qltb_ge _ _) H). reflexivity. }
  unfold get_caption. rewrite Hsh, E1, E2.
  unfold bind at 1. unfold ret at 1. cbv iota beta.
  unfold bind at 1. unfold ret at 1. cbv iota beta.
  unfold bind at 1. unfold ret at 1. cbv iota beta.
  unfold bind at 1. unfold lift_res at 1. rewrite Hinj. cbv iota beta.
  fold most.
  destruct (random_triggers (caption_config it)) as [|t0 triggers] eqn:Et;
    [contradiction|].
  destruct (1 <? most) eqn:E.
  - apply Z.ltb_lt in E.
    destruct (randint 0 most g) as [[n|e] g1] eqn:Er.
    2:{ unfold randint in Er.
        rewrite (proj2 (Z.ltb_ge most 0)) in Er by lia. discriminate Er. }
    pose proof (randint_range _ _ _ _ _ Er) as [Hn Hg1].
    unfold bind at 1. unfold bind at 1. rewrite Er. cbv iota beta.
    destruct (0 <? n) eqn:En.
    + destruct (add_triggers_ok (Z.to_nat n) (t0 :: triggers) injected g1 Htr)
        as (ts & Hrun & Hlen & Hall).
      rewrite Hrun. exists ts, (advance (Z.to_nat n) g1).
      split; [reflexivity|]. split; [exact Hall|].
      split; [lia|]. split; [lia|]. intros _. split; [lia|].
      rewrite Hg1, Hlen. unfold advance. simpl.
      rewrite <- Nat.add_succ_comm. reflexivity.
    + apply Z.ltb_ge in En. exists [], g1.
      unfold ret. rewrite str_app_nil_r.
      split; [reflexivity|]. split; [constructor|].
      split; [lia|]. split; [lia|]. intros _. split; [simpl; lia|].
      rewrite Hg1. unfold advance. simpl. rewrite Nat.add_1_r. reflexivity.
  - apply Z.ltb_ge in E.
    unfold bind at 1. unfold bind at 1. unfold ret at 1. cbv iota beta.
    destruct (0 <? most) eqn:En.
    + apply Z.ltb_lt in En. assert (Hm : most = 1) by lia.
      destruct (add_triggers_ok (Z.to_nat most) (t0 :: triggers) injected g
                  Htr) as (ts & Hrun & Hlen & Hall).
      rewrite Hrun. exists ts, (advance (Z.to_nat most) g).
      split; [reflexivity|]. split; [exact Hall|].
      split; [lia|]. split; [|lia].
      intros _. rewrite Hlen, Hm. split; reflexivity.
    + apply Z.ltb_ge in En. exists [], g.
      unfold ret. rewrite str_app_nil_r.
      split; [reflexivity|]. split; [constructor|].
      split; [intros _; split; reflexivity|]. split; lia.
Qed.

Lemma get_caption_random_triggers_witness :
  exists (ts : list string) (g' : Rng),
    get_caption (option string) (list string) SampleCaption.inject
      None [] false false
      (SampleCaption.captioned SampleCaption.with_triggers)
      SampleCaption.alternating
    = (Ok (String.append "a cat, on a mat, asleep"
             (String.concat "" (map (String.append ", ") ts))), g')
    /\ Forall (fun t => In t ["photo"; "4k"]) ts
    /\ (3 <= 0 -> ts = [] /\ g' = SampleCaption.alternating)
    /\ (3 = 1 -> List.length ts = 1%nat
                 /\ g' = advance 1 SampleCaption.alternating)
    /\ (1 < 3 ->
        Z.of_nat (List.length ts) <= 3
        /\ g' = advance (1 + List.length ts) SampleCaption.alternating).
Proof.
  apply (get_caption_random_triggers (option string) (list string)
           SampleCaption.inject None [] false false
           (SampleCaption.captioned SampleCaption.with_triggers)
           SampleCaption.alternating "a cat, on a mat, asleep");
    [reflexivity|discriminate| |reflexivity].
  right. split; simpl; apply Qle_refl.
Defined.

Lemma rand_shuffle_ok {A : Type} (l : list A) (g : Rng) :
  exists (l' : list A) (g' : Rng),
    rand_shuffle l g = (Ok l', g') /\ Permutation l l'.
Proof.
  unfold rand_shuffle. pose proof (shuffle_perm l g) as H.
  destruct (shuffle l g) as [l' g']. exists l', g'.
  split; [reflexivity|exact H].
Qed.

(** X12: shuffling loses no token: with [shuffle_tokens] set, and without
    dropout and random triggers, [inject_trigger_into_prompt] is handed a
    rearrangement of the tokens of the raw caption, joined; when it
    raises, so does [get_caption]; when it returns a caption,
    [get_caption] returns a rearrangement of the tokens of that caption,
    joined by a comma and a space. *)
Theorem get_caption_shuffled (Trigger ToReplace : Type)
    (inject_trigger_into_prompt :
       string -> Trigger -> ToReplace -> bool -> res string)
    (trigger : Trigger) (to_replace_list : ToReplace)
    (add_if_not_present short_caption : bool) (it : CaptionItem) (g : Rng) :
  shuffle_tokens (caption_config it) = true ->
  random_triggers (caption_config it) = [] ->
  short_caption = true
  \/ ((caption_dropout_rate (caption_config it) <= 0)%Q
      /\ (token_dropout_rate (caption_config it) <= 0)%Q) ->
  let raw := match (if short_caption then raw_caption_short it
                    else raw_caption it) with
             | None => EmptyString
             | Some c => c
             end in
  exists first : list string,
    Permutation (token_list_of raw) first
    /\ match inject_trigger_into_prompt (String.concat ", " first) trigger
               to_replace_list add_if_not_present with
       | Ok injected =>
           exists (second : list string) (g' : Rng),
             Permutation (token_list_of injected) second
             /\ get_caption Trigger ToReplace inject_trigger_into_prompt
                  trigger to_replace_list add_if_not_present short_caption
                  it g
                = (Ok (String.concat ", " second), g')
       | Raise e =>
           exists g' : Rng,
             get_caption Trigger ToReplace inject_trigger_into_prompt
               trigger to_replace_list add_if_not_present short_caption it g
             = (Raise e, g')
       end.
Proof.
  intros Hsh Htr Hq raw.
  assert (E1 : Qltb 0 (caption_dropout_rate (caption_config it))
               && negb short_caption = false).
  { destruct Hq as [->|[H _]]; [apply andb_false_r|].
    rewrite (proj2 (Qltb_ge _ _) H). reflexivity. }
  assert (E2 : Qltb 0 (token_dropout_rate (caption_config it))
               && negb short_caption = false).
  { destruct Hq as [->|[_ H]]; [apply andb_false_r|].
    rewrite (proj2 (Qltb_ge _ _) H). reflexivity. }
  destruct (rand_shuffle_ok (token_list_of raw) g) as (first & g1 & Hrun & Hp).
  exists first. split; [exact Hp|].
  assert (Hgc :
    get_caption Trigger ToReplace inject_trigger_into_prompt trigger
      to_replace_list add_if_not_present short_caption it g
    = match inject_trigger_into_prompt (String.concat ", " first) trigger
              to_replace_list add_if_not_present with
      | Ok injected =>
          bind (rand_shuffle (token_list_of injected))
               (fun token_list => ret (String.concat ", " token_list)) g1
      | Raise e => (Raise e, g1)
      end).
  { unfold get_caption. rewrite Hsh, Htr, E1, E2. fold raw.
    unfold bind at 1. unfold ret at 1. cbv iota beta.
    rewrite (bind_run _ Hrun).
    unfold bind at 1. unfold ret at 1. cbv iota beta.
    unfold bind at 1. unfold lift_res at 1.
    destruct (inject_trigger_into_prompt (String.concat ", " first) trigger
                to_replace_list add_if_not_present) as [injected|e];
      reflexivity. }
  rewrite Hgc.
  destruct (inject_trigger_into_prompt (String.concat ", " first) trigger
              to_replace_list add_if_not_present) as [injected|e].
  - destruct (rand_shuffle_ok (token_list_of injected) g1)
      as (second & g2 & Hrun2 & Hp2).
    exists second, g2. split; [exact Hp2|].
    rewrite (bind_run _ Hrun2). reflexivity.
  - exists g1. reflexivity.
Qed.

Lemma get_caption_shuffled_witness :
  exists first : list string,
    Permutation ["a cat"; "on a mat"; "asleep"] first
    /\ match SampleCaption.inject (String.concat ", " first) (Some "sks")
               [] true with
       | Ok injected =>
           exists (second : list string) (g' : Rng),
             Permutation (token_list_of injected) second
             /\ get_caption (option string) (list string)
                  SampleCaption.inject (Some "sks") [] true false
                  (SampleCaption.captioned SampleCaption.shuffling)
                  Sample.zero_rng
                = (Ok (String.concat ", " second), g')
       | Raise e =>
           exists g' : Rng,
             get_caption (option string) (list string)
               SampleCaption.inject (Some "sks") [] true false
               (SampleCaption.captioned SampleCaption.shuffling)
               Sample.zero_rng
             = (Raise e, g')
       end.
Proof.
  apply (get_caption_shuffled (option string) (list string)
           SampleCaption.inject (Some "sks") [] true false
           (SampleCaption.captioned SampleCaption.shuffling)
           Sample.zero_rng);
    [reflexivity|reflexivity|].
  right. split; simpl; apply Qle_refl.
Defined.

(** A caption with line breaks, tabs, empty tokens and a closing comma. *)
Example clean_caption_sample :
  clean_caption
    (String.concat (String PyText.newline EmptyString)
       [" a cat ,on a mat"; ""; "asleep,,"])
  = "a cat, on a mat, asleep".
Proof. vm_compute. reflexivity. Qed.

(** ** The name and the place of a cached latent ([get_latent_path]) *)

Lemma below_256 (p : Z -> bool) :
  forallb (fun n => p (Z.of_nat n)) (seq 0 256) = true ->
  forall z : Z, 0 <= z < 256 -> p z = true.
Proof.
  intros H z Hz. rewrite forallb_forall in H.
  rewrite <- (Z2Nat.id z) by lia. apply H, in_seq. lia.
Qed.

Lemma Z_of_byte_range (b : byte) : 0 <= MD5.Z_of_byte b < 256.
Proof.
  unfold MD5.Z_of_byte. pose proof (Byte.to_N_bounded b). lia.
Qed.

Lemma sym_b64 (n : Z) :
  0 <= n < 64 ->
  is_b64 (Base64.sym n) = true /\ Base64.sym n <> "="%char.
Proof.
  intros Hn.
  assert (H : forallb (fun k => is_b64 (Base64.sym (Z.of_nat k))
                                && negb (Ascii.eqb (Base64.sym (Z.of_nat k))
                                                   "="%char))
                      (seq 0 64) = true) by (vm_compute; reflexivity).
  rewrite forallb_forall in H.
  specialize (H (Z.to_nat n)). rewrite Z2Nat.id in H by lia.
  assert (Hin : In (Z.to_nat n) (seq 0 64)) by (apply in_seq; lia).
  apply H in Hin. apply andb_prop in Hin. destruct Hin as [H1 H2].
  split; [exact H1|]. apply negb_true_iff, Ascii.eqb_neq in H2. exact H2.
Qed.

Lemma sym_is_b64 (n : Z) : 0 <= n < 64 -> is_b64 (Base64.sym n) = true.
Proof. intros H. apply sym_b64, H. Qed.

(** The four 6-bit groups of three bytes. *)
Lemma sextets (a b c : Z) :
  0 <= a < 256 -> 0 <= b < 256 -> 0 <= c < 256 ->
  0 <= Z.shiftr a 2 < 64
  /\ 0 <= Z.lor (Z.shiftl (Z.land a 3) 4) (Z.shiftr b 4) < 64
  /\ 0 <= Z.lor (Z.shiftl (Z.land b 15) 2) (Z.shiftr c 6) < 64
  /\ 0 <= Z.land c 63 < 64
  /\ 0 <= Z.shiftl (Z.land a 3) 4 < 64.
Proof.
  intros Ha Hb Hc.
  assert (H1 : forall z : Z, 0 <= z < 256 ->
             ((0 <=? Z.shiftr z 2) && (Z.shiftr z 2 <? 64)
              && (0 <=? Z.land z 63) && (Z.land z 63 <? 64)
              && (0 <=? Z.shiftl (Z.land z 3) 4)
              && (Z.shiftl (Z.land z 3) 4 <? 64)) = true).
  { apply below_256. vm_compute. reflexivity. }
  pose (q := fun x y : Z =>
               (0 <=? Z.lor (Z.shiftl (Z.land x 3) 4) (Z.shiftr y 4))
               && (Z.lor (Z.shiftl (Z.land x 3) 4) (Z.shiftr y 4) <? 64)
               && (0 <=? Z.lor (Z.shiftl (Z.land x 15) 2) (Z.shiftr y 6))
               && (Z.lor (Z.shiftl (Z.land x 15) 2) (Z.shiftr y 6) <? 64)).
  assert (H2 : forall x : Z, 0 <= x < 256 ->
               forall y : Z, 0 <= y < 256 -> q x y = true).
  { intros x Hx. apply below_256. revert x Hx.
    apply (below_256
             (fun x => forallb (fun n => q x (Z.of_nat n)) (seq 0 256))).
    vm_compute. reflexivity. }
  pose proof (H1 a Ha) as Ea. pose proof (H1 c Hc) as Ec.
  pose proof (H2 a Ha b Hb) as Eab. pose proof (H2 b Hb c Hc) as Ebc.
  unfold q in Eab, Ebc. clear H1 H2 q.
  repeat match goal with
         | H : _ && _ = true |- _ => apply andb_prop in H; destruct H
         end.
  repeat match goal with
         | H : (_ <=? _) = true |- _ => apply Z.leb_le in H
         | H : (_ <? _) = true |- _ => apply Z.ltb_lt in H
         end.
  lia.
Qed.

Lemma digest_length (data : list byte) :
  List.length (MD5.digest data) = 16%nat.
Proof.
  unfold MD5.digest, MD5.digest_Z.
  destruct (MD5.chunks _ _ _) as [[[a b] c] d].
  rewrite length_map, !length_app. unfold MD5.le_bytes.
  rewrite !length_map, !length_seq. reflexivity.
Qed.

Lemma remove_char_b64 (s : string) :
  PyStr.all_chars is_b64 s = true -> PyStr.remove_char "="%char s = s.
Proof.
  induction s as [|a r IH]; simpl; [reflexivity|].
  intros H. apply andb_prop in H. destruct H as [Ha Hr].
  destruct (Ascii.eqb a "="%char) eqn:E.
  - apply Ascii.eqb_eq in E. subst a. discriminate Ha.
  - rewrite (IH Hr). reflexivity.
Qed.

Lemma remove_char_append (c : ascii) (a b : string) :
  PyStr.remove_char c (String.append a b)
  = String.append (PyStr.remove_char c a) (PyStr.remove_char c b).
Proof.
  induction a as [|x a IH]; simpl; [reflexivity|].
  destruct (Ascii.eqb x c); simpl; rewrite IH; reflexivity.
Qed.

(** The hash of 16 bytes: 22 characters of the alphabet, the padding
    removed. *)
Lemma b64_of_16 (bs : list byte) :
  List.length bs = 16%nat ->
  exists s : string,
    Base64.urlsafe_b64encode bs = String.append s "=="
    /\ String.length s = 22%nat
    /\ PyStr.all_chars is_b64 s = true.
Proof.
  intros Hlen.
  do 16 (destruct bs as [|? bs]; [discriminate Hlen|]).
  destruct bs; [|discriminate Hlen].
  unfold Base64.urlsafe_b64encode. cbn [map Base64.encode_Z].
  eexists (String _ (String _ (String _ (String _ (String _ (String _
          (String _ (String _ (String _ (String _ (String _ (String _
          (String _ (String _ (String _ (String _ (String _ (String _
          (String _ (String _ (String _ (String _ EmptyString)))))))))))))))))))))).
  split; [reflexivity|]. split; [reflexivity|].
  cbn [PyStr.all_chars].
  repeat match goal with
         | |- context [is_b64 (Base64.sym ?n)] =>
             rewrite (sym_is_b64 n)
               by (match goal with
                   | |- 0 <= Z.shiftr ?a 2 < 64 => apply (sextets a 0 0)
                   | |- 0 <= Z.lor (Z.shiftl (Z.land ?a 3) 4) (Z.shiftr ?b 4)
                        < 64 => apply (sextets a b 0)
                   | |- 0 <= Z.lor (Z.shiftl (Z.land ?b 15) 2) (Z.shiftr ?c 6)
                        < 64 => apply (sextets 0 b c)
                   | |- 0 <= Z.land ?c 63 < 64 => apply (sextets 0 0 c)
                   | |- 0 <= Z.shiftl (Z.land ?a 3) 4 < 64 =>
                       apply (sextets a 0 0)
                   end; first [apply Z_of_byte_range | lia])
         end.
  reflexivity.
Qed.

Lemma latent_hash_str_b64 (it : FileItemDTO) :
  String.length (latent_hash_str it) = 22%nat
  /\ PyStr.all_chars is_b64 (latent_hash_str it) = true.
Proof.
  unfold latent_hash_str.
  destruct (b64_of_16 (MD5.digest (latent_hash_input it))
              (digest_length _)) as (s & -> & Hlen & Hall).
  rewrite remove_char_append, (remove_char_b64 s Hall).
  change (PyStr.remove_char "=" "==") with EmptyString.
  rewrite str_app_nil_r. split; assumption.
Qed.

Lemma rsplit_at_absent (c : ascii) (s : string) :
  PyStr.all_chars (fun a => negb (Ascii.eqb a c)) s = true ->
  PyStr.rsplit_at c s = None.
Proof.
  induction s as [|a r IH]; simpl; [reflexivity|].
  intros H. apply andb_prop in H. destruct H as [Ha Hr].
  apply negb_true_iff in Ha. rewrite (IH Hr), Ha. reflexivity.
Qed.

(** Splitting at the last [c]: what follows it holds no [c]. *)
Lemma rsplit_at_last (c : ascii) (s h t : string) :
  PyStr.rsplit_at c s = Some (h, t) ->
  s = String.append h (String c t)
  /\ PyStr.all_chars (fun a => negb (Ascii.eqb a c)) t = true.
Proof.
  revert h t. induction s as [|a r IH]; intros h t; simpl; [discriminate|].
  destruct (PyStr.rsplit_at c r) as [[h' t']|] eqn:E.
  - intros H. injection H as <- <-.
    destruct (IH h' t' eq_refl) as [-> Ht]. split; [reflexivity|exact Ht].
  - destruct (Ascii.eqb a c) eqn:Ea; [|discriminate].
    intros H. injection H as <- <-. apply Ascii.eqb_eq in Ea. subst a.
    split; [reflexivity|].
    clear IH. induction r as [|x r IHr]; [reflexivity|].
    simpl in E. destruct (PyStr.rsplit_at c r) as [[h' t']|];
      [discriminate|].
    destruct (Ascii.eqb x c) eqn:Ex; [discriminate|].
    simpl. rewrite Ex. apply IHr. reflexivity.
Qed.

Lemma rsplit_at_absent_inv (c : ascii) (s : string) :
  PyStr.rsplit_at c s = None ->
  PyStr.all_chars (fun a => negb (Ascii.eqb a c)) s = true.
Proof.
  induction s as [|a r IH]; simpl; [reflexivity|].
  destruct (PyStr.rsplit_at c r) as [[h t]|]; [discriminate|].
  destruct (Ascii.eqb a c); [discriminate|].
  intros _. apply IH. reflexivity.
Qed.

Lemma rsplit_at_app (c : ascii) (a f : string) :
  PyStr.all_chars (fun x => negb (Ascii.eqb x c)) f = true ->
  PyStr.rsplit_at c (String.append a (String c f)) = Some (a, f).
Proof.
  intros Hf. induction a as [|x a IH]; simpl.
  - rewrite (rsplit_at_absent c f Hf), Ascii.eqb_refl. reflexivity.
  - rewrite IH. reflexivity.
Qed.

Lemma rstrip_app_sep (c : ascii) (a : string) :
  PyStr.rstrip c (String.append a (String c EmptyString)) = PyStr.rstrip c a.
Proof.
  induction a as [|x a IH]; simpl.
  - rewrite Ascii.eqb_refl. reflexivity.
  - rewrite IH. reflexivity.
Qed.

Lemma rstrip_open (c : ascii) (a : string) :
  PyStr.ends_with c a = false -> PyStr.rstrip c a = a.
Proof.
  induction a as [|x a IH]; [reflexivity|].
  destruct a as [|y a].
  - simpl. intros ->. reflexivity.
  - intros H. change (PyStr.ends_with c (String x (String y a)))
      with (PyStr.ends_with c (String y a)) in H.
    change (PyStr.rstrip c (String x (String y a)))
      with (let r' := PyStr.rstrip c (String y a) in
            if PyStr.is_empty r' && Ascii.eqb x c then EmptyString
            else String x r').
    rewrite (IH H). reflexivity.
Qed.

Lemma ends_with_append (c : ascii) (a b : string) :
  b <> EmptyString ->
  PyStr.ends_with c (String.append a b) = PyStr.ends_with c b.
Proof.
  intros Hb. induction a as [|x a IH]; [reflexivity|].
  simpl String.append.
  destruct (String.append a b) as [|y r] eqn:E.
  - destruct a; [simpl in E; contradiction|discriminate E].
  - exact IH.
Qed.

(** The directory of the cache: it has a name, which is not made of
    slashes and does not end with one. *)
Lemma latent_dir_open (img_dir : string) :
  let latent_dir := PyStr.join img_dir "_latent_cache" in
  PyStr.ends_with PyStr.slash latent_dir = false
  /\ PyStr.is_empty latent_dir = false
  /\ PyStr.all_chars (Ascii.eqb PyStr.slash)
       (String.append latent_dir (String PyStr.slash EmptyString)) = false.
Proof.
  intros latent_dir.
  assert (H : exists pre : string,
             latent_dir = String.append pre "_latent_cache").
  { unfold latent_dir, PyStr.join.
    change (PyStr.starts_with PyStr.slash "_latent_cache") with false.
    cbv iota.
    destruct (PyStr.is_empty img_dir || PyStr.ends_with PyStr.slash img_dir).
    - exists img_dir. reflexivity.
    - exists (String.append img_dir (String PyStr.slash EmptyString)).
      rewrite str_app_assoc. reflexivity. }
  destruct H as [pre ->].
  split; [rewrite ends_with_append by discriminate; reflexivity|].
  split.
  - destruct pre; reflexivity.
  - rewrite !all_chars_append. simpl.
    rewrite andb_false_r. reflexivity.
Qed.

Lemma starts_with_absent (c : ascii) (s : string) :
  PyStr.all_chars (fun a => negb (Ascii.eqb a c)) s = true ->
  PyStr.starts_with c s = false.
Proof.
  destruct s as [|a r]; simpl; [reflexivity|].
  intros H. apply andb_prop in H. destruct H as [Ha _].
  apply negb_true_iff. exact Ha.
Qed.

(** [os.path.join], [os.path.dirname] and [os.path.basename] on a
    directory and a file name. *)
Lemma join_dirname_basename (d f : string) :
  PyStr.ends_with PyStr.slash d = false ->
  PyStr.is_empty d = false ->
  PyStr.all_chars (Ascii.eqb PyStr.slash)
    (String.append d (String PyStr.slash EmptyString)) = false ->
  PyStr.all_chars (fun a => negb (Ascii.eqb a PyStr.slash)) f = true ->
  PyStr.join d f = String.append d (String PyStr.slash f)
  /\ PyStr.dirname (PyStr.join d f) = d
  /\ PyStr.basename (PyStr.join d f) = f.
Proof.
  intros He Hd Hs Hf.
  assert (Hj : PyStr.join d f = String.append d (String PyStr.slash f)).
  { unfold PyStr.join.
    rewrite (starts_with_absent _ _ Hf), Hd, He. reflexivity. }
  rewrite Hj. split; [reflexivity|].
  unfold PyStr.dirname, PyStr.basename, PyStr.last_component.
  rewrite (rsplit_at_app _ _ _ Hf), Hs, rstrip_app_sep.
  split; [apply rstrip_open, He|reflexivity].
Qed.

Lemma basename_no_slash (p : string) :
  PyStr.all_chars (fun a => negb (Ascii.eqb a PyStr.slash)) (PyStr.basename p)
  = true.
Proof.
  unfold PyStr.basename, PyStr.last_component.
  destruct (PyStr.rsplit_at PyStr.slash p) as [[h t]|] eqn:E.
  - apply (rsplit_at_last _ _ _ _ E).
  - apply rsplit_at_absent_inv, E.
Qed.

Lemma stem_no_slash (b : string) :
  PyStr.all_chars (fun a => negb (Ascii.eqb a PyStr.slash)) b = true ->
  PyStr.all_chars (fun a => negb (Ascii.eqb a PyStr.slash))
    (fst (PyStr.splitext b)) = true.
Proof.
  intros Hb. unfold PyStr.splitext.
  rewrite (rsplit_at_absent _ _ Hb).
  destruct (PyStr.rsplit_at PyStr.dot b) as [[stem ext]|] eqn:E;
    [|exact Hb].
  destruct (PyStr.all_chars (Ascii.eqb PyStr.dot) stem); [exact Hb|].
  cbn [fst String.append].
  apply rsplit_at_last in E. destruct E as [-> _].
  rewrite all_chars_append in Hb. apply andb_prop in Hb. apply Hb.
Qed.

Lemma b64_plain (p : ascii -> bool) (s : string) :
  (forall c : ascii, is_b64 c = true -> p c = true) ->
  PyStr.all_chars is_b64 s = true -> PyStr.all_chars p s = true.
Proof. apply all_chars_impl. Qed.

Lemma b64_no_slash_dot (c : ascii) :
  is_b64 c = true ->
  negb (Ascii.eqb c PyStr.slash) = true /\ negb (Ascii.eqb c PyStr.dot) = true.
Proof.
  unfold is_b64. intros H. apply existsb_exists in H.
  destruct H as (x & Hin & Hx). apply Ascii.eqb_eq in Hx. subst x.
  simpl in Hin.
  repeat (destruct Hin as [<-|Hin]; [split; reflexivity|]).
  destruct Hin.
Qed.

(** X13: where a latent is cached, and under which name: [get_latent_path],
    when it works the path out, returns and memoises a path whose directory
    is the folder [_latent_cache] beside the image and whose file name is
    the name of the image without its extension, an underscore, the hash
    and [.safetensors]; the hash is 22 characters of the URL-safe base64
    alphabet, so it adds no directory and no extension to the name. *)
Theorem get_latent_path_location (recalculate : bool) (w : world) :
  recalculate = true \/ _latent_path (item w) = None ->
  let it := item w in
  let latent_dir := PyStr.join (PyStr.dirname (path it)) "_latent_cache" in
  let stem := fst (PyStr.splitext (PyStr.basename (path it))) in
  let hash := latent_hash_str it in
  exists p : string,
    get_latent_path recalculate w
    = (Ok p, mkWorld (set_latent_path (Some p) it) (rng w))
    /\ PyStr.dirname p = latent_dir
    /\ PyStr.basename p
       = String.append stem
           (String.append "_" (String.append hash ".safetensors"))
    /\ PyStr.splitext (PyStr.basename p)
       = (String.append stem (String.append "_" hash), ".safetensors")
    /\ String.length hash = 22%nat
    /\ PyStr.all_chars is_b64 hash = true.
Proof.
  intros Hfresh it latent_dir stem hash.
  exists (fresh_latent_path it).
  split; [apply get_latent_path_fresh, Hfresh|].
  destruct (latent_hash_str_b64 it) as [Hlen Hb64]. fold hash in Hlen, Hb64.
  destruct (latent_dir_open (PyStr.dirname (path it))) as (He & Hd & Hs).
  fold latent_dir in He, Hd, Hs.
  assert (Hstem : PyStr.all_chars
                    (fun a => negb (Ascii.eqb a PyStr.slash)) stem = true)
    by apply stem_no_slash, basename_no_slash.
  assert (Hfile : PyStr.all_chars (fun a => negb (Ascii.eqb a PyStr.slash))
                    (String.append stem
                       (String.append "_" (String.append hash ".safetensors")))
                  = true).
  { rewrite all_chars_append, Hstem. cbn [String.append PyStr.all_chars].
    rewrite all_chars_append.
    rewrite (b64_plain _ hash (fun c H => proj1 (b64_no_slash_dot c H)) Hb64).
    reflexivity. }
  destruct (join_dirname_basename latent_dir _ He Hd Hs Hfile)
    as (_ & Hdir & Hbase).
  unfold fresh_latent_path. fold latent_dir stem hash.
  split; [exact Hdir|]. split; [exact Hbase|].
  split; [|split; assumption].
  rewrite Hbase. unfold PyStr.splitext.
  rewrite (rsplit_at_absent _ _ Hfile).
  assert (E : String.append stem
                (String.append "_" (String.append hash ".safetensors"))
              = String.append (String.append stem (String.append "_" hash))
                  (String PyStr.dot "safetensors")).
  { rewrite !str_app_assoc. reflexivity. }
  rewrite E, rsplit_at_app by reflexivity.
  rewrite all_chars_append. cbn [String.append PyStr.all_chars].
  change (Ascii.eqb PyStr.dot "_") with false.
  rewrite andb_false_r. reflexivity.
Qed.

Lemma get_latent_path_location_witness :
  exists p : string,
    get_latent_path true (mkWorld Sample.cat Sample.zero_rng)
    = (Ok p, mkWorld (set_latent_path (Some p) Sample.cat) Sample.zero_rng)
    /\ PyStr.dirname p = "/data/a/_latent_cache"
    /\ PyStr.basename p = "cat_PAiSs4YupBnuNK8T5KjbIw.safetensors"
    /\ PyStr.splitext (PyStr.basename p)
       = ("cat_PAiSs4YupBnuNK8T5KjbIw", ".safetensors")
    /\ String.length "PAiSs4YupBnuNK8T5KjbIw" = 22%nat
    /\ PyStr.all_chars is_b64 "PAiSs4YupBnuNK8T5KjbIw" = true.
Proof.
  assert (Hh : latent_hash_str Sample.cat = "PAiSs4YupBnuNK8T5KjbIw")
    by (vm_compute; reflexivity).
  rewrite <- Hh.
  exact (get_latent_path_location true (mkWorld Sample.cat Sample.zero_rng)
           (or_introl eq_refl)).
Defined.

(** ** What is hashed determines the cache key *)

Lemma decode_utf8_char (c : ascii) (r : list byte) :
  decode_utf8 (PyStr.utf8_char c ++ r) = String c (decode_utf8 r).
Proof.
  destruct c as [[] [] [] [] [] [] [] []]; reflexivity.
Qed.

Lemma decode_encode_utf8 (s : string) :
  decode_utf8 (PyStr.encode_utf8 s) = s.
Proof.
  induction s as [|c s IH]; [reflexivity|].
  cbn [PyStr.encode_utf8]. rewrite decode_utf8_char, IH. reflexivity.
Qed.

Lemma in_all_ascii (c : ascii) : In c all_ascii.
Proof.
  unfold all_ascii. rewrite <- (ascii_nat_embedding c).
  apply in_map, in_seq. pose proof (nat_ascii_bounded c). lia.
Qed.

Lemma for_all_ascii (p : ascii -> bool) :
  forallb p all_ascii = true -> forall c : ascii, p c = true.
Proof.
  intros H c. rewrite forallb_forall in H. apply H, in_all_ascii.
Qed.

Lemma prefix_of_append (x : string) :
  forall y r1 r2 : string,
    String.append x r1 = String.append y r2 ->
    String.prefix x y = true \/ String.prefix y x = true.
Proof.
  induction x as [|a x IH]; intros y r1 r2 H;
    [left; destruct y; reflexivity|].
  destruct y as [|b y]; [right; reflexivity|].
  simpl in H. injection H as -> H. simpl.
  destruct (ascii_dec b b) as [_|Hne]; [|contradiction].
  apply (IH y r1 r2 H).
Qed.

Lemma str_app_inv_head (x r1 r2 : string) :
  String.append x r1 = String.append x r2 -> r1 = r2.
Proof.
  induction x as [|a x IH]; simpl; intros H; [exact H|].
  injection H as H. apply IH, H.
Qed.

(** The escapes of two characters never start alike: the escaping is a
    prefix code. *)
Lemma escape_char_code (a b : ascii) (r1 r2 : string) :
  String.append (Json.escape_char a) r1 = String.append (Json.escape_char b) r2 ->
  a = b /\ r1 = r2.
Proof.
  intros H.
  assert (Hc : forall a b : ascii,
             Ascii.eqb a b
             || negb (String.prefix (Json.escape_char a) (Json.escape_char b)
                      || String.prefix (Json.escape_char b)
                           (Json.escape_char a)) = true).
  { intros x. apply for_all_ascii. revert x.
    apply (for_all_ascii
             (fun x => forallb
                (fun y => Ascii.eqb x y
                   || negb (String.prefix (Json.escape_char x)
                              (Json.escape_char y)
                            || String.prefix (Json.escape_char y)
                                 (Json.escape_char x))) all_ascii)).
    vm_compute. reflexivity. }
  specialize (Hc a b). apply orb_prop in Hc. destruct Hc as [Hc|Hc].
  - apply Ascii.eqb_eq in Hc. subst b. split; [reflexivity|].
    apply (str_app_inv_head _ _ _ H).
  - apply negb_true_iff in Hc.
    destruct (prefix_of_append _ _ _ _ H) as [Hp|Hp]; rewrite Hp in Hc;
      [discriminate Hc|rewrite orb_true_r in Hc; discriminate Hc].
Qed.

(** No escape starts with a double quote. *)
Lemma escape_char_head (c : ascii) :
  exists (x : ascii) (r : string),
    Json.escape_char c = String x r /\ x <> PyStr.dquote.
Proof.
  assert (H : forall c : ascii,
             match Json.escape_char c with
             | String x _ => negb (Ascii.eqb x PyStr.dquote)
             | EmptyString => false
             end = true).
  { apply for_all_ascii. vm_compute. reflexivity. }
  specialize (H c). destruct (Json.escape_char c) as [|x r]; [discriminate|].
  exists x, r. split; [reflexivity|].
  apply negb_true_iff, Ascii.eqb_neq in H. exact H.
Qed.

(** A quoted string can be read back, whatever follows it. *)
Lemma escape_delimited (s1 : string) :
  forall s2 r1 r2 : string,
    String.append (Json.escape s1) (String PyStr.dquote r1)
    = String.append (Json.escape s2) (String PyStr.dquote r2) ->
    s1 = s2 /\ r1 = r2.
Proof.
  induction s1 as [|a s1 IH]; intros [|b s2] r1 r2 H.
  - simpl in H. injection H as ->. auto.
  - exfalso. cbn [Json.escape] in H. rewrite str_app_assoc in H.
    destruct (escape_char_head b) as (x & r & E & Hx). rewrite E in H.
    simpl in H. injection H as H _. apply Hx. symmetry. exact H.
  - exfalso. cbn [Json.escape] in H. rewrite str_app_assoc in H.
    destruct (escape_char_head a) as (x & r & E & Hx). rewrite E in H.
    simpl in H. injection H as H _. apply Hx. exact H.
  - cbn [Json.escape] in H. rewrite !str_app_assoc in H.
    apply escape_char_code in H. destruct H as [-> H].
    destruct (IH s2 r1 r2 H) as [-> ->]. auto.
Qed.

Lemma quote_delimited (s1 s2 r1 r2 : string) :
  String.append (Json.quote s1) r1 = String.append (Json.quote s2) r2 ->
  s1 = s2 /\ r1 = r2.
Proof.
  unfold Json.quote. cbn [String.append]. rewrite !str_app_assoc.
  cbn [String.append]. intros H. injection H as H.
  apply (escape_delimited _ _ _ _ H).
Qed.

Lemma uint_num (d : Decimal.uint) :
  PyStr.all_chars is_num_char (NilEmpty.string_of_uint d) = true.
Proof. induction d; simpl; auto. Qed.

(** [str(n)] is a non-empty string of digits, after a sign or not. *)
Lemma str_num (n : Z) :
  PyStr.all_chars is_num_char (Py.str n) = true
  /\ exists (c : ascii) (r : string),
       Py.str n = String c r /\ is_num_char c = true.
Proof.
  unfold Py.str.
  destruct (Z.to_int n) as [d|d]; simpl.
  - destruct d; simpl;
      (split; [try reflexivity; apply uint_num
              |eexists; eexists; split; reflexivity]).
  - split; [destruct d; simpl; try reflexivity; apply uint_num|].
    eexists. eexists. split; reflexivity.
Qed.

(** A string of characters of one kind, followed by a character of another
    kind, can be read back. *)
Lemma delimited (p : ascii -> bool) (s1 : string) :
  forall (s2 : string) (c1 c2 : ascii) (r1 r2 : string),
    PyStr.all_chars p s1 = true -> PyStr.all_chars p s2 = true ->
    p c1 = false -> p c2 = false ->
    String.append s1 (String c1 r1) = String.append s2 (String c2 r2) ->
    s1 = s2 /\ String c1 r1 = String c2 r2.
Proof.
  induction s1 as [|a s1 IH]; intros [|b s2] c1 c2 r1 r2 H1 H2 Hc1 Hc2 H;
    simpl in *.
  - auto.
  - injection H as -> _. apply andb_prop in H2. destruct H2 as [H2 _].
    congruence.
  - injection H as -> _. apply andb_prop in H1. destruct H1 as [H1 _].
    congruence.
  - injection H as -> H.
    apply andb_prop in H1, H2. destruct H1 as [_ H1], H2 as [_ H2].
    destruct (IH s2 c1 c2 r1 r2 H1 H2 Hc1 Hc2 H) as [-> E]. auto.
Qed.

Lemma dumps_value_delimited (v1 v2 : Json.value) (r1 r2 : string) :
  ends_value r1 -> ends_value r2 ->
  String.append (Json.dumps_value v1) r1
  = String.append (Json.dumps_value v2) r2 ->
  v1 = v2 /\ r1 = r2.
Proof.
  intros [r1' E1] [r2' E2] H.
  destruct v1 as [s1|n1|b1], v2 as [s2|n2|b2]; cbn [Json.dumps_value] in H.
  - apply quote_delimited in H. destruct H as [-> ->]. auto.
  - exfalso. destruct (str_num n2) as (_ & c & r & E & Hc).
    rewrite E in H. unfold Json.quote in H. simpl in H.
    injection H as H _. subst c. discriminate Hc.
  - exfalso. destruct b2; discriminate H.
  - exfalso. destruct (str_num n1) as (_ & c & r & E & Hc).
    rewrite E in H. unfold Json.quote in H. simpl in H.
    injection H as H _. subst c. discriminate Hc.
  - destruct (str_num n1) as (Hn1 & _), (str_num n2) as (Hn2 & _).
    assert (Hd : Py.str n1 = Py.str n2 /\ r1 = r2).
    { destruct E1 as [->| ->], E2 as [->| ->];
        apply (delimited is_num_char) in H; try reflexivity; try assumption;
        destruct H as [Hs Hr]; auto. }
    destruct Hd as [Hs ->]. apply str_inj in Hs. subst n2. auto.
  - exfalso. destruct (str_num n1) as (_ & c & r & E & Hc).
    rewrite E in H. destruct b2; simpl in H; injection H as H _;
      subst c; discriminate Hc.
  - exfalso. destruct b1; discriminate H.
  - exfalso. destruct (str_num n2) as (_ & c & r & E & Hc).
    rewrite E in H. destruct b1; simpl in H; injection H as H _;
      subst c; discriminate Hc.
  - destruct b1, b2; simpl in H; try discriminate H;
      injection H as ->; auto.
Qed.

Lemma dumps_item_delimited (kv1 kv2 : string * Json.value) (r1 r2 : string) :
  ends_value r1 -> ends_value r2 ->
  String.append (Json.dumps_item kv1) r1
  = String.append (Json.dumps_item kv2) r2 ->
  kv1 = kv2 /\ r1 = r2.
Proof.
  intros E1 E2 H. destruct kv1 as [k1 v1], kv2 as [k2 v2].
  unfold Json.dumps_item in H. cbn [fst snd] in H.
  rewrite !str_app_assoc in H.
  apply quote_delimited in H. destruct H as [-> H].
  cbn [String.append] in H. injection H as H.
  apply dumps_value_delimited in H; [|assumption|assumption].
  destruct H as [-> ->]. auto.
Qed.

(** What follows the opening brace of a serialized dict. *)
Lemma dumps_items_cons (kv : string * Json.value) (l : Json.dict) :
  String.append (String.concat ", " (map Json.dumps_item (kv :: l))) "}"
  = String.append (Json.dumps_item kv)
      (match l with
       | [] => "}"
       | _ :: _ =>
           String ","%char
             (String " "%char
                (String.append
                   (String.concat ", " (map Json.dumps_item l)) "}"))
       end).
Proof.
  destruct l as [|kv' l]; [reflexivity|].
  change (String.concat ", " (map Json.dumps_item (kv :: kv' :: l)))
    with (String.append (Json.dumps_item kv)
            (String.append ", "
               (String.concat ", " (map Json.dumps_item (kv' :: l))))).
  rewrite !str_app_assoc. reflexivity.
Qed.

Lemma dumps_item_head (kv : string * Json.value) :
  exists r : string, Json.dumps_item kv = String PyStr.dquote r.
Proof. eexists. reflexivity. Qed.

Lemma dumps_body_inj (l1 : Json.dict) :
  forall l2 : Json.dict,
    String.append (String.concat ", " (map Json.dumps_item l1)) "}"
    = String.append (String.concat ", " (map Json.dumps_item l2)) "}" ->
    l1 = l2.
Proof.
  induction l1 as [|kv1 l1 IH]; intros [|kv2 l2] H.
  - reflexivity.
  - exfalso. rewrite dumps_items_cons in H.
    destruct (dumps_item_head kv2) as [r E]. rewrite E in H.
    discriminate H.
  - exfalso. rewrite dumps_items_cons in H.
    destruct (dumps_item_head kv1) as [r E]. rewrite E in H.
    discriminate H.
  - rewrite !dumps_items_cons in H.
    apply dumps_item_delimited in H.
    + destruct H as [-> H]. f_equal.
      destruct l1 as [|x l1], l2 as [|y l2]; try discriminate H;
        [reflexivity|].
      injection H as H. apply IH, H.
    + destruct l1; eexists; [right|left]; reflexivity.
    + destruct l2; eexists; [right|left]; reflexivity.
Qed.

(** Two dicts that serialize alike are the same list of items. *)
Lemma dumps_items_inj (l1 l2 : Json.dict) :
  Json.dumps_items l1 = Json.dumps_items l2 -> l1 = l2.
Proof.
  unfold Json.dumps_items. cbn [String.append]. intros H.
  injection H as H. apply dumps_body_inj, H.
Qed.

Lemma info_dict_fields (it : FileItemDTO) :
  incl [ ("filename", Json.JStr (PyStr.basename (path it)));
         ("scale_to_width", Json.JInt (scale_to_width it));
         ("scale_to_height", Json.JInt (scale_to_height it));
         ("crop_x", Json.JInt (crop_x it));
         ("crop_y", Json.JInt (crop_y it));
         ("crop_width", Json.JInt (crop_width it));
         ("crop_height", Json.JInt (crop_height it));
         ("latent_space_version", Json.JStr (latent_space_version it));
         ("latent_version", Json.JInt (latent_version it)) ]
       (get_latent_info_dict it).
Proof.
  unfold get_latent_info_dict. intros kv H.
  destruct (flip_x it), (flip_y it); repeat (apply in_or_app; left); exact H.
Qed.

(** A key of the nine has one value in the dict. *)
Lemma info_dict_value (it : FileItemDTO) (k : string) (v : Json.value) :
  In (k, v) (get_latent_info_dict it) ->
  match
    find (fun kv => String.eqb (fst kv) k)
      [ ("filename", Json.JStr (PyStr.basename (path it)));
        ("scale_to_width", Json.JInt (scale_to_width it));
        ("scale_to_height", Json.JInt (scale_to_height it));
        ("crop_x", Json.JInt (crop_x it));
        ("crop_y", Json.JInt (crop_y it));
        ("crop_width", Json.JInt (crop_width it));
        ("crop_height", Json.JInt (crop_height it));
        ("latent_space_version", Json.JStr (latent_space_version it));
        ("latent_version", Json.JInt (latent_version it)) ]
  with
  | Some kv => v = snd kv
  | None => True
  end.
Proof.
  unfold get_latent_info_dict. intros H.
  destruct (flip_x it), (flip_y it); simpl in H;
    repeat (destruct H as [H|H]; [injection H as <- <-; reflexivity|]);
    destruct H.
Qed.

Lemma flip_flags_of_dict (it1 it2 : FileItemDTO) :
  (forall kv : string * Json.value,
      In kv (get_latent_info_dict it1) -> In kv (get_latent_info_dict it2)) ->
  (flip_x it1 = true -> flip_x it2 = true)
  /\ (flip_y it1 = true -> flip_y it2 = true).
Proof.
  intros H. split; intros Hf.
  - apply (flip_x_key it2 (Json.JBool true)), H.
    apply flip_x_key. auto.
  - apply (flip_y_key it2 (Json.JBool true)), H.
    apply flip_y_key. auto.
Qed.

(** X14: the bytes that are hashed determine the key, and the key determines
    them: two items are hashed from the same bytes exactly when they have
    the same file name, geometry, latent versions and flips.  Two items
    that differ in one of these can share a cache file only through a
    collision of MD5. *)
Theorem latent_hash_input_key (it1 it2 : FileItemDTO) :
  latent_hash_input it1 = latent_hash_input it2
  <-> latent_key_tuple it1 = latent_key_tuple it2.
Proof.
  split.
  - intros H. unfold latent_hash_input in H.
    apply (f_equal decode_utf8) in H. rewrite !decode_encode_utf8 in H.
    apply dumps_items_inj in H.
    assert (Hperm : Permutation (get_latent_info_dict it1)
                                (get_latent_info_dict it2)).
    { eapply perm_trans; [apply sort_items_perm|].
      rewrite H. symmetry. apply sort_items_perm. }
    assert (H12 : forall kv, In kv (get_latent_info_dict it1) ->
                             In kv (get_latent_info_dict it2))
      by (intros kv; apply Permutation_in, Hperm).
    assert (H21 : forall kv, In kv (get_latent_info_dict it2) ->
                             In kv (get_latent_info_dict it1))
      by (intros kv; apply Permutation_in; symmetry; exact Hperm).
    destruct (flip_flags_of_dict it1 it2 H12) as [Hx12 Hy12].
    destruct (flip_flags_of_dict it2 it1 H21) as [Hx21 Hy21].
    assert (Hfx : flip_x it1 = flip_x it2)
      by (destruct (flip_x it1), (flip_x it2); auto; symmetry; auto).
    assert (Hfy : flip_y it1 = flip_y it2)
      by (destruct (flip_y it1), (flip_y it2); auto; symmetry; auto).
    pose proof (info_dict_fields it1) as Hf.
    assert (Hv : forall (k : string) (v : Json.value),
               In (k, v) [ ("filename", Json.JStr (PyStr.basename (path it1)));
                 ("scale_to_width", Json.JInt (scale_to_width it1));
                 ("scale_to_height", Json.JInt (scale_to_height it1));
                 ("crop_x", Json.JInt (crop_x it1));
                 ("crop_y", Json.JInt (crop_y it1));
                 ("crop_width", Json.JInt (crop_width it1));
                 ("crop_height", Json.JInt (crop_height it1));
                 ("latent_space_version",
                  Json.JStr (latent_space_version it1));
                 ("latent_version", Json.JInt (latent_version it1)) ] ->
               In (k, v) (get_latent_info_dict it2))
      by (intros k v Hin; apply H12, Hf, Hin).
    unfold latent_key_tuple. rewrite Hfx, Hfy.
    repeat match goal with
           | |- (_, _) = (_, _) => f_equal
           end;
      match goal with
      | |- PyStr.basename _ = _ =>
          pose proof (info_dict_value it2 "filename" _
                        (Hv _ _ (or_introl eq_refl))) as E
      | |- scale_to_width _ = _ =>
          pose proof (info_dict_value it2 "scale_to_width" _
                        (Hv _ _ (or_intror (or_introl eq_refl)))) as E
      | |- scale_to_height _ = _ =>
          pose proof (info_dict_value it2 "scale_to_height" _
                        (Hv _ _ (or_intror (or_intror (or_introl eq_refl)))))
            as E
      | |- crop_x _ = _ =>
          pose proof (info_dict_value it2 "crop_x" _
                        (Hv _ _ (or_intror (or_intror (or_intror
                                   (or_introl eq_refl)))))) as E
      | |- crop_y _ = _ =>
          pose proof (info_dict_value it2 "crop_y" _
                        (Hv _ _ (or_intror (or_intror (or_intror (or_intror
                                   (or_introl eq_refl))))))) as E
      | |- crop_width _ = _ =>
          pose proof (info_dict_value it2 "crop_width" _
                        (Hv _ _ (or_intror (or_intror (or_intror (or_intror
                                   (or_intror (or_introl eq_refl))))))))
            as E
      | |- crop_height _ = _ =>
          pose proof (info_dict_value it2 "crop_height" _
                        (Hv _ _ (or_intror (or_intror (or_intror (or_intror
                                   (or_intror (or_intror
                                      (or_introl eq_refl)))))))))
            as E
      | |- latent_space_version _ = _ =>
          pose proof (info_dict_value it2 "latent_space_version" _
                        (Hv _ _ (or_intror (or_intror (or_intror (or_intror
                                   (or_intror (or_intror (or_intror
                                      (or_introl eq_refl))))))))))
            as E
      | |- latent_version _ = _ =>
          pose proof (info_dict_value it2 "latent_version" _
                        (Hv _ _ (or_intror (or_intror (or_intror (or_intror
                                   (or_intror (or_intror (or_intror
                                      (or_intror (or_introl eq_refl)))))))))))
            as E
      | |- _ => idtac
      end;
      try (simpl in E; injection E as E; exact E);
      reflexivity.
  - intros H. unfold latent_hash_input.
    rewrite (info_dict_of_tuple it1 it2 H). reflexivity.
Qed.

(** ** Companion files *)

Lemma first_existing_found (exists_ : string -> bool) (dir stem : string)
    (exts : list string) (p : string) :
  first_existing exists_ dir stem exts = Some p ->
  exists (before : list string) (ext : string) (after : list string),
    exts = before ++ ext :: after
    /\ p = PyStr.join dir (String.append stem ext)
    /\ exists_ p = true
    /\ Forall (fun e => exists_ (PyStr.join dir (String.append stem e)) = false)
              before.
Proof.
  induction exts as [|e r IH]; simpl; [discriminate|].
  destruct (exists_ (PyStr.join dir (String.append stem e))) eqn:E.
  - intros H. injection H as <-. exists [], e, r.
    split; [reflexivity|]. split; [reflexivity|]. split; [exact E|constructor].
  - intros H. destruct (IH H) as (before & ext & after & -> & Hp & He & Hb).
    exists (e :: before), ext, after.
    split; [reflexivity|]. split; [exact Hp|]. split; [exact He|].
    constructor; assumption.
Qed.

Lemma first_existing_none (exists_ : string -> bool) (dir stem : string)
    (exts : list string) :
  first_existing exists_ dir stem exts = None <->
  Forall (fun e => exists_ (PyStr.join dir (String.append stem e)) = false)
         exts.
Proof.
  induction exts as [|e r IH]; simpl.
  - split; [constructor|reflexivity].
  - destruct (exists_ (PyStr.join dir (String.append stem e))) eqn:E.
    + split; [discriminate|]. intros H. inversion H; congruence.
    + rewrite IH. split; [intros H; constructor; assumption|].
      intros H. inversion H; assumption.
Qed.

Lemma ext_no_slash (ext : string) :
  In ext img_ext_list ->
  PyStr.all_chars (fun a => negb (Ascii.eqb a PyStr.slash)) ext = true.
Proof.
  intros H. simpl in H.
  repeat (destruct H as [<-|H]; [reflexivity|]). destruct H.
Qed.

(** X15: the companion of an image is looked for under the name of the image
    without its extension, with the extensions [.jpg], [.jpeg], [.png] and
    [.webp] in this order: the one that is found exists, no candidate of an
    earlier extension does, and none is found exactly when none of the four
    exists.  In a directory written without a closing slash the companion
    lies in that directory, under that name. *)
Theorem find_companion_first_match (exists_ : string -> bool)
    (dir img_path : string) :
  let stem := fst (PyStr.splitext (PyStr.basename img_path)) in
  let candidate ext := PyStr.join dir (String.append stem ext) in
  match find_companion exists_ dir img_path with
  | Some p =>
      exists (before : list string) (ext : string) (after : list string),
        img_ext_list = before ++ ext :: after
        /\ p = candidate ext
        /\ exists_ p = true
        /\ Forall (fun e => exists_ (candidate e) = false) before
        /\ (plain_dir dir ->
            PyStr.dirname p = dir
            /\ PyStr.basename p = String.append stem ext)
  | None => Forall (fun e => exists_ (candidate e) = false) img_ext_list
  end.
Proof.
  intros stem candidate. unfold find_companion. fold stem.
  destruct (first_existing exists_ dir stem img_ext_list) as [p|] eqn:E.
  - destruct (first_existing_found _ _ _ _ _ E)
      as (before & ext & after & Hl & Hp & He & Hb).
    exists before, ext, after.
    split; [exact Hl|]. split; [exact Hp|]. split; [exact He|].
    split; [exact Hb|].
    intros (H1 & H2 & H3). rewrite Hp.
    assert (Hin : In ext img_ext_list)
      by (rewrite Hl; apply in_or_app; right; left; reflexivity).
    assert (Hf : PyStr.all_chars (fun a => negb (Ascii.eqb a PyStr.slash))
                   (String.append stem ext) = true).
    { rewrite all_chars_append, (ext_no_slash ext Hin), andb_true_r.
      apply stem_no_slash, basename_no_slash. }
    destruct (join_dirname_basename dir _ H1 H2 H3 Hf) as (_ & Hd & Hbn).
    split; assumption.
  - apply first_existing_none, E.
Qed.

(** X16: [has_mask_image] is set exactly when a mask path is: [load_mask_image],
    which is called for the items with [has_mask_image], finds a path.
    With [alpha_mask] the mask is the image itself; otherwise it is the
    companion found in the mask directory, a file that exists; without
    [alpha_mask] and a mask directory there is no mask. *)
Theorem init_mask_fields_consistent (exists_ : string -> bool)
    (alpha_mask : bool) (config_mask_path : option string)
    (img_path : string) :
  let '(has_mask_image, mask_path, use_alpha_as_mask) :=
    init_mask_fields exists_ alpha_mask config_mask_path img_path in
  (has_mask_image = true <-> mask_path <> None)
  /\ use_alpha_as_mask = alpha_mask
  /\ (alpha_mask = true -> mask_path = Some img_path)
  /\ (alpha_mask = false ->
      mask_path = match config_mask_path with
                  | Some dir => find_companion exists_ dir img_path
                  | None => None
                  end
      /\ forall p : string, mask_path = Some p -> exists_ p = true).
Proof.
  unfold init_mask_fields. destruct alpha_mask.
  - split; [split; [discriminate|reflexivity]|].
    split; [reflexivity|]. split; [reflexivity|discriminate].
  - destruct config_mask_path as [dir|].
    + pose proof (find_companion_found := first_existing_found exists_ dir
                    (fst (PyStr.splitext (PyStr.basename img_path)))
                    img_ext_list).
      unfold find_companion at 1 2.
      destruct (first_existing exists_ dir _ img_ext_list) as [p|].
      * split; [split; [discriminate|reflexivity]|].
        split; [reflexivity|]. split; [discriminate|].
        intros _. split; [reflexivity|].
        intros q Hq. injection Hq as <-.
        destruct (find_companion_found p eq_refl) as (_ & _ & _ & _ & _ & H & _).
        exact H.
      * split; [split; [discriminate|intros H; contradiction]|].
        split; [reflexivity|]. split; [discriminate|].
        intros _. split; [reflexivity|discriminate].
    + split; [split; [discriminate|intros H; contradiction]|].
      split; [reflexivity|]. split; [discriminate|].
      intros _. split; [reflexivity|discriminate].
Qed.

Example find_companion_sample :
  find_companion SampleFiles.exists_ "/data/masks" "/data/a/cat.webp"
  = Some "/data/masks/cat.jpeg"
  /\ find_companion SampleFiles.exists_ "/data/masks" "/data/a/dog.png" = None.
Proof. vm_compute. split; reflexivity. Qed.

(** ** The region of interest of a flipped item *)

(** X17: a flipped item gets the mirror image of its region of interest: a
    column belongs to the region kept for the item exactly when its mirror
    column belongs to the region of the caption file, and likewise for the
    rows; the size of the region is kept, mirroring twice gives the region
    back, and a region inside the image stays inside.  Without a region
    the whole image is taken, flipped or not. *)
Theorem init_poi_fields_mirror (width height x y w h : Z)
    (flip_x flip_y : bool) :
  let '(x', y', w', h') :=
    init_poi_fields width height (Some (x, y, w, h)) flip_x flip_y in
  w' = w /\ h' = h
  /\ (forall c : Z,
        x' <= c < x' + w' <-> x <= mirrored flip_x width c < x + w)
  /\ (forall r : Z,
        y' <= r < y' + h' <-> y <= mirrored flip_y height r < y + h)
  /\ init_poi_fields width height (Some (x', y', w', h')) flip_x flip_y
     = (x, y, w, h)
  /\ (0 <= x /\ x + w <= width -> 0 <= x' /\ x' + w' <= width)
  /\ (0 <= y /\ y + h <= height -> 0 <= y' /\ y' + h' <= height)
  /\ init_poi_fields width height None flip_x flip_y = (0, 0, width, height).
Proof.
  unfold init_poi_fields, mirrored.
  destruct flip_x, flip_y;
    (split; [reflexivity|]); (split; [reflexivity|]);
    (split; [intros c; lia|]); (split; [intros r; lia|]);
    (split; [f_equal; f_equal; try f_equal; lia|]);
    (split; [lia|]); (split; [lia|]);
    f_equal; f_equal; try f_equal; lia.
Qed.

(** ** Building the augmentation pipeline *)

Lemma check_methods_forallb (has_method : string -> bool)
    (augs : list Augments) :
  check_methods has_method augs
  = if forallb (fun a => has_method (method_name a)) augs then Ok tt
    else Raise (AssertionError "invalid augmentation method").
Proof.
  induction augs as [|a r IH]; simpl; [reflexivity|].
  destruct (has_method (method_name a)); [exact IH|reflexivity].
Qed.

Lemma forallb_perm {A : Type} (f : A -> bool) (l l' : list A) :
  Permutation l l' -> forallb f l = forallb f l'.
Proof.
  intros H. induction H as [|x l l' _ IH|x y l|l l' l'' _ IH1 _ IH2]; simpl.
  - reflexivity.
  - rewrite IH. reflexivity.
  - destruct (f x), (f y); reflexivity.
  - congruence.
Qed.

(** X18: [build_augmentation_transform] keeps every configured augmentation,
    once: the pipeline it stores is the configured list, rearranged when
    [shuffle_augmentations] is set and in its order otherwise.  When one of
    the method names is unknown to albumentations it raises
    [AssertionError] before it stores a pipeline, and the item keeps the one
    it had; with no augmentation configured it does nothing. *)
Theorem build_augmentation_transform_outcome (has_method : string -> bool)
    (w : world) :
  let config := dataset_config (item w) in
  let augs := augmentations config in
  let known := forallb (fun a => has_method (method_name a)) augs in
  exists (pipeline : list Augments) (g' : Rng),
    Permutation augs pipeline
    /\ (shuffle_augmentations config = false -> pipeline = augs /\ g' = rng w)
    /\ build_augmentation_transform has_method w
       = match augs with
         | [] => (Ok tt, w)
         | _ :: _ =>
             if known
             then (Ok tt,
                   mkWorld (set_aug_transform (Some pipeline) (item w)) g')
             else (Raise (AssertionError "invalid augmentation method"),
                   mkWorld (item w) g')
         end.
Proof.
  intros config augs known.
  assert (Hrun : forall (p : list Augments) (g' : Rng),
             (if shuffle_augmentations config then shuffle_list augs
              else ret augs) w = (Ok p, mkWorld (item w) g') ->
             forallb (fun a => has_method (method_name a)) p = known ->
             build_augmentation_transform has_method w
             = match augs with
               | [] => (Ok tt, w)
               | _ :: _ =>
                   if known
                   then (Ok tt,
                         mkWorld (set_aug_transform (Some p) (item w)) g')
                   else (Raise (AssertionError "invalid augmentation method"),
                         mkWorld (item w) g')
               end).
  { intros p g' Hsh Hk.
    unfold build_augmentation_transform. unfold bind at 1. unfold self at 1.
    fold config. fold augs.
    destruct augs as [|a r]; [reflexivity|].
    rewrite (bind_run _ Hsh).
    unfold bind at 1. unfold lift_res at 1.
    rewrite check_methods_forallb, Hk.
    destruct known; reflexivity. }
  destruct (shuffle_augmentations config) eqn:Es.
  - pose proof (shuffle_perm augs (rng w)) as Hp.
    destruct (shuffle augs (rng w)) as [p g'] eqn:Esh. cbn [fst] in Hp.
    exists p, g'. split; [exact Hp|]. split; [discriminate|].
    apply Hrun.
    + unfold shuffle_list. rewrite Esh. reflexivity.
    + symmetry. apply forallb_perm, Hp.
  - exists augs, (rng w). split; [apply Permutation_refl|].
    split; [intros _; split; reflexivity|].
    apply Hrun; [destruct w; reflexivity|reflexivity].
Qed.

(** ** Unconditional companions *)

Lemma augment_spatial_control_pure (img : image) (tr : transform) (w : world) :
  snd (augment_spatial_control img tr w) = w.
Proof.
  unfold augment_spatial_control, bind, self, ret, raise.
  destruct (aug_replay_spatial_transforms (item w)); [reflexivity|].
  destruct tr; reflexivity.
Qed.

Lemma load_unconditional_image_pure (fs : files) (upath : option string)
    (tr : transform) (w0 : world) :
  snd (load_unconditional_image fs upath tr w0) = w0.
Proof.
  unfold load_unconditional_image.
  unfold bind at 1. unfold self at 1.
  destruct upath as [p|]; [|reflexivity].
  unfold bind at 1.
  destruct (fs p) as [[[w h] m]|]; [|reflexivity].
  unfold ret at 1. cbn [size].
  destruct (orientation_mismatch w h (item w0)); [reflexivity|].
  destruct (buckets_enabled (dataset_config (item w0))); [|reflexivity].
  cbn [negb].
  destruct (aug_replay_spatial_transforms (item w0)) eqn:E.
  - apply augment_spatial_control_pure.
  - destruct tr; reflexivity.
Qed.



(** ** The blur of a mask *)

(** [int(min_size * random.random() * 0.005)]. *)
Lemma blur_radius_bound (min_size : Z) (q : Q) :
  0 <= min_size -> (0 <= q)%Q -> (q < 1)%Q ->
  0 <= Py.int_of (inject_Z min_size * q * (5 # 1000))
  /\ 200 * Py.int_of (inject_Z min_size * q * (5 # 1000)) <= min_size.
Proof.
  intros Hm H0 H1.
  assert (Hx : (0 <= inject_Z min_size * q * (5 # 1000))%Q).
  { apply Qmult_le_0_compat; [|discriminate].
    apply Qmult_le_0_compat; [apply inject_Z_nonneg, Hm|exact H0]. }
  split; [apply int_of_pos, Hx|].
  pose proof (int_of_le _ Hx) as Hle.
  set (r := Py.int_of (inject_Z min_size * q * (5 # 1000))) in *.
  assert (Hq : (inject_Z min_size * q * (5 # 1000)
                <= inject_Z min_size * (5 # 1000))%Q).
  { apply Qmult_le_compat_r; [|discriminate].
    rewrite <- (Qmult_1_r (inject_Z min_size)) at 2.
    apply Qmult_le_l_nonneg; [apply inject_Z_nonneg, Hm|].
    apply Qlt_le_weak, H1. }
  pose proof (Qle_trans _ _ _ Hle Hq) as H.
  unfold Qle in H. simpl in H. lia.
Qed.



(** ** One bucket per size *)

Lemma NoDup_keys_same {A B : Type} (d : list (A * B)) (k : A) (b1 b2 : B) :
  NoDup (map fst d) -> In (k, b1) d -> In (k, b2) d -> b1 = b2.
Proof.
  induction d as [|[k0 b0] r IH]; intros Hnd H1 H2; [destruct H1|].
  simpl in Hnd. inversion Hnd as [|? ? Hnot Hr]; subst.
  destruct H1 as [H1|H1], H2 as [H2|H2].
  - congruence.
  - exfalso. injection H1 as -> _. apply Hnot.
    apply (in_map fst) in H2. exact H2.
  - exfalso. injection H2 as -> _. apply Hnot.
    apply (in_map fst) in H1. exact H1.
  - apply (IH Hr H1 H2).
Qed.

Lemma all_indices_In (d : list (string * Bucket.t)) (i : nat) :
  In i (all_indices d) ->
  exists (key : string) (b : Bucket.t),
    In (key, b) d /\ In i (Bucket.file_list_idx b).
Proof.
  unfold all_indices. intros H. apply in_concat in H.
  destruct H as (l & Hl & Hi). apply in_map_iff in Hl.
  destruct Hl as ([key b] & <- & Hin). exists key, b. auto.
Qed.

(** X21: after [setup_buckets] has rebuilt the buckets, two items of the same
    crop width and the same crop height are listed by the same bucket:
    there is one bucket per size, so items that can share a batch are never
    kept apart. *)
Theorem setup_buckets_groups_by_size
    (get_resolution : Z -> Z -> res Z)
    (get_bucket_for_image_size : Z -> Z -> Z -> Z -> res bucket_resolution)
    (s s' : ds_world) (i j : nat) (it_i it_j : FileItemDTO) :
  rebuilds (ds s) ->
  setup_buckets get_resolution get_bucket_for_image_size s = (Ok tt, s') ->
  nth_error (file_list (ds s')) i = Some it_i ->
  nth_error (file_list (ds s')) j = Some it_j ->
  crop_width it_i = crop_width it_j ->
  crop_height it_i = crop_height it_j ->
  exists (key : string) (b : Bucket.t),
    In (key, b) (buckets (ds s'))
    /\ In i (Bucket.file_list_idx b)
    /\ In j (Bucket.file_list_idx b)
    /\ Bucket.width b = crop_width it_i
    /\ Bucket.height b = crop_height it_i.
Proof.
  intros Hre Hrun Ei Ej Hw Hh.
  destruct (setup_buckets_rebuilt get_resolution get_bucket_for_image_size
              s s' Hre Hrun) as (s1 & Hloop & Hfl & Hb & _).
  pose proof (setup_loop_placed get_resolution get_bucket_for_image_size
                s s1 Hloop) as (_ & Hnd & Hp).
  pose proof (setup_loop_inv get_resolution get_bucket_for_image_size
                s s1 Hloop) as (_ & Hlen & _ & _ & Hinv & _).
  apply (bucket_inv_shuffle _ _ (ds_rng s1)) in Hinv.
  rewrite <- Hb, <- Hfl in Hinv.
  assert (Hkeys : NoDup (map fst (buckets (ds s'))))
    by (rewrite Hb, shuffle_all_keys; exact Hnd).
  assert (Hall : forall k : nat,
             (k < List.length (file_list (ds s')))%nat ->
             In k (all_indices (buckets (ds s')))).
  { intros k Hk. rewrite Hb.
    apply (Permutation_in k (shuffle_all_indices _ _)).
    apply (Permutation_in k (Permutation_sym Hp)).
    apply in_seq. rewrite Hfl, Hlen in Hk. lia. }
  assert (Hi : (i < List.length (file_list (ds s')))%nat)
    by (apply nth_error_Some; rewrite Ei; discriminate).
  assert (Hj : (j < List.length (file_list (ds s')))%nat)
    by (apply nth_error_Some; rewrite Ej; discriminate).
  destruct (all_indices_In _ _ (Hall i Hi)) as (ki & bi & Hini & Hii).
  destruct (all_indices_In _ _ (Hall j Hj)) as (kj & bj & Hinj & Hjj).
  destruct (Hinv ki bi Hini) as [Hki Hmi].
  destruct (Hinv kj bj Hinj) as [Hkj Hmj].
  destruct (Hmi i Hii) as (x & Ex & Wx & Hx).
  destruct (Hmj j Hjj) as (y & Ey & Wy & Hy).
  rewrite Ei in Ex. injection Ex as <-.
  rewrite Ej in Ey. injection Ey as <-.
  assert (Hk : ki = kj) by (rewrite Hki, Hkj; congruence).
  rewrite <- Hk in Hinj.
  pose proof (NoDup_keys_same _ _ _ _ Hkeys Hini Hinj) as <-.
  exists ki, bi. auto 10.
Qed.

Lemma setup_buckets_groups_by_size_witness :
  let s' := snd (setup_buckets SampleBuckets.get_resolution
                   SampleBuckets.get_bucket_for_image_size
                   SampleBuckets.dataset) in
  exists it_i it_j : FileItemDTO,
    nth_error (file_list (ds s')) 0 = Some it_i
    /\ nth_error (file_list (ds s')) 2 = Some it_j
    /\ exists (key : string) (b : Bucket.t),
         In (key, b) (buckets (ds s'))
         /\ In 0%nat (Bucket.file_list_idx b)
         /\ In 2%nat (Bucket.file_list_idx b)
         /\ Bucket.width b = crop_width it_i
         /\ Bucket.height b = crop_height it_i.
Proof.
  intros s'.
  assert (Hrun : setup_buckets SampleBuckets.get_resolution
                   SampleBuckets.get_bucket_for_image_size
                   SampleBuckets.dataset = (Ok tt, s')).
  { vm_compute. reflexivity. }
  destruct (nth_error (file_list (ds s')) 0) as [it_i|] eqn:Ei;
    [|vm_compute in Ei; discriminate Ei].
  destruct (nth_error (file_list (ds s')) 2) as [it_j|] eqn:Ej;
    [|vm_compute in Ej; discriminate Ej].
  exists it_i, it_j. split; [reflexivity|]. split; [reflexivity|].
  apply (setup_buckets_groups_by_size SampleBuckets.get_resolution
           SampleBuckets.get_bucket_for_image_size SampleBuckets.dataset s'
           0%nat 2%nat it_i it_j (or_introl (Z.le_refl 0)) Hrun Ei Ej).
  - vm_compute in Ei, Ej. injection Ei as <-. injection Ej as <-.
    reflexivity.
  - vm_compute in Ei, Ej. injection Ei as <-. injection Ej as <-.
    reflexivity.
Defined.
